(** * aios-core: install / update / sync commands

    A shallow embedding of the three file-synchronisation commands of the
    AIOS CLI ([cli/commands/install], [cli/commands/update],
    [cli/commands/sync]) and of the version readers, together with the
    properties of their documented behaviour.

    Conventions of the embedding.
    - The file system is one tree of directories and regular files; a path
      is the list of its segments from the root, already resolved.  Symbolic
      links, permissions and timestamps are not modelled.
    - File contents are bytes (a [string] of 8-bit characters).  A
      JavaScript string is represented by its UTF-8 encoding, so that
      [fs.readFileSync(p, 'utf8')] is the decoder of [Utf8] applied to the
      bytes of the file (byte sequences that are not UTF-8 become U+FFFD)
      and [fs.writeFileSync(p, s)] stores the representation of [s];
      [fs.copy] moves bytes.  Strings with unpaired surrogates, which no
      read produces, have no representation.
    - A file operation that throws is [None]; an action ends in [Done],
      in [Exit] (the process ends with that status) or in [Throw] (the
      rejection is caught by [run], which exits with status 1).
    - [fs.copy], [fs.remove] and [fs.ensureDir] are those of fs-extra, with
      the checks of [copy] in the order of its current releases: the paths
      are checked, then the filter is asked, item by item.  A copy reads its
      source as it is when the copy starts.
    - [console.log] output has no influence on the file system or on the
      exit status and is left out.
    - What the commands take from outside the repository ([JSON.parse],
      js-yaml, npm) is a parameter, gathered in the class [Externals]; the
      clock is part of the [process]. *)

From Stdlib Require Import String Ascii List Bool NArith ZArith Lia PrimFloat.
Import ListNotations.
Local Open Scope string_scope.
Local Open Scope list_scope.
Set Warnings "-register-all".

(** ** Association lists

    Insertion-ordered, as the own properties of a JavaScript object and
    the entries of a directory are. *)

Module Alist.
Section Alist.
Context {A : Type}.

Fixpoint lookup (k : string) (l : list (string * A)) : option A :=
  match l with
  | [] => None
  | (k', v) :: l' => if k =? k' then Some v else lookup k l'
  end.

(** Overwrite the binding of [k] in place, or add it at the end. *)
Fixpoint put (k : string) (v : A) (l : list (string * A)) : list (string * A) :=
  match l with
  | [] => [(k, v)]
  | (k', v') :: l' =>
      if k =? k' then (k, v) :: l' else (k', v') :: put k v l'
  end.

Fixpoint del (k : string) (l : list (string * A)) : list (string * A) :=
  match l with
  | [] => []
  | (k', v') :: l' =>
      if k =? k' then del k l' else (k', v') :: del k l'
  end.

End Alist.
End Alist.

(** [xs.includes(x)] on an array of strings. *)
Definition includes (xs : list string) (x : string) : bool :=
  existsb (String.eqb x) xs.

(** ** JavaScript values *)

Module JS.

Inductive jsval : Type :=
| JUndefined
| JNull
| JBool (b : bool)
| JNum (x : float)
| JStr (s : string)
| JArr (xs : list jsval)
| JObj (props : list (string * jsval)).

(** ToBoolean. *)
Definition truthy (v : jsval) : bool :=
  match v with
  | JUndefined | JNull => false
  | JBool b => b
  | JNum x => negb (PrimFloat.is_zero x || PrimFloat.is_nan x)
  | JStr s => negb (s =? "")
  | JArr _ | JObj _ => true
  end.

(** [a || b]. *)
Definition js_or (a b : jsval) : jsval := if truthy a then a else b.

(** [v.k] for the property names the commands use ([version],
    [installed_at]): a TypeError ([None]) on [undefined] and [null], the own
    property of an object, [undefined] on everything else. *)
Definition js_get (v : jsval) (k : string) : option jsval :=
  match v with
  | JUndefined | JNull => None
  | JObj ps => Some (match Alist.lookup k ps with Some x => x | None => JUndefined end)
  | _ => Some JUndefined
  end.

(** Truthiness of a value that is [null] or a string, as in
    [if (settingsLocalBackup)]. *)
Definition truthy_text (o : option string) : bool :=
  match o with
  | None => false
  | Some s => negb (s =? "")
  end.

End JS.
Export JS.

(** ** Paths *)

Definition path := list string.

Module Path.

(** [path.join(p, name)]. *)
Definition join (p : path) (name : string) : path := p ++ [name].

(** [path.resolve(p, '..')]; the root is its own parent. *)
Definition parent (p : path) : path := removelast p.

(** [path.basename]. *)
Definition basename (p : path) : string := last p "".

(** [path.relative(from, to)], as the list of segments of the result. *)
Fixpoint relative (from to : path) : path :=
  match from, to with
  | a :: from', b :: to' =>
      if a =? b then relative from' to' else map (fun _ => "..") from ++ to
  | [], _ => to
  | _ :: _, [] => map (fun _ => "..") from
  end.

(** The string a relative path denotes ([path.sep] is ["/"]). *)
Definition to_string (r : path) : string := String.concat "/" r.

(** The string of an absolute path. *)
Definition abs_string (p : path) : string := "/" ++ String.concat "/" p.

Fixpoint eqb (p q : path) : bool :=
  match p, q with
  | [], [] => true
  | a :: p', b :: q' => (a =? b) && eqb p' q'
  | _, _ => false
  end.

(** [p] is [q] or an ancestor of [q]. *)
Fixpoint prefixb (p q : path) : bool :=
  match p, q with
  | [], _ => true
  | a :: p', b :: q' => (a =? b) && prefixb p' q'
  | _ :: _, [] => false
  end.

(** [p] and [q] part ways at some segment: neither is an ancestor of the
    other (nor equal to it). *)
Fixpoint diverge (p q : path) : bool :=
  match p, q with
  | a :: p', b :: q' => if a =? b then diverge p' q' else true
  | _, _ => false
  end.

End Path.

(** ** UTF-8

    What [buffer.toString('utf8')] makes of the bytes of a file, in the
    representation of strings by their UTF-8 encoding: the decoder of the
    Encoding Standard, which Node follows.  A well-formed sequence is kept;
    every maximal ill-formed part (a byte that cannot start a sequence, or
    a sequence cut short by a byte that cannot continue it or by the end of
    the input) becomes one U+FFFD and decoding resumes at the byte that
    cut it. *)

Module Utf8.
Local Open Scope string_scope.

(** U+FFFD, encoded: EF BF BD. *)
Definition replacement : string :=
  String (ascii_of_N 239) (String (ascii_of_N 191) (String (ascii_of_N 189) "")).

(** What a byte is when no sequence is open: a character of its own
    (00..7F), the first byte of a sequence with [more] bytes to follow, the
    next of them in [[lo, hi]], or a byte that starts nothing. *)
Inductive lead : Type :=
| Single
| Lead (more : nat) (lo hi : N)
| Bad.

Definition between (lo hi b : N) : bool := (lo <=? b)%N && (b <=? hi)%N.

(** The bounds on the second byte rule out overlong forms (E0, F0),
    surrogates (ED) and code points past U+10FFFF (F4). *)
Definition classify (b : N) : lead :=
  if (b <=? 127)%N then Single
  else if between 194 223 b then Lead 1 128 191
  else if between 224 239 b then
    Lead 2 (if (b =? 224)%N then 160 else 128)%N
           (if (b =? 237)%N then 159 else 191)%N
  else if between 240 244 b then
    Lead 3 (if (b =? 240)%N then 144 else 128)%N
           (if (b =? 244)%N then 143 else 191)%N
  else Bad.

(** [more] bytes of the open sequence are still to come, the next one in
    [[lo, hi]]; [pending] holds the bytes of the sequence read so far. *)
Fixpoint decode_from (more : nat) (lo hi : N) (pending : string) (s : string)
    : string :=
  match s with
  | EmptyString =>
      match more with
      | O => EmptyString
      | S _ => replacement
      end
  | String c s' =>
      let fresh :=
        match classify (N_of_ascii c) with
        | Single => String c (decode_from 0 128 191 "" s')
        | Lead n lo' hi' => decode_from n lo' hi' (String c "") s'
        | Bad => replacement ++ decode_from 0 128 191 "" s'
        end in
      match more with
      | O => fresh
      | S n =>
          if between lo hi (N_of_ascii c) then
            match n with
            | O => pending ++ String c (decode_from 0 128 191 "" s')
            | S _ => decode_from n 128 191 (pending ++ String c "") s'
            end
          else replacement ++ fresh
      end
  end.

Definition decode (bytes : string) : string := decode_from 0 128 191 "" bytes.

End Utf8.

(** ** The file system *)

Module Fs.

Inductive node : Type :=
| File (content : string)
| Dir (entries : list (string * node)).

Definition entries_t := list (string * node).

(** No directory lists a name twice. *)
Fixpoint wf (n : node) : bool :=
  match n with
  | File _ => true
  | Dir es =>
      (fix go (seen : list string) (es : entries_t) : bool :=
         match es with
         | [] => true
         | (k, v) :: es' =>
             negb (existsb (String.eqb k) seen) && wf v && go (k :: seen) es'
         end) [] es
  end.

(** The node at a path, if any.  A path through a regular file leads
    nowhere. *)
Fixpoint get (p : path) (o : option node) : option node :=
  match p with
  | [] => o
  | x :: p' =>
      match o with
      | Some (Dir es) => get p' (Alist.lookup x es)
      | _ => None
      end
  end.

(** Replace what is at [p] by the result of [f] ([Some None] deletes the
    entry).  Every directory on the way to [p] must exist. *)
Fixpoint alter (p : path) (f : option node -> option (option node))
    (o : option node) : option (option node) :=
  match p with
  | [] => f o
  | x :: p' =>
      match o with
      | Some (Dir es) =>
          match alter p' f (Alist.lookup x es) with
          | Some (Some c) => Some (Some (Dir (Alist.put x c es)))
          | Some None => Some (Some (Dir (Alist.del x es)))
          | None => None
          end
      | _ => None
      end
  end.

Definition alter_fs (p : path) (f : option node -> option (option node))
    (fs : node) : option node :=
  match alter p f (Some fs) with
  | Some (Some fs') => Some fs'
  | _ => None
  end.

(** [mkdir -p]. *)
Fixpoint mkdirs_node (p : path) (o : option node) : option node :=
  match p with
  | [] =>
      match o with
      | None => Some (Dir [])
      | Some (Dir es) => Some (Dir es)
      | Some (File _) => None
      end
  | x :: p' =>
      match o with
      | None =>
          match mkdirs_node p' None with
          | Some c => Some (Dir [(x, c)])
          | None => None
          end
      | Some (Dir es) =>
          match mkdirs_node p' (Alist.lookup x es) with
          | Some c => Some (Dir (Alist.put x c es))
          | None => None
          end
      | Some (File _) => None
      end
  end.

Definition is_dir (o : option node) : bool :=
  match o with Some (Dir _) => true | _ => false end.

Definition is_file (o : option node) : bool :=
  match o with Some (File _) => true | _ => false end.

(** [fs.existsSync]. *)
Definition existsSync (p : path) (fs : node) : bool :=
  match get p (Some fs) with Some _ => true | None => false end.

(** The bytes of the regular file at [p], if there is one. *)
Definition file_bytes (p : path) (fs : node) : option string :=
  match get p (Some fs) with
  | Some (File c) => Some c
  | _ => None
  end.

(** [fs.readFileSync(p, 'utf8')]: the bytes of the file, decoded; throws
    when [p] is missing or is a directory. *)
Definition readFileSync (p : path) (fs : node) : option string :=
  match file_bytes p fs with
  | Some c => Some (Utf8.decode c)
  | None => None
  end.

(** [fs.writeFileSync(p, c)]: stores the encoding of the string [c]; throws
    when the parent directory is missing or [p] is a directory. *)
Definition writeFileSync (p : path) (c : string) (fs : node) : option node :=
  alter_fs p (fun d => match d with
                       | Some (Dir _) => None
                       | _ => Some (Some (File c))
                       end) fs.

(** [fs.remove]: recursive, silent when there is nothing to remove. *)
Definition remove (p : path) (fs : node) : option node :=
  if existsSync p fs then alter_fs p (fun _ => Some None) fs else Some fs.

(** [fs.ensureDir]. *)
Definition ensureDir (p : path) (fs : node) : option node :=
  mkdirs_node p (Some fs).

Record copy_opts : Type := {
  filter : path -> bool;
  overwrite : bool;
  errorOnExist : bool
}.

(** fs-extra's defaults: no filter, [overwrite: true]. *)
Definition default_opts : copy_opts :=
  {| filter := fun _ => true; overwrite := true; errorOnExist := false |}.

(** fs-extra's [getStatsAndPerformCopy]: [s] is the source node found at the
    absolute path [sp], [d] what is at the destination.  A regular file
    replaces a regular file only with [overwrite]; a directory is created
    when missing and its items are copied one by one, each after the filter
    has accepted its source path; a directory never replaces a file nor a
    file a directory. *)
Fixpoint copy_node (o : copy_opts) (sp : path) (s : node) (d : option node)
    {struct s} : option node :=
  match s with
  | File c =>
      match d with
      | None => Some (File c)
      | Some (File c') =>
          if overwrite o then Some (File c)
          else if errorOnExist o then None
          else Some (File c')
      | Some (Dir _) => None
      end
  | Dir es =>
      match d with
      | Some (File _) => None
      | _ =>
          let des := match d with Some (Dir des) => des | _ => [] end in
          option_map Dir
            ((fix items (es : entries_t) (des : entries_t)
                : option entries_t :=
                match es with
                | [] => Some des
                | (x, c) :: es' =>
                    if filter o (sp ++ [x]) then
                      match copy_node o (sp ++ [x]) c (Alist.lookup x des) with
                      | Some c' => items es' (Alist.put x c' des)
                      | None => None
                      end
                    else items es' des
                end) es des)
      end
  end.

(** The loop over the items of a directory, as a function of its own. *)
Fixpoint copy_items (o : copy_opts) (sp : path) (es : entries_t)
    (des : entries_t) : option entries_t :=
  match es with
  | [] => Some des
  | (x, c) :: es' =>
      if filter o (sp ++ [x]) then
        match copy_node o (sp ++ [x]) c (Alist.lookup x des) with
        | Some c' => copy_items o sp es' (Alist.put x c' des)
        | None => None
        end
      else copy_items o sp es' des
  end.

(** [fs.copy(src, dest, opts)].  Throws when [src] is missing, when [src]
    and [dest] are the same, when one is a directory and the other a file,
    and when [dest] lies inside the directory [src]; does nothing when the
    filter rejects [src]; creates the parent of [dest] when it is missing. *)
Definition copy (o : copy_opts) (src dest : path) (fs : node) : option node :=
  match get src (Some fs) with
  | None => None
  | Some s =>
      let d := get dest (Some fs) in
      if Path.eqb src dest then None
      else if is_dir (Some s) && is_file d then None
      else if is_file (Some s) && is_dir d then None
      else if is_dir (Some s) && Path.prefixb src dest then None
      else if negb (filter o src) then Some fs
      else
        match
          (if existsSync (Path.parent dest) fs then Some fs
           else mkdirs_node (Path.parent dest) (Some fs))
        with
        | None => None
        | Some fs1 =>
            alter_fs dest (fun d => option_map Some (copy_node o src s d)) fs1
        end
  end.

(** [countItems]: the number of regular files below a directory. *)
Fixpoint countItems (n : node) : nat :=
  match n with
  | File _ => 1
  | Dir es =>
      (fix go (es : entries_t) : nat :=
         match es with
         | [] => 0
         | (_, c) :: es' => countItems c + go es'
         end) es
  end.

End Fs.
Export Fs.

(** ** The commands *)

(** What the commands take from outside the repository.
    - [json_parse]: [JSON.parse]; [None] is a SyntaxError.
    - [yaml_load], [yaml_dump]: js-yaml's [load] and [dump]; [None] is a
      YAMLException.
    - [npm_install d fs]: the file system after [npm install --production]
      has run in directory [d] (its failure is caught by the caller). *)
Class Externals : Type := {
  json_parse : string -> option jsval;
  yaml_load : string -> option jsval;
  yaml_dump : jsval -> option string;
  npm_install : path -> node -> node
}.

(** The process a command runs in: [process.cwd()], the [__dirname] of the
    command's module, and the successive readings of
    [new Date().toISOString()]. *)
Record process : Type := {
  cwd : path;
  dirname : path;
  clock : nat -> string
}.

(** The parsed command line: commander sets [options.force] and
    [options.skipDeps] to [true] or leaves them undefined. *)
Record options : Type := {
  force : bool;
  skipDeps : bool
}.

Inductive outcome : Type :=
| Done (fs : node)
| Exit (code : Z) (fs : node)
| Throw.


Definition finish (r : option node) : outcome :=
  match r with
  | Some fs => Done fs
  | None => Throw
  end.

Definition bind {A B : Type} (c : option A) (k : A -> option B) : option B :=
  match c with
  | Some a => k a
  | None => None
  end.

Notation "x <- c ;; k" := (bind c (fun x => k))
  (at level 61, c at next level, right associativity).

(** [a === b] where [a] is [null] or a string and [b] a string. *)
Definition text_eq (a : option string) (b : string) : bool :=
  match a with
  | Some s => s =? b
  | None => false
  end.

(** *** [cli/commands/update] *)

Module Update.
Section Update.
Context {E : Externals}.

(** [path.resolve(__dirname, '..', '..', '..')]. *)
Definition getPackageRoot (pr : process) : path :=
  Path.parent (Path.parent (Path.parent (dirname pr))).

Definition getPackageVersion (pr : process) (fs : node) : jsval :=
  let pkgPath := Path.join (getPackageRoot pr) "package.json" in
  match readFileSync pkgPath fs with
  | None => JStr "0.0.0"
  | Some text =>
      match json_parse text with
      | None => JStr "0.0.0"
      | Some pkg =>
          match js_get pkg "version" with
          | None => JStr "0.0.0"
          | Some v => js_or v (JStr "0.0.0")
          end
      end
  end.

Definition LOCAL_CONFIGS : list string :=
  ["core-config.yaml"; "local-config.yaml"; "install-manifest.yaml"].

Definition COPY_EXCLUDE : list string :=
  ["node_modules"; ".DS_Store"; "claude-config"; "package-lock.json"].

(** The filter of the framework copy (step 4). *)
Definition copy_filter (force : bool) (packageRoot src : path) : bool :=
  let relative := Path.relative packageRoot src in
  match relative with
  | [] => true
  | topLevel :: _ =>
      if includes COPY_EXCLUDE topLevel then false
      else if negb force && includes LOCAL_CONFIGS (Path.to_string relative)
      then false
      else true
  end.

(** Step 2: the version of the manifest on disk, ['unknown'] when there is
    none or when reading it throws. *)
Definition read_currentVersion (manifestPath : path) (fs : node) : jsval :=
  if existsSync manifestPath fs then
    match readFileSync manifestPath fs with
    | None => JStr "unknown"
    | Some text =>
        match yaml_load text with
        | None => JStr "unknown"
        | Some manifest =>
            match js_get manifest "version" with
            | None => JStr "unknown"
            | Some v => js_or v (JStr "unknown")
            end
        end
    end
  else JStr "unknown".

(** Step 3: the loop over [LOCAL_CONFIGS] filling [backups]. *)
Fixpoint backup_configs (targetAiosCore : path) (configs : list string)
    (fs : node) (backups : list (string * string))
    : option (list (string * string)) :=
  match configs with
  | [] => Some backups
  | configFile :: rest =>
      let configPath := Path.join targetAiosCore configFile in
      if existsSync configPath fs then
        content <- readFileSync configPath fs ;;
        backup_configs targetAiosCore rest fs
          (Alist.put configFile content backups)
      else backup_configs targetAiosCore rest fs backups
  end.

(** [let b = null; if (fs.existsSync(p)) b = fs.readFileSync(p, 'utf8')]. *)
Definition backup_optional (p : path) (fs : node) : option (option string) :=
  if existsSync p fs then
    content <- readFileSync p fs ;; Some (Some content)
  else Some None.

(** Step 5, one catalog ([commands], [rules], [hooks]): the three blocks of
    the source differ in the name only. *)
Definition replace_catalog (claudeConfigSrc claudeTarget : path)
    (name : string) (fs : node) : option node :=
  let src := Path.join claudeConfigSrc name in
  if existsSync src fs then
    fs1 <- remove (Path.join claudeTarget name) fs ;;
    copy default_opts src (Path.join claudeTarget name) fs1
  else Some fs.

Definition update_settings (claudeConfigSrc claudeTarget : path) (fs : node)
    : option node :=
  let settingsSrc := Path.join claudeConfigSrc "settings.json" in
  if existsSync settingsSrc fs then
    copy default_opts settingsSrc (Path.join claudeTarget "settings.json") fs
  else Some fs.

Definition update_claudeMd (opts : options) (claudeConfigSrc claudeMdPath : path)
    (claudeMdBackup : option string) (fs : node) : option node :=
  let claudeMdSrc := Path.join claudeConfigSrc "CLAUDE.md" in
  if existsSync claudeMdSrc fs then
    templateContent <- readFileSync claudeMdSrc fs ;;
    if negb (truthy_text claudeMdBackup)
       || text_eq claudeMdBackup templateContent
       || force opts
    then copy default_opts claudeMdSrc claudeMdPath fs
    else Some fs
  else Some fs.

(** Step 5. *)
Definition update_claude (opts : options) (packageRoot cwd : path)
    (claudeMdBackup : option string) (fs : node) : option node :=
  let claudeConfigSrc := Path.join packageRoot "claude-config" in
  let claudeTarget := Path.join cwd ".claude" in
  let claudeMdPath := Path.join (Path.join cwd ".claude") "CLAUDE.md" in
  if existsSync claudeConfigSrc fs then
    fs1 <- replace_catalog claudeConfigSrc claudeTarget "commands" fs ;;
    fs2 <- replace_catalog claudeConfigSrc claudeTarget "rules" fs1 ;;
    fs3 <- replace_catalog claudeConfigSrc claudeTarget "hooks" fs2 ;;
    fs4 <- update_settings claudeConfigSrc claudeTarget fs3 ;;
    update_claudeMd opts claudeConfigSrc claudeMdPath claudeMdBackup fs4
  else Some fs.

(** Step 6: the loop over [Object.entries(backups)]. *)
Fixpoint restore_configs (targetAiosCore : path)
    (backups : list (string * string)) (fs : node) : option node :=
  match backups with
  | [] => Some fs
  | (configFile, content) :: rest =>
      fs1 <- writeFileSync (Path.join targetAiosCore configFile) content fs ;;
      restore_configs targetAiosCore rest fs1
  end.

Definition restore_settingsLocal (settingsLocalPath : path)
    (settingsLocalBackup : option string) (fs : node) : option node :=
  match settingsLocalBackup with
  | Some content =>
      if truthy_text settingsLocalBackup
      then writeFileSync settingsLocalPath content fs
      else Some fs
  | None => Some fs
  end.

(** The object literal of step 7. *)
Definition manifest_of (installed_at updated_at version previous_version : jsval)
    (source : string) : jsval :=
  JObj [("installed_at", installed_at);
        ("updated_at", updated_at);
        ("version", version);
        ("previous_version", previous_version);
        ("source", JStr source)].

(** Step 7: the manifest object.  [yaml.load] of the snapshot is not
    guarded here. *)
Definition build_manifest (pr : process) (backups : list (string * string))
    (version currentVersion : jsval) (packageRoot : path) : option jsval :=
  let backup := Alist.lookup "install-manifest.yaml" backups in
  if truthy_text backup then
    text <- backup ;;
    old <- yaml_load text ;;
    installed_at <- js_get old "installed_at" ;;
    Some (manifest_of installed_at (JStr (clock pr 0)) version currentVersion
            (Path.abs_string packageRoot))
  else
    Some (manifest_of (JStr (clock pr 0)) (JStr (clock pr 1)) version
            currentVersion (Path.abs_string packageRoot)).

Definition write_manifest (pr : process) (manifestPath : path)
    (backups : list (string * string)) (version currentVersion : jsval)
    (packageRoot : path) (fs : node) : option node :=
  manifest <- build_manifest pr backups version currentVersion packageRoot ;;
  text <- yaml_dump manifest ;;
  writeFileSync manifestPath text fs.

(** Steps 3 to 6: snapshot, framework copy, [.claude] update, restore. *)
Definition sync_and_restore (pr : process) (opts : options) (fs : node)
    : option (list (string * string) * node) :=
  let packageRoot := getPackageRoot pr in
  let targetAiosCore := Path.join (cwd pr) ".aios-core" in
  backups <- backup_configs targetAiosCore LOCAL_CONFIGS fs [] ;;
  let claudeMdPath := Path.join (Path.join (cwd pr) ".claude") "CLAUDE.md" in
  claudeMdBackup <- backup_optional claudeMdPath fs ;;
  let settingsLocalPath :=
    Path.join (Path.join (cwd pr) ".claude") "settings.local.json" in
  settingsLocalBackup <- backup_optional settingsLocalPath fs ;;
  fs4 <- copy {| filter := copy_filter (force opts) packageRoot;
                 overwrite := true;
                 errorOnExist := false |}
              packageRoot targetAiosCore fs ;;
  fs5 <- update_claude opts packageRoot (cwd pr) claudeMdBackup fs4 ;;
  fs6 <- restore_configs targetAiosCore backups fs5 ;;
  fs6' <- restore_settingsLocal settingsLocalPath settingsLocalBackup fs6 ;;
  Some (backups, fs6').

Definition updateAction (pr : process) (opts : options) (fs : node) : outcome :=
  let packageRoot := getPackageRoot pr in
  let version := getPackageVersion pr fs in
  let targetAiosCore := Path.join (cwd pr) ".aios-core" in
  if negb (existsSync targetAiosCore fs) then Exit 1 fs
  else
    let manifestPath := Path.join targetAiosCore "install-manifest.yaml" in
    let currentVersion := read_currentVersion manifestPath fs in
    finish
      (r <- sync_and_restore pr opts fs ;;
       write_manifest pr manifestPath (fst r) version currentVersion
         packageRoot (snd r)).

(** The manifest object a run of [update] on [fs] builds (for the
    statements; [updateAction] computes it in step 7). *)
Definition new_manifest (pr : process) (fs : node) : option jsval :=
  let targetAiosCore := Path.join (cwd pr) ".aios-core" in
  let manifestPath := Path.join targetAiosCore "install-manifest.yaml" in
  backups <- backup_configs targetAiosCore LOCAL_CONFIGS fs [] ;;
  build_manifest pr backups (getPackageVersion pr fs)
    (read_currentVersion manifestPath fs) (getPackageRoot pr).

End Update.
End Update.

(** *** [cli/commands/sync] *)

Module Sync.

Definition SYNC_ITEMS : list string :=
  ["commands"; "rules"; "hooks"; "CLAUDE.md"; "settings.json"].

Definition NEVER_SYNC : list string := ["settings.local.json"].

(** The filter of the directory copy. *)
Definition sync_filter (srcPath : path) : bool :=
  let basename := Path.basename srcPath in
  negb (includes NEVER_SYNC basename) && negb (basename =? ".DS_Store").

(** Step 4, the body of the loop over [SYNC_ITEMS].  [countItems(dest)]
    reads the directory the copy has just made and its result is only
    printed, as are the two counters. *)
Definition sync_item (claudeDir claudeConfigDir : path) (item : string)
    (fs : node) : option node :=
  let src := Path.join claudeDir item in
  let dest := Path.join claudeConfigDir item in
  if negb (existsSync src fs) then Some fs
  else if is_dir (get src (Some fs)) then
    fs1 <- remove dest fs ;;
    copy {| filter := sync_filter; overwrite := true; errorOnExist := false |}
         src dest fs1
  else copy default_opts src dest fs.

Fixpoint sync_items (claudeDir claudeConfigDir : path) (items : list string)
    (fs : node) : option node :=
  match items with
  | [] => Some fs
  | item :: rest =>
      fs1 <- sync_item claudeDir claudeConfigDir item fs ;;
      sync_items claudeDir claudeConfigDir rest fs1
  end.

(** Step 5, the loop over [NEVER_SYNC]. *)
Fixpoint remove_forbidden (claudeConfigDir : path) (items : list string)
    (fs : node) : option node :=
  match items with
  | [] => Some fs
  | item :: rest =>
      let forbidden := Path.join claudeConfigDir item in
      if existsSync forbidden fs then
        fs1 <- remove forbidden fs ;;
        remove_forbidden claudeConfigDir rest fs1
      else remove_forbidden claudeConfigDir rest fs
  end.

Definition syncAction (pr : process) (fs : node) : outcome :=
  let claudeDir := Path.join (cwd pr) ".claude" in
  let claudeConfigDir := Path.join (Path.join (cwd pr) ".aios-core") "claude-config" in
  if negb (existsSync claudeDir fs) then Exit 1 fs
  else if negb (existsSync (Path.join (cwd pr) ".aios-core") fs) then Exit 1 fs
  else
    finish
      (fs3 <- ensureDir claudeConfigDir fs ;;
       fs4 <- sync_items claudeDir claudeConfigDir SYNC_ITEMS fs3 ;;
       remove_forbidden claudeConfigDir NEVER_SYNC fs4).

End Sync.

(** *** [cli/commands/install] *)

Module Install.
Section Install.
Context {E : Externals}.

Definition getPackageRoot (pr : process) : path :=
  Path.parent (Path.parent (Path.parent (dirname pr))).

Definition getPackageVersion (pr : process) (fs : node) : jsval :=
  let pkgPath := Path.join (getPackageRoot pr) "package.json" in
  match readFileSync pkgPath fs with
  | None => JStr "0.0.0"
  | Some text =>
      match json_parse text with
      | None => JStr "0.0.0"
      | Some pkg =>
          match js_get pkg "version" with
          | None => JStr "0.0.0"
          | Some v => js_or v (JStr "0.0.0")
          end
      end
  end.

Definition COPY_EXCLUDE : list string :=
  ["node_modules"; ".DS_Store"; "claude-config"; "package-lock.json"].

Definition copy_filter (packageRoot src : path) : bool :=
  let relative := Path.relative packageRoot src in
  match relative with
  | [] => true
  | topLevel :: _ => negb (includes COPY_EXCLUDE topLevel)
  end.

(** Step 4: fresh copy, forced overwrite, or merge without overwriting. *)
Definition setup_claude (opts : options) (packageRoot cwd : path) (fs : node)
    : option node :=
  let claudeConfigSrc := Path.join packageRoot "claude-config" in
  let claudeTarget := Path.join cwd ".claude" in
  if existsSync claudeConfigSrc fs then
    if negb (existsSync claudeTarget fs) then
      copy default_opts claudeConfigSrc claudeTarget fs
    else if force opts then
      copy default_opts claudeConfigSrc claudeTarget fs
    else
      copy {| filter := fun _ => true; overwrite := false; errorOnExist := false |}
           claudeConfigSrc claudeTarget fs
  else Some fs.

(** Step 5: [execSync] runs in a [try]; whatever npm did stays. *)
Definition install_deps (opts : options) (targetAiosCore : path) (fs : node)
    : node :=
  if negb (skipDeps opts) then npm_install targetAiosCore fs else fs.

(** Step 6. *)
Definition build_manifest (pr : process) (opts : options) (version : jsval)
    (packageRoot : path) : jsval :=
  JObj [("installed_at", JStr (clock pr 0));
        ("version", version);
        ("source", JStr (Path.abs_string packageRoot));
        ("force", JBool (force opts));
        ("skip_deps", JBool (skipDeps opts))].

Definition installAction (pr : process) (opts : options) (fs : node) : outcome :=
  let packageRoot := getPackageRoot pr in
  let version := getPackageVersion pr fs in
  let targetAiosCore := Path.join (cwd pr) ".aios-core" in
  if existsSync targetAiosCore fs && negb (force opts) then Exit 1 fs
  else if Path.eqb (cwd pr) packageRoot
          || Path.eqb (cwd pr) (Path.parent packageRoot) then Exit 1 fs
  else
    finish
      (fs3 <- copy {| filter := copy_filter packageRoot;
                      overwrite := force opts;
                      errorOnExist := false |}
                   packageRoot targetAiosCore fs ;;
       fs4 <- setup_claude opts packageRoot (cwd pr) fs3 ;;
       let fs5 := install_deps opts targetAiosCore fs4 in
       let manifestPath := Path.join targetAiosCore "install-manifest.yaml" in
       text <- yaml_dump (build_manifest pr opts version packageRoot) ;;
       writeFileSync manifestPath text fs5).

End Install.
End Install.

(** *** The CLI entry point, [cli/index] *)

Module Cli.
Section Cli.
Context {E : Externals}.

(** The module-level [packageVersion]: ['0.0.0'] unless reading and parsing
    [package.json] succeed, in which case it is [packageJson.version]. *)
Definition packageVersion (pr : process) (fs : node) : jsval :=
  let packageJsonPath := Path.join (Path.parent (dirname pr)) "package.json" in
  match readFileSync packageJsonPath fs with
  | None => JStr "0.0.0"
  | Some text =>
      match json_parse text with
      | None => JStr "0.0.0"
      | Some packageJson =>
          match js_get packageJson "version" with
          | None => JStr "0.0.0"
          | Some v => v
          end
      end
  end.

(** [createProgram]: [program.name(..).version(packageVersion)
    .description(..)].  Commander's [version(str)] returns the version it
    holds, not the program, when [str] is [undefined], so the chained
    [.description] throws a TypeError; with any other value the program is
    built.  The command modules are taken to load. *)
Definition createProgram (pr : process) (fs : node) : option unit :=
  match packageVersion pr fs with
  | JUndefined => None
  | _ => Some tt
  end.

(** The command line, as commander parses it. *)
Inductive command : Type :=
| CmdInstall (opts : options)
| CmdUpdate (opts : options)
| CmdSync.

(** The process as the module [./commands/<name>] sees it. *)
Definition command_process (pr : process) (name : string) : process :=
  {| cwd := cwd pr;
     dirname := Path.join (Path.join (dirname pr) "commands") name;
     clock := clock pr |}.

(** [run], called by [bin/aios-core.js] without a handler: [createProgram]
    runs outside the [try], so when it throws the promise of [run] is
    rejected and Node ends the process with status 1 before any action has
    run; a rejection of [parseAsync] is caught and turned into
    [process.exit(1)]. *)
Definition run (pr : process) (cmd : command) (fs : node) : outcome :=
  match createProgram pr fs with
  | None => Exit 1 fs
  | Some _ =>
      match cmd with
      | CmdInstall opts =>
          Install.installAction (command_process pr "install") opts fs
      | CmdUpdate opts =>
          Update.updateAction (command_process pr "update") opts fs
      | CmdSync => Sync.syncAction (command_process pr "sync") fs
      end
  end.

End Cli.
End Cli.

(** ** A concrete instance

    A small stand-in for the external libraries, and sample file systems,
    on which the commands can be run: a JSON reader for flat objects of
    strings written without blanks, and a YAML codec for flat mappings, one
    [key: value] line per key. *)

Module Demo.
Local Open Scope string_scope.

Definition dq : Ascii.ascii := Ascii.ascii_of_nat 34.
Definition nl : Ascii.ascii := Ascii.ascii_of_nat 10.

Fixpoint split_aux (sep : Ascii.ascii) (s acc : string) : list string :=
  match s with
  | EmptyString => [acc]
  | String c s' =>
      if Ascii.eqb c sep then acc :: split_aux sep s' ""
      else split_aux sep s' (acc ++ String c "")
  end.

Definition split (sep : Ascii.ascii) (s : string) : list string :=
  split_aux sep s "".

Fixpoint last_char (s : string) : option Ascii.ascii :=
  match s with
  | EmptyString => None
  | String c EmptyString => Some c
  | String _ s' => last_char s'
  end.

(** [s] without its first and last characters, when they are [a] and [b]. *)
Definition unwrap (a b : Ascii.ascii) (s : string) : option string :=
  match s with
  | String c s' =>
      match last_char s' with
      | Some c' =>
          if Ascii.eqb c a && Ascii.eqb c' b
          then Some (substring 0 (String.length s' - 1) s')
          else None
      | None => None
      end
  | EmptyString => None
  end.

Fixpoint json_members (parts : list string) : option (list (string * jsval)) :=
  match parts with
  | [] => Some []
  | part :: rest =>
      match split ":"%char part with
      | [k; v] =>
          k' <- unwrap dq dq k ;;
          v' <- unwrap dq dq v ;;
          ms <- json_members rest ;;
          Some ((k', JStr v') :: ms)
      | _ => None
      end
  end.

Definition demo_json_parse (text : string) : option jsval :=
  inner <- unwrap "{"%char "}"%char text ;;
  if inner =? "" then Some (JObj [])
  else ms <- json_members (split ","%char inner) ;; Some (JObj ms).

Definition yaml_line (line : string) : option (string * jsval) :=
  match index 0 ": " line with
  | Some n =>
      Some (substring 0 n line,
            JStr (substring (n + 2) (String.length line - (n + 2)) line))
  | None => None
  end.

Fixpoint yaml_lines (ls : list string) : option (list (string * jsval)) :=
  match ls with
  | [] => Some []
  | l :: rest =>
      if l =? "" then yaml_lines rest
      else kv <- yaml_line l ;; ms <- yaml_lines rest ;; Some (kv :: ms)
  end.

(** An empty document loads as [undefined], as with js-yaml. *)
Definition demo_yaml_load (text : string) : option jsval :=
  if text =? "" then Some JUndefined
  else ms <- yaml_lines (split nl text) ;; Some (JObj ms).

Definition yaml_scalar (v : jsval) : option string :=
  match v with
  | JStr s => Some s
  | JBool true => Some "true"
  | JBool false => Some "false"
  | _ => None
  end.

Fixpoint yaml_pairs (ps : list (string * jsval)) : option string :=
  match ps with
  | [] => Some ""
  | (k, v) :: rest =>
      s <- yaml_scalar v ;;
      t <- yaml_pairs rest ;;
      Some (k ++ ": " ++ s ++ String nl "" ++ t)
  end.

Definition demo_yaml_dump (v : jsval) : option string :=
  match v with
  | JObj ps => yaml_pairs ps
  | _ => None
  end.

(** npm leaves a [node_modules] directory behind. *)
Definition demo_npm_install (d : path) (fs : node) : node :=
  match mkdirs_node (Path.join d "node_modules") (Some fs) with
  | Some fs' => fs'
  | None => fs
  end.

Definition demo : Externals := {|
  json_parse := demo_json_parse;
  yaml_load := demo_yaml_load;
  yaml_dump := demo_yaml_dump;
  npm_install := demo_npm_install
|}.

(** The package lives in [/pkg], the project in [/proj]. *)
Definition update_pr (t0 t1 : string) : process := {|
  cwd := ["proj"];
  dirname := ["pkg"; "cli"; "commands"; "update"];
  clock := fun n => match n with O => t0 | _ => t1 end
|}.

Definition install_pr : process := {|
  cwd := ["proj"];
  dirname := ["pkg"; "cli"; "commands"; "install"];
  clock := fun _ => "2024-05-01T10:00:00.000Z"
|}.

Definition cli_pr : process := {|
  cwd := ["proj"];
  dirname := ["pkg"; "cli"];
  clock := fun _ => "2024-05-01T10:00:00.000Z"
|}.

Definition no_force : options := {| force := false; skipDeps := true |}.
Definition with_force : options := {| force := true; skipDeps := true |}.

Definition package_json (version : string) : string :=
  "{" ++ String dq "version" ++ String dq ":" ++ String dq version
      ++ String dq "}".

(** The package, version 1.2.0. *)
Definition pkg_tree (package_json_text : string) : node :=
  Dir [("package.json", File package_json_text);
       ("core-config.yaml", File "project: default");
       ("cli", Dir [("index.js", File "cli")]);
       ("claude-config",
        Dir [("commands", Dir [("build.md", File "build v2")]);
             ("rules", Dir [("style.md", File "style v2")]);
             ("CLAUDE.md", File "template");
             ("settings.json", File "{}")])].

Definition old_manifest : string :=
  "installed_at: 2024-01-01T00:00:00.000Z" ++ String nl
  ("version: 1.0.0" ++ String nl
  ("source: /pkg" ++ String nl "")).

(** A project installed at version 1.0.0 whose [CLAUDE.md] holds
    [claude_md]. *)
Definition installed_fs (manifest claude_md : string) : node :=
  Dir [("pkg", pkg_tree (package_json "1.2.0"));
       ("proj",
        Dir [(".aios-core",
              Dir [("core-config.yaml", File "project: mine");
                   ("install-manifest.yaml", File manifest)]);
             (".claude",
              Dir [("commands", Dir [("retired.md", File "retired")]);
                   ("CLAUDE.md", File claude_md);
                   ("settings.local.json", File "{}")])])].

(** The manifest an update to 1.2.0 writes over [old_manifest] when the
    clock reads [t]. *)
Definition new_manifest (t : string) : string :=
  "installed_at: 2024-01-01T00:00:00.000Z" ++ String nl
  ("updated_at: " ++ t ++ String nl
  ("version: 1.2.0" ++ String nl
  ("previous_version: 1.0.0" ++ String nl
  ("source: /pkg" ++ String nl "")))).

Definition manifest_path : path :=
  ["proj"; ".aios-core"; "install-manifest.yaml"].

(** The manifest a second update writes when the clock reads [t]. *)
Definition second_manifest (t : string) : string :=
  "installed_at: 2024-01-01T00:00:00.000Z" ++ String nl
  ("updated_at: " ++ t ++ String nl
  ("version: 1.2.0" ++ String nl
  ("previous_version: 1.2.0" ++ String nl
  ("source: /pkg" ++ String nl "")))).

(** A manifest that is not YAML: a flow mapping that is never closed. *)
Definition broken_manifest : string := "{".

Definition sync_pr : process := {|
  cwd := ["hub"];
  dirname := ["hub"; ".aios-core"; "cli"; "commands"; "sync"];
  clock := fun _ => "2024-05-01T10:00:00.000Z"
|}.

(** A hub whose distributable tree already holds a [settings.local.json]
    in a directory that [sync] does not visit. *)
Definition hub_with_stray_settings : node :=
  Dir [("hub",
        Dir [(".claude",
              Dir [("commands", Dir [("build.md", File "build");
                                     ("settings.local.json", File "{}")]);
                   ("settings.local.json", File "{}")]);
             (".aios-core",
              Dir [("claude-config",
                    Dir [("agents",
                          Dir [("settings.local.json", File "{}")])])])])].


(** A project without a framework directory, with and without a regular
    file where [.claude] goes. *)
Definition fresh_fs (project : list (string * node)) : node :=
  Dir [("pkg", pkg_tree (package_json "1.2.0")); ("proj", Dir project)].

(** Bytes that are Latin-1 and not UTF-8: [caf] and E9. *)
Definition latin1 : string := "caf" ++ String (Ascii.ascii_of_nat 233) "".

(** What a UTF-8 read and write makes of them: [caf] and EF BF BD. *)
Definition latin1_decoded : string :=
  "caf" ++ String (Ascii.ascii_of_nat 239)
             (String (Ascii.ascii_of_nat 191)
                (String (Ascii.ascii_of_nat 189) "")).

(** An installed project whose [core-config.yaml] and
    [settings.local.json] hold [config] and whose [CLAUDE.md] holds
    [claude_md]. *)
Definition project_with (config claude_md : string) : node :=
  Dir [("pkg", pkg_tree (package_json "1.2.0"));
       ("proj",
        Dir [(".aios-core",
              Dir [("core-config.yaml", File config);
                   ("install-manifest.yaml", File old_manifest)]);
             (".claude",
              Dir [("CLAUDE.md", File claude_md);
                   ("settings.local.json", File config)])])].




(** The clock of the sample runs of [update]. *)
Definition now_pr : process :=
  update_pr "2024-05-01T10:00:00.000Z" "2024-05-01T10:00:00.001Z".

(** The installed project of the sample runs, with a [CLAUDE.md] of its
    own. *)
Definition project : node := installed_fs old_manifest "custom notes".

(** A project whose framework directory and [.claude] are empty. *)
Definition bare_fs : node :=
  Dir [("pkg", pkg_tree (package_json "1.2.0"));
       ("proj", Dir [(".aios-core", Dir []); (".claude", Dir [])])].

(** A hub with a catalog, two files and local settings in [.claude], and a
    [rules] catalog that only [claude-config] has. *)
Definition hub : node :=
  Dir [("hub",
        Dir [(".claude",
              Dir [("commands", Dir [("build.md", File "build");
                                     (".DS_Store", File "")]);
                   ("CLAUDE.md", File "instructions");
                   ("settings.json", File "{}");
                   ("settings.local.json", File "{}")]);
             (".aios-core",
              Dir [("claude-config",
                    Dir [("commands", Dir [("gone.md", File "gone")]);
                         ("rules", Dir [("old.md", File "old")])])])])].

End Demo.

(** ** Predicates used in the statements *)

(** No entry of the tree, at any depth, has a name that [bad] rejects. *)
Fixpoint clean (bad : string -> bool) (n : node) : bool :=
  match n with
  | File _ => true
  | Dir es =>
      (fix go (es : entries_t) : bool :=
         match es with
         | [] => true
         | (k, v) :: es' => negb (bad k) && clean bad v && go es'
         end) es
  end.

Fixpoint clean_entries (bad : string -> bool) (es : entries_t) : bool :=
  match es with
  | [] => true
  | (k, v) :: es' => negb (bad k) && clean bad v && clean_entries bad es'
  end.

Fixpoint wf_entries (seen : list string) (es : entries_t) : bool :=
  match es with
  | [] => true
  | (k, v) :: es' =>
      negb (existsb (String.eqb k) seen) && wf v && wf_entries (k :: seen) es'
  end.

(** Induction on trees, with the hypothesis on every entry of a
    directory. *)
Fixpoint node_induction (P : node -> Prop)
    (HFile : forall c, P (File c))
    (HDir : forall es, Forall (fun e => P (snd e)) es -> P (Dir es))
    (n : node) {struct n} : P n :=
  match n with
  | File c => HFile c
  | Dir es =>
      HDir es
        ((fix go (es : entries_t) : Forall (fun e => P (snd e)) es :=
            match es with
            | [] => Forall_nil _
            | e :: es' => Forall_cons e (node_induction P HFile HDir (snd e)) (go es')
            end) es)
  end.

(** The text of the first run's manifest, read back from the file, loads
    with the fields the second run reads. *)
Definition loads_back {E : Externals} (manifest : jsval) : Prop :=
  forall text, yaml_dump manifest = Some text ->
    Utf8.decode text <> "" /\
    exists o, yaml_load (Utf8.decode text) = Some o /\
      js_get o "version" = js_get manifest "version" /\
      js_get o "installed_at" = js_get manifest "installed_at".

(** Every step of the way from [sp] down the relative path [r] passes the
    filter of a copy. *)
Fixpoint accepted (o : copy_opts) (sp : path) (r : path) : bool :=
  match r with
  | [] => true
  | x :: r' => filter o (sp ++ [x]) && accepted o (sp ++ [x]) r'
  end.

(** Whether a string holds the path separator. *)
Fixpoint has_slash (s : string) : bool :=
  match s with
  | EmptyString => false
  | String c s' => Ascii.eqb c "/"%char || has_slash s'
  end.

(** * Properties *)

(** ** Association lists *)

Section AlistFacts.
Context {A : Type}.
Implicit Types (l : list (string * A)) (k : string) (v : A).

Lemma lookup_put_same l k v : Alist.lookup k (Alist.put k v l) = Some v.
Proof.
  induction l as [|[k' v'] l IH]; simpl.
  - now rewrite String.eqb_refl.
  - destruct (k =? k') eqn:Hk; simpl.
    + now rewrite String.eqb_refl.
    + now rewrite Hk.
Qed.

Lemma lookup_put_other l k k' v :
  k' <> k -> Alist.lookup k' (Alist.put k v l) = Alist.lookup k' l.
Proof.
  intros Hne. induction l as [|[k0 v0] l IH]; simpl.
  - apply String.eqb_neq in Hne. now rewrite Hne.
  - destruct (k =? k0) eqn:Hk; simpl.
    + apply String.eqb_eq in Hk. subst k0.
      apply String.eqb_neq in Hne. now rewrite Hne.
    + destruct (k' =? k0); [reflexivity | exact IH].
Qed.

Lemma lookup_del_same l k : Alist.lookup k (Alist.del k l) = None.
Proof.
  induction l as [|[k0 v0] l IH]; simpl; [reflexivity|].
  destruct (k =? k0) eqn:Hk; simpl; [exact IH | now rewrite Hk].
Qed.

Lemma lookup_del_other l k k' :
  k' <> k -> Alist.lookup k' (Alist.del k l) = Alist.lookup k' l.
Proof.
  intros Hne. induction l as [|[k0 v0] l IH]; simpl; [reflexivity|].
  destruct (k =? k0) eqn:Hk; simpl.
  - apply String.eqb_eq in Hk. subst k0.
    apply String.eqb_neq in Hne. now rewrite Hne.
  - destruct (k' =? k0); [reflexivity | exact IH].
Qed.

Lemma lookup_In l k v : Alist.lookup k l = Some v -> In (k, v) l.
Proof.
  induction l as [|[k0 v0] l IH]; simpl; [discriminate|].
  destruct (k =? k0) eqn:Hk.
  - apply String.eqb_eq in Hk. intros [= ->]. left. now subst.
  - intros H. right. now apply IH.
Qed.

Lemma put_keys l k v :
  forall k', In k' (map fst (Alist.put k v l)) <-> k' = k \/ In k' (map fst l).
Proof.
  induction l as [|[k0 v0] l IH]; simpl; intros k'.
  - intuition.
  - destruct (k =? k0) eqn:Hk; simpl.
    + apply String.eqb_eq in Hk. subst k0. intuition.
    + rewrite IH. intuition.
Qed.

Lemma put_NoDup l k v : NoDup (map fst l) -> NoDup (map fst (Alist.put k v l)).
Proof.
  induction l as [|[k0 v0] l IH]; simpl; intros Hnd.
  - constructor; [intros [] | constructor].
  - inversion Hnd as [|? ? Hnot Hnd']; subst.
    destruct (k =? k0) eqn:Hk; simpl.
    + apply String.eqb_eq in Hk. subst k0. now constructor.
    + constructor; [|now apply IH].
      rewrite put_keys. intros [-> | Hin]; [|contradiction].
      now rewrite String.eqb_refl in Hk.
Qed.

End AlistFacts.

(** ** Paths *)

Lemma diverge_sym p q : Path.diverge p q = Path.diverge q p.
Proof.
  revert q. induction p as [|a p IH]; intros [|b q]; simpl; try reflexivity.
  rewrite (String.eqb_sym b a). destruct (a =? b); [apply IH | reflexivity].
Qed.

Lemma diverge_app_common c p q :
  Path.diverge (c ++ p) (c ++ q) = Path.diverge p q.
Proof.
  induction c as [|a c IH]; simpl; [reflexivity|].
  now rewrite String.eqb_refl.
Qed.

Lemma diverge_app_r p q r :
  Path.diverge p q = true -> Path.diverge p (q ++ r) = true.
Proof.
  revert q. induction p as [|a p IH]; intros [|b q]; simpl; try discriminate.
  destruct (a =? b); [apply IH | reflexivity].
Qed.

Lemma diverge_app_l p q r :
  Path.diverge p q = true -> Path.diverge (p ++ r) q = true.
Proof.
  intros H. rewrite diverge_sym. apply diverge_app_r. now rewrite diverge_sym.
Qed.

Lemma diverge_not_prefix p q :
  Path.diverge p q = true -> Path.prefixb q p = false.
Proof.
  revert q. induction p as [|a p IH]; intros [|b q]; simpl; try discriminate.
  rewrite (String.eqb_sym b a).
  destruct (a =? b); simpl; [apply IH | reflexivity].
Qed.

Lemma prefixb_removelast q p :
  Path.prefixb q (removelast p) = true -> Path.prefixb q p = true.
Proof.
  revert q. induction p as [|a p IH]; intros q; [exact (fun H => H)|].
  destruct p as [|a' p].
  - destruct q; simpl; [reflexivity | discriminate].
  - change (removelast (a :: a' :: p)) with (a :: removelast (a' :: p)).
    destruct q as [|b q]; [reflexivity|].
    cbn [Path.prefixb]. intros H. apply andb_true_iff in H as [-> H].
    simpl. now apply IH.
Qed.

Lemma prefixb_self_removelast p :
  p <> [] -> Path.prefixb p (removelast p) = false.
Proof.
  induction p as [|a p IH]; [congruence|]. intros _.
  destruct p as [|a' p]; [reflexivity|].
  change (removelast (a :: a' :: p)) with (a :: removelast (a' :: p)).
  cbn [Path.prefixb]. rewrite String.eqb_refl. simpl.
  apply IH. discriminate.
Qed.

Lemma prefixb_longer p x r : Path.prefixb (p ++ x :: r) p = false.
Proof.
  induction p as [|a p IH]; simpl; [reflexivity|].
  now rewrite String.eqb_refl.
Qed.


Lemma relative_app root r : Path.relative root (root ++ r) = r.
Proof.
  induction root as [|a root IH]; simpl.
  - now destruct r.
  - now rewrite String.eqb_refl.
Qed.

(** ** The file system: what an operation changes and what it leaves *)

Lemma get_None p : get p None = None.
Proof. now destruct p. Qed.

Lemma get_app p q o : get (p ++ q) o = get q (get p o).
Proof.
  revert o. induction p as [|x p IH]; intros o; simpl; [reflexivity|].
  destruct o as [[c|es]|]; try (now rewrite get_None). apply IH.
Qed.

(** After [alter p f], the node at [p] is what [f] returned. *)
Lemma get_alter_same p f o o' :
  alter p f o = Some o' -> f (get p o) = Some (get p o').
Proof.
  revert o o'. induction p as [|x p IH]; intros o o'; simpl.
  - now intros ->.
  - destruct o as [[c|es]|]; try discriminate.
    destruct (alter p f (Alist.lookup x es)) as [[c'|]|] eqn:Ha;
      try discriminate; intros [= <-]; apply IH in Ha; rewrite Ha; simpl.
    + now rewrite lookup_put_same.
    + now rewrite lookup_del_same.
Qed.

(** [alter p f] leaves alone every path that parts ways with [p]. *)
Lemma get_alter_diverge p f o o' q :
  alter p f o = Some o' -> Path.diverge p q = true -> get q o' = get q o.
Proof.
  revert o o' q. induction p as [|x p IH]; intros o o' [|y q]; simpl;
    try discriminate.
  destruct o as [[c|es]|]; try discriminate.
  destruct (x =? y) eqn:Hxy.
  - apply String.eqb_eq in Hxy. subst y.
    destruct (alter p f (Alist.lookup x es)) as [[c'|]|] eqn:Ha;
      try discriminate; intros [= <-] Hd.
    + rewrite lookup_put_same. exact (IH _ _ _ Ha Hd).
    + rewrite lookup_del_same. exact (IH _ _ _ Ha Hd).
  - apply String.eqb_neq in Hxy.
    destruct (alter p f (Alist.lookup x es)) as [[c'|]|] eqn:Ha;
      try discriminate; intros [= <-] _.
    + rewrite lookup_put_other by congruence. reflexivity.
    + rewrite lookup_del_other by congruence. reflexivity.
Qed.

Lemma alter_fs_same p f fs fs' :
  alter_fs p f fs = Some fs' ->
  f (get p (Some fs)) = Some (get p (Some fs')).
Proof.
  unfold alter_fs. destruct (alter p f (Some fs)) as [[n|]|] eqn:Ha;
    try discriminate. intros [= <-]. exact (get_alter_same _ _ _ _ Ha).
Qed.

Lemma alter_fs_diverge p f fs fs' q :
  alter_fs p f fs = Some fs' -> Path.diverge p q = true ->
  get q (Some fs') = get q (Some fs).
Proof.
  unfold alter_fs. destruct (alter p f (Some fs)) as [[n|]|] eqn:Ha;
    try discriminate. intros [= <-]. exact (get_alter_diverge _ _ _ _ _ Ha).
Qed.

(** [mkdir -p p] changes nothing at a path that is not on the way to
    [p]. *)
Lemma get_mkdirs p o n q :
  mkdirs_node p o = Some n -> Path.prefixb q p = false ->
  get q (Some n) = get q o.
Proof.
  revert o n q. induction p as [|x p IH]; intros o n q; simpl.
  - destruct q as [|y q]; [discriminate|]. intros H _.
    destruct o as [[c|es]|]; try discriminate; injection H as <-;
      simpl; rewrite ?get_None; reflexivity.
  - destruct q as [|y q]; [discriminate|]. cbn [Path.prefixb].
    destruct o as [[c|es]|]; try discriminate.
    + destruct (mkdirs_node p (Alist.lookup x es)) as [c|] eqn:Hm;
        try discriminate. intros [= <-] Hq. simpl.
      destruct (y =? x) eqn:Hyx.
      * apply String.eqb_eq in Hyx. subst y. rewrite lookup_put_same.
        exact (IH _ _ _ Hm Hq).
      * apply String.eqb_neq in Hyx. now rewrite lookup_put_other.
    + destruct (mkdirs_node p None) as [c|] eqn:Hm; try discriminate.
      intros [= <-] Hq. simpl.
      destruct (y =? x) eqn:Hyx; [|apply get_None].
      rewrite (IH _ _ _ Hm Hq). apply get_None.
Qed.

Lemma existsSync_get p fs :
  existsSync p fs = true <-> exists n, get p (Some fs) = Some n.
Proof.
  unfold existsSync. destruct (get p (Some fs)) as [n|].
  - split; [eauto | reflexivity].
  - split; [discriminate | intros [n H]; discriminate].
Qed.

Lemma existsSync_false p fs :
  existsSync p fs = false <-> get p (Some fs) = None.
Proof.
  unfold existsSync. destruct (get p (Some fs)); split; congruence.
Qed.

Lemma file_bytes_get p fs c :
  file_bytes p fs = Some c <-> get p (Some fs) = Some (File c).
Proof.
  unfold file_bytes. destruct (get p (Some fs)) as [[c'|es]|];
    split; congruence.
Qed.

Lemma file_bytes_exists p fs c :
  file_bytes p fs = Some c -> existsSync p fs = true.
Proof.
  rewrite file_bytes_get, existsSync_get. eauto.
Qed.

(** Reading decodes the bytes of the file. *)
Lemma readFileSync_bytes p fs c :
  file_bytes p fs = Some c -> readFileSync p fs = Some (Utf8.decode c).
Proof. unfold readFileSync. now intros ->. Qed.

Lemma readFileSync_inv p fs t :
  readFileSync p fs = Some t ->
  exists c, file_bytes p fs = Some c /\ t = Utf8.decode c.
Proof.
  unfold readFileSync. destruct (file_bytes p fs) as [c|]; [|discriminate].
  intros [= <-]. eauto.
Qed.

Lemma readFileSync_exists p fs t :
  readFileSync p fs = Some t -> existsSync p fs = true.
Proof.
  intros H. apply readFileSync_inv in H as (c & Hc & _).
  exact (file_bytes_exists _ _ _ Hc).
Qed.

Lemma readFileSync_ext p fs fs' :
  get p (Some fs') = get p (Some fs) -> readFileSync p fs' = readFileSync p fs.
Proof. unfold readFileSync, file_bytes. now intros ->. Qed.

Lemma decode_empty : Utf8.decode "" = "".
Proof. reflexivity. Qed.

Lemma append_nonempty (s : string) c t : (s ++ String c t)%string <> "".
Proof. destruct s; discriminate. Qed.

Lemma replacement_nonempty t : (Utf8.replacement ++ t)%string <> "".
Proof. discriminate. Qed.

(** An open sequence always yields something: its bytes or U+FFFD. *)
Lemma decode_from_open s : forall n lo hi pending,
  Utf8.decode_from (S n) lo hi pending s <> "".
Proof.
  induction s as [|c s IH]; intros n lo hi pending; [discriminate|].
  cbn [Utf8.decode_from].
  destruct (Utf8.between lo hi (N_of_ascii c)).
  - destruct n as [|n]; [apply append_nonempty | apply IH].
  - apply replacement_nonempty.
Qed.

(** Only the empty file reads as the empty string. *)
Lemma decode_nonempty c : Utf8.decode c = "" -> c = "".
Proof.
  destruct c as [|a s]; [reflexivity|]. unfold Utf8.decode.
  cbn [Utf8.decode_from]. unfold Utf8.classify.
  destruct (N_of_ascii a <=? 127)%N; [discriminate|].
  destruct (Utf8.between 194 223 (N_of_ascii a));
    [intros H; now apply decode_from_open in H|].
  destruct (Utf8.between 224 239 (N_of_ascii a));
    [intros H; now apply decode_from_open in H|].
  destruct (Utf8.between 240 244 (N_of_ascii a));
    [intros H; now apply decode_from_open in H|].
  intros H. now apply replacement_nonempty in H.
Qed.

Lemma existsSync_parent p x fs :
  existsSync (p ++ [x]) fs = true -> existsSync p fs = true.
Proof.
  rewrite !existsSync_get, get_app. intros [n H].
  destruct (get p (Some fs)) as [m|]; [eauto | discriminate].
Qed.

Lemma writeFileSync_same p c fs fs' :
  writeFileSync p c fs = Some fs' -> file_bytes p fs' = Some c.
Proof.
  intros H. apply alter_fs_same in H. apply file_bytes_get.
  destruct (get p (Some fs)) as [[c'|es]|]; congruence.
Qed.

Lemma writeFileSync_frame p c fs fs' q :
  writeFileSync p c fs = Some fs' -> Path.diverge p q = true ->
  get q (Some fs') = get q (Some fs).
Proof. apply alter_fs_diverge. Qed.

Lemma remove_same p fs fs' :
  remove p fs = Some fs' -> get p (Some fs') = None.
Proof.
  unfold remove. destruct (existsSync p fs) eqn:He.
  - intros H. apply alter_fs_same in H. congruence.
  - intros [= <-]. now apply existsSync_false.
Qed.

Lemma remove_frame p fs fs' q :
  remove p fs = Some fs' -> Path.diverge p q = true ->
  get q (Some fs') = get q (Some fs).
Proof.
  unfold remove. destruct (existsSync p fs).
  - apply alter_fs_diverge.
  - now intros [= <-].
Qed.

(** The node a copy leaves at its destination. *)
Lemma copy_same o src dest fs fs' :
  copy o src dest fs = Some fs' -> filter o src = true ->
  exists s, get src (Some fs) = Some s /\
    copy_node o src s (get dest (Some fs)) = get dest (Some fs').
Proof.
  unfold copy. destruct (get src (Some fs)) as [s|] eqn:Hs; [|discriminate].
  destruct (Path.eqb src dest); [discriminate|].
  destruct (is_dir (Some s) && is_file (get dest (Some fs)));
    [discriminate|].
  destruct (is_file (Some s) && is_dir (get dest (Some fs)));
    [discriminate|].
  destruct (is_dir (Some s) && Path.prefixb src dest); [discriminate|].
  intros H Hf. rewrite Hf in H. simpl in H. exists s. split; [reflexivity|].
  destruct (existsSync (Path.parent dest) fs) eqn:He.
  - apply alter_fs_same in H.
    destruct (copy_node o src s (get dest (Some fs))); simpl in H; congruence.
  - destruct (mkdirs_node (Path.parent dest) (Some fs)) as [fs1|] eqn:Hm;
      [|discriminate].
    assert (Hd : get dest (Some fs1) = get dest (Some fs)).
    { apply (get_mkdirs _ _ _ _ Hm). apply prefixb_self_removelast.
      intros ->. discriminate He. }
    apply alter_fs_same in H. rewrite Hd in H.
    destruct (copy_node o src s (get dest (Some fs))); simpl in H; congruence.
Qed.

(** A copy changes nothing outside its destination. *)
Lemma copy_frame o src dest fs fs' q :
  copy o src dest fs = Some fs' -> Path.diverge dest q = true ->
  get q (Some fs') = get q (Some fs).
Proof.
  unfold copy. destruct (get src (Some fs)) as [s|]; [|discriminate].
  destruct (Path.eqb src dest); [discriminate|].
  destruct (is_dir (Some s) && is_file (get dest (Some fs)));
    [discriminate|].
  destruct (is_file (Some s) && is_dir (get dest (Some fs)));
    [discriminate|].
  destruct (is_dir (Some s) && Path.prefixb src dest); [discriminate|].
  destruct (negb (filter o src)); [now intros [= <-]|].
  intros H Hd.
  destruct (existsSync (Path.parent dest) fs).
  - exact (alter_fs_diverge _ _ _ _ _ H Hd).
  - destruct (mkdirs_node (Path.parent dest) (Some fs)) as [fs1|] eqn:Hm;
      [|discriminate].
    rewrite (alter_fs_diverge _ _ _ _ _ H Hd).
    apply (get_mkdirs _ _ _ _ Hm).
    destruct (Path.prefixb q (Path.parent dest)) eqn:Hp; [|reflexivity].
    apply prefixb_removelast in Hp.
    apply diverge_not_prefix in Hd. congruence.
Qed.

(** ** Copying into a place where nothing is *)

Lemma copy_node_Dir o sp es d :
  copy_node o sp (Dir es) d =
  match d with
  | Some (File _) => None
  | Some (Dir des) => option_map Dir (copy_items o sp es des)
  | None => option_map Dir (copy_items o sp es [])
  end.
Proof.
  destruct d as [[c|des]|]; simpl; try reflexivity; f_equal.
  - generalize des. induction es as [|[x c] es IH]; intros des'; simpl;
      [reflexivity|].
    destruct (filter o (sp ++ [x])); [|apply IH].
    destruct (copy_node o (sp ++ [x]) c (Alist.lookup x des'));
      [apply IH | reflexivity].
  - generalize (@nil (string * node)).
    induction es as [|[x c] es IH]; intros des'; simpl; [reflexivity|].
    destruct (filter o (sp ++ [x])); [|apply IH].
    destruct (copy_node o (sp ++ [x]) c (Alist.lookup x des'));
      [apply IH | reflexivity].
Qed.

Lemma wf_Dir es : wf (Dir es) = wf_entries [] es.
Proof.
  simpl. generalize (@nil string).
  induction es as [|[k v] es IH]; intros seen; simpl; [reflexivity|].
  now rewrite IH.
Qed.

Lemma clean_Dir bad es : clean bad (Dir es) = clean_entries bad es.
Proof.
  simpl. induction es as [|[k v] es IH]; simpl; [reflexivity|].
  now rewrite IH.
Qed.

Lemma lookup_fresh {A : Type} k (l : list (string * A)) :
  ~ In k (map fst l) -> Alist.lookup k l = None.
Proof.
  induction l as [|[k0 v0] l IH]; simpl; [reflexivity|]. intros H.
  destruct (k =? k0) eqn:Hk.
  - apply String.eqb_eq in Hk. subst. tauto.
  - apply IH. tauto.
Qed.

Lemma put_fresh {A : Type} k (v : A) l :
  ~ In k (map fst l) -> Alist.put k v l = l ++ [(k, v)].
Proof.
  induction l as [|[k0 v0] l IH]; simpl; [reflexivity|]. intros H.
  destruct (k =? k0) eqn:Hk.
  - apply String.eqb_eq in Hk. subst. tauto.
  - rewrite IH; tauto.
Qed.

Lemma existsb_eqb_false k seen :
  existsb (String.eqb k) seen = false -> ~ In k seen.
Proof.
  intros H Hin. assert (existsb (String.eqb k) seen = true); [|congruence].
  apply existsb_exists. exists k. split; [exact Hin | apply String.eqb_refl].
Qed.

Lemma copy_items_fresh sp es :
  Forall (fun e => wf (snd e) = true ->
            forall sp', copy_node default_opts sp' (snd e) None = Some (snd e))
         es ->
  forall seen des,
    wf_entries seen es = true ->
    (forall k, In k (map fst des) -> In k seen) ->
    copy_items default_opts sp es des = Some (des ++ es).
Proof.
  induction 1 as [|[x c] es Hc _ IH]; intros seen des Hwf Hseen; simpl.
  - now rewrite app_nil_r.
  - simpl in Hwf. apply andb_true_iff in Hwf as [Hwf Hes].
    apply andb_true_iff in Hwf as [Hx Hwc].
    apply negb_true_iff, existsb_eqb_false in Hx.
    assert (Hfresh : ~ In x (map fst des)) by (intros Hin; auto).
    rewrite (lookup_fresh _ _ Hfresh). simpl in Hc. rewrite (Hc Hwc).
    rewrite (put_fresh _ _ _ Hfresh).
    rewrite (IH (x :: seen) (des ++ [(x, c)]) Hes).
    + now rewrite <- app_assoc.
    + intros k Hk. rewrite map_app, in_app_iff in Hk. simpl in *.
      destruct Hk as [Hk | [<- | []]]; auto.
Qed.

(** With the default options, the copy of a tree to a place where nothing
    is leaves the same tree there. *)
Lemma copy_node_fresh s :
  wf s = true -> forall sp, copy_node default_opts sp s None = Some s.
Proof.
  induction s as [c | es IH] using node_induction; intros Hwf sp.
  - reflexivity.
  - rewrite copy_node_Dir. rewrite wf_Dir in Hwf.
    rewrite (copy_items_fresh sp es IH [] [] Hwf); [reflexivity|].
    intros k [].
Qed.

(** ** When the file operations succeed *)















(** ** Filtered copies *)

Section Clean.
Variable bad : string -> bool.

Lemma clean_entries_lookup es x c :
  clean_entries bad es = true -> Alist.lookup x es = Some c ->
  clean bad c = true.
Proof.
  induction es as [|[k v] es IH]; simpl; [discriminate|].
  intros H. apply andb_true_iff in H as [H Hes].
  apply andb_true_iff in H as [_ Hv].
  destruct (x =? k); [now intros [= <-] | now apply IH].
Qed.

Lemma clean_entries_lookup_bad es x :
  clean_entries bad es = true -> bad x = true -> Alist.lookup x es = None.
Proof.
  induction es as [|[k v] es IH]; simpl; [reflexivity|].
  intros H Hx. apply andb_true_iff in H as [H Hes].
  apply andb_true_iff in H as [Hk _]. apply negb_true_iff in Hk.
  destruct (x =? k) eqn:Hxk; [|now apply IH].
  apply String.eqb_eq in Hxk. congruence.
Qed.

Lemma clean_entries_put es x c :
  clean_entries bad es = true -> bad x = false -> clean bad c = true ->
  clean_entries bad (Alist.put x c es) = true.
Proof.
  intros Hes Hx Hc. induction es as [|[k v] es IH]; simpl.
  - now rewrite Hx, Hc.
  - simpl in Hes. apply andb_true_iff in Hes as [H Hes].
    apply andb_true_iff in H as [Hk Hv].
    destruct (x =? k); simpl.
    + now rewrite Hx, Hc, Hes.
    + now rewrite Hk, Hv, IH.
Qed.

Lemma basename_join sp x : Path.basename (sp ++ [x]) = x.
Proof. unfold Path.basename. apply last_last. Qed.

Lemma copy_items_clean o sp es :
  (forall p, filter o p = true -> bad (Path.basename p) = false) ->
  Forall (fun e => forall sp' d n,
            (forall d', d = Some d' -> clean bad d' = true) ->
            copy_node o sp' (snd e) d = Some n -> clean bad n = true) es ->
  forall des res,
    clean_entries bad des = true ->
    copy_items o sp es des = Some res ->
    clean_entries bad res = true.
Proof.
  intros Hf. induction 1 as [|[x c] es Hc _ IH]; intros des res Hdes; simpl.
  - now intros [= <-].
  - destruct (filter o (sp ++ [x])) eqn:Hfx; [|now apply IH].
    destruct (copy_node o (sp ++ [x]) c (Alist.lookup x des)) as [c'|] eqn:Hcp;
      [|discriminate].
    apply IH. apply clean_entries_put; [exact Hdes | |].
    + rewrite <- (basename_join sp x). now apply Hf.
    + apply (Hc _ _ _ (fun d' Hd' => clean_entries_lookup _ _ _ Hdes Hd') Hcp).
Qed.

(** Whatever a filtered copy leaves at a clean destination is clean. *)
Lemma copy_node_clean o s :
  (forall p, filter o p = true -> bad (Path.basename p) = false) ->
  forall sp d n,
    (forall d', d = Some d' -> clean bad d' = true) ->
    copy_node o sp s d = Some n -> clean bad n = true.
Proof.
  intros Hf. induction s as [c | es IH] using node_induction;
    intros sp d n Hd.
  - simpl. destruct d as [[c'|des]|]; try discriminate.
    + destruct (overwrite o); [now intros [= <-]|].
      destruct (errorOnExist o); [discriminate | now intros [= <-]].
    + now intros [= <-].
  - rewrite copy_node_Dir. destruct d as [[c'|des]|]; try discriminate.
    + destruct (copy_items o sp es des) as [res|] eqn:Hci; [|discriminate].
      intros [= <-]. rewrite clean_Dir.
      apply (copy_items_clean o sp es Hf IH des res); [|exact Hci].
      rewrite <- clean_Dir. now apply Hd.
    + destruct (copy_items o sp es []) as [res|] eqn:Hci; [|discriminate].
      intros [= <-]. rewrite clean_Dir.
      now apply (copy_items_clean o sp es Hf IH [] res).
Qed.

(** Below a clean tree no path has a rejected name. *)
Lemma clean_get r :
  forall o k, (forall n, o = Some n -> clean bad n = true) ->
  In k r -> bad k = true -> get r o = None.
Proof.
  induction r as [|x r IH]; intros o k Ho []; intros Hk; simpl.
  - subst x. destruct o as [[c|es]|]; try reflexivity.
    specialize (Ho _ eq_refl). rewrite clean_Dir in Ho.
    rewrite (clean_entries_lookup_bad _ _ Ho Hk). apply get_None.
  - destruct o as [[c|es]|]; try reflexivity.
    specialize (Ho _ eq_refl). rewrite clean_Dir in Ho.
    apply (IH _ k); [|assumption..].
    intros n Hn. exact (clean_entries_lookup _ _ _ Ho Hn).
Qed.

End Clean.

(** ** Sequenced operations *)

Lemma bind_Some {A B : Type} (c : option A) (k : A -> option B) b :
  bind c k = Some b -> exists a, c = Some a /\ k a = Some b.
Proof. destruct c as [a|]; simpl; [eauto | discriminate]. Qed.

Tactic Notation "bind_inv" hyp(H) "as" ident(a) ident(Ha) :=
  apply bind_Some in H; destruct H as (a & Ha & H).

Lemma finish_Done r fs : finish r = Done fs <-> r = Some fs.
Proof. destruct r; simpl; split; congruence. Qed.

Lemma diverge_join t a b :
  a <> b -> Path.diverge (Path.join t a) (Path.join t b) = true.
Proof.
  intros H. unfold Path.join. rewrite diverge_app_common. simpl.
  apply String.eqb_neq in H. now rewrite H.
Qed.

Lemma prefixb_app p r : Path.prefixb p (p ++ r) = true.
Proof.
  induction p as [|a p IH]; simpl; [reflexivity|].
  now rewrite String.eqb_refl.
Qed.

Lemma prefixb_app_common c p q :
  Path.prefixb (c ++ p) (c ++ q) = Path.prefixb p q.
Proof.
  induction c as [|a c IH]; simpl; [reflexivity|].
  now rewrite String.eqb_refl.
Qed.

(** Paths below two directories that part ways part ways. *)
Lemma diverge_mono a b p q :
  Path.diverge a b = true ->
  Path.prefixb a p = true -> Path.prefixb b q = true ->
  Path.diverge p q = true.
Proof.
  revert b p q. induction a as [|x a IH]; intros [|y b] p q; simpl;
    try discriminate.
  destruct p as [|x' p]; [discriminate|].
  destruct q as [|y' q]; [discriminate|]. simpl.
  intros Hd Hp Hq.
  apply andb_true_iff in Hp as [Hx Hp]. apply andb_true_iff in Hq as [Hy Hq].
  apply String.eqb_eq in Hx, Hy. subst x' y'.
  destruct (x =? y); [exact (IH _ _ _ Hd Hp Hq) | reflexivity].
Qed.

Ltac prefix_solve :=
  unfold Path.join; repeat rewrite <- app_assoc; simpl app;
  first [ apply prefixb_app
        | rewrite prefixb_app_common; reflexivity ].

(** Discharges the side conditions on paths: two paths with a common stem
    and different names after it, or two paths below directories assumed to
    part ways. *)
Ltac paths :=
  first
    [ assumption
    | apply diverge_join; discriminate
    | match goal with
      | H : Path.diverge ?a ?b = true |- Path.diverge _ _ = true =>
          apply (diverge_mono a b); [exact H | prefix_solve | prefix_solve]
      | H : Path.diverge ?a ?b = true |- Path.diverge _ _ = true =>
          rewrite diverge_sym;
          apply (diverge_mono a b); [exact H | prefix_solve | prefix_solve]
      end
    | unfold Path.join; repeat rewrite <- app_assoc; simpl app;
      rewrite diverge_app_common; reflexivity ].

(** ** The update command: snapshot and restore *)

Section UpdateFacts.
Context {E : Externals}.

Lemma includes_cons c cs f : includes (c :: cs) f = (f =? c) || includes cs f.
Proof. reflexivity. Qed.

(** The filter of step 4 keeps the excluded top-level items out, and the
    local configuration files unless [--force] is given. *)
Lemma copy_filter_excluded force root x r :
  In x Update.COPY_EXCLUDE ->
  Update.copy_filter force root (root ++ x :: r) = false.
Proof.
  intros Hin. unfold Update.copy_filter. rewrite relative_app.
  assert (H : includes Update.COPY_EXCLUDE x = true).
  { unfold includes. apply existsb_exists. exists x.
    split; [exact Hin | apply String.eqb_refl]. }
  now rewrite H.
Qed.

Lemma copy_filter_local_config root f :
  In f Update.LOCAL_CONFIGS ->
  Update.copy_filter false root (root ++ [f]) = false /\
  Update.copy_filter true root (root ++ [f]) = true.
Proof.
  intros Hin. unfold Update.copy_filter. rewrite relative_app.
  simpl in Hin. destruct Hin as [<- | [<- | [<- | []]]]; split; reflexivity.
Qed.

(** The snapshot holds what reading gives for exactly the listed files
    that exist: their bytes, decoded. *)
Lemma backup_configs_lookup t cs fs acc b :
  Update.backup_configs t cs fs acc = Some b ->
  forall f, Alist.lookup f b =
    if includes cs f && existsSync (Path.join t f) fs
    then readFileSync (Path.join t f) fs
    else Alist.lookup f acc.
Proof.
  revert acc. induction cs as [|c cs IH]; intros acc;
    cbn [Update.backup_configs].
  - now intros [= <-] f.
  - destruct (existsSync (Path.join t c) fs) eqn:He.
    + intros H. bind_inv H as content Hstep.
      intros f. rewrite (IH _ H f), includes_cons.
      destruct (f =? c) eqn:Hf.
      * apply String.eqb_eq in Hf. subst f. rewrite He.
        rewrite lookup_put_same, Hstep. cbn [orb andb].
        now destruct (includes cs c && true).
      * cbn [orb]. apply String.eqb_neq in Hf.
        now rewrite lookup_put_other.
    + intros H f. rewrite (IH _ H f), includes_cons.
      destruct (f =? c) eqn:Hf; [|reflexivity].
      apply String.eqb_eq in Hf. subst f. rewrite He.
      now rewrite !andb_false_r.
Qed.

Lemma backup_configs_NoDup t cs fs acc b :
  Update.backup_configs t cs fs acc = Some b ->
  NoDup (map fst acc) -> NoDup (map fst b).
Proof.
  revert acc. induction cs as [|c cs IH]; intros acc; simpl.
  - now intros [= <-].
  - destruct (existsSync (Path.join t c) fs).
    + intros H Hnd. bind_inv H as fs1 Hstep. apply (IH _ H). now apply put_NoDup.
    + apply IH.
Qed.

(** The restore loop writes inside [t] only, at the names of the
    snapshot. *)
Lemma restore_configs_frame t b fs fs' q :
  Update.restore_configs t b fs = Some fs' ->
  (forall f, In f (map fst b) -> Path.diverge (Path.join t f) q = true) ->
  get q (Some fs') = get q (Some fs).
Proof.
  revert fs. induction b as [|[f0 c0] b IH]; intros fs; simpl.
  - now intros [= <-].
  - intros H Hq. bind_inv H as fs1 Hstep. rewrite (IH _ H) by auto.
    apply (writeFileSync_frame _ _ _ _ _ Hstep). auto.
Qed.

(** After the restore loop every file of the snapshot holds its snapshot
    contents. *)
Lemma restore_configs_same t b fs fs' :
  Update.restore_configs t b fs = Some fs' ->
  NoDup (map fst b) ->
  forall f c, In (f, c) b -> file_bytes (Path.join t f) fs' = Some c.
Proof.
  revert fs. induction b as [|[f0 c0] b IH]; intros fs; simpl.
  - intros _ _ f c [].
  - intros H Hnd f c Hin. bind_inv H as fs1 Hstep.
    inversion Hnd as [|? ? Hnot Hnd']; subst.
    destruct Hin as [[= -> ->] | Hin]; [|exact (IH _ H Hnd' f c Hin)].
    apply file_bytes_get.
    rewrite (restore_configs_frame _ _ _ _ _ H).
    + apply file_bytes_get. exact (writeFileSync_same _ _ _ _ Hstep).
    + intros f' Hf'. apply diverge_join. intros ->. contradiction.
Qed.

Lemma restore_settingsLocal_frame p backup fs fs' q :
  Update.restore_settingsLocal p backup fs = Some fs' ->
  Path.diverge p q = true ->
  get q (Some fs') = get q (Some fs).
Proof.
  unfold Update.restore_settingsLocal. destruct backup as [c|].
  - destruct (truthy_text (Some c)).
    + apply writeFileSync_frame.
    + now intros [= <-].
  - now intros [= <-].
Qed.

(** Steps 3 to 6 leave every local configuration file that existed with
    the contents of its snapshot: its bytes, decoded. *)
Lemma sync_and_restore_keeps pr opts fs b fs6 :
  Update.sync_and_restore pr opts fs = Some (b, fs6) ->
  Update.backup_configs (Path.join (cwd pr) ".aios-core")
    Update.LOCAL_CONFIGS fs [] = Some b /\
  forall f c, In f Update.LOCAL_CONFIGS ->
    file_bytes (Path.join (Path.join (cwd pr) ".aios-core") f) fs = Some c ->
    file_bytes (Path.join (Path.join (cwd pr) ".aios-core") f) fs6
      = Some (Utf8.decode c).
Proof.
  unfold Update.sync_and_restore. intros H.
  bind_inv H as backups Hb.
  bind_inv H as claudeMdBackup Hc.
  bind_inv H as settingsLocalBackup Hs.
  bind_inv H as fs4 H4.
  bind_inv H as fs5 H5.
  bind_inv H as fs6a H6.
  bind_inv H as fs6b H6'.
  injection H as <- <-. split; [exact Hb|].
  intros f c Hin Hread.
  apply file_bytes_get.
  rewrite (restore_settingsLocal_frame _ _ _ _ _ H6').
  - apply file_bytes_get.
    apply (restore_configs_same _ _ _ _ H6).
    + apply (backup_configs_NoDup _ _ _ _ _ Hb). constructor.
    + apply lookup_In. rewrite (backup_configs_lookup _ _ _ _ _ Hb).
      assert (Hinc : includes Update.LOCAL_CONFIGS f = true).
      { unfold includes. apply existsb_exists. exists f. split; [exact Hin|].
        apply String.eqb_refl. }
      rewrite Hinc, (file_bytes_exists _ _ _ Hread).
      exact (readFileSync_bytes _ _ _ Hread).
  - paths.
Qed.

Lemma updateAction_Done pr opts fs fs' :
  Update.updateAction pr opts fs = Done fs' ->
  existsSync (Path.join (cwd pr) ".aios-core") fs = true /\
  exists b fs6,
    Update.sync_and_restore pr opts fs = Some (b, fs6) /\
    Update.write_manifest pr
      (Path.join (Path.join (cwd pr) ".aios-core") "install-manifest.yaml") b
      (Update.getPackageVersion pr fs)
      (Update.read_currentVersion
         (Path.join (Path.join (cwd pr) ".aios-core") "install-manifest.yaml")
         fs)
      (Update.getPackageRoot pr) fs6 = Some fs'.
Proof.
  unfold Update.updateAction.
  destruct (existsSync (Path.join (cwd pr) ".aios-core") fs); simpl;
    [|discriminate].
  intros H. apply finish_Done in H. split; [reflexivity|].
  bind_inv H as r Hstep. destruct r as [b fs6]. eauto.
Qed.

Lemma write_manifest_inv pr mp b v cv root fs6 fs' :
  Update.write_manifest pr mp b v cv root fs6 = Some fs' ->
  exists manifest text,
    Update.build_manifest pr b v cv root = Some manifest /\
    yaml_dump manifest = Some text /\
    writeFileSync mp text fs6 = Some fs'.
Proof.
  unfold Update.write_manifest. intros H.
  bind_inv H as manifest Hm.
  bind_inv H as text Ht. eauto.
Qed.


(** C1, as amended.  Whenever [update] completes, with or without
    [--force]: [core-config.yaml] and [local-config.yaml], when present
    before, hold afterwards what the snapshot held, that is their bytes
    decoded as UTF-8 and encoded again, hence the same bytes when the file
    is well-formed UTF-8; and each of the three local configuration files
    present before is in the snapshot, decoded, and holds its snapshot
    contents when the restore step is over.  (The last of them,
    [install-manifest.yaml], is then rewritten by step 7.) *)
Theorem update_keeps_local_configs pr opts fs fs' :
  Update.updateAction pr opts fs = Done fs' ->
  let target := Path.join (cwd pr) ".aios-core" in
  (forall f c, In f ["core-config.yaml"; "local-config.yaml"] ->
     file_bytes (Path.join target f) fs = Some c ->
     file_bytes (Path.join target f) fs' = Some (Utf8.decode c) /\
     (Utf8.decode c = c -> file_bytes (Path.join target f) fs' = Some c)) /\
  exists backups fs6,
    Update.sync_and_restore pr opts fs = Some (backups, fs6) /\
    forall f c, In f Update.LOCAL_CONFIGS ->
      file_bytes (Path.join target f) fs = Some c ->
      Alist.lookup f backups = Some (Utf8.decode c) /\
      file_bytes (Path.join target f) fs6 = Some (Utf8.decode c).
Proof.
  intros H target.
  apply updateAction_Done in H as (_ & b & fs6 & Hsr & Hw).
  apply write_manifest_inv in Hw as (manifest & text & Hm & Hd & Hw).
  destruct (sync_and_restore_keeps _ _ _ _ _ Hsr) as [Hb Hkeep].
  split.
  - intros f c Hin Hread.
    assert (Hf : file_bytes (Path.join target f) fs' = Some (Utf8.decode c)).
    { apply file_bytes_get.
      rewrite (writeFileSync_frame _ _ _ _ _ Hw).
      + apply file_bytes_get. apply Hkeep; [|exact Hread].
        simpl in *. tauto.
      + apply diverge_join. simpl in Hin.
        destruct Hin as [<- | [<- | []]]; discriminate. }
    split; [exact Hf | now intros <-].
  - exists b, fs6. split; [exact Hsr|]. intros f c Hin Hread. split.
    + rewrite (backup_configs_lookup _ _ _ _ _ Hb).
      assert (Hinc : includes Update.LOCAL_CONFIGS f = true).
      { unfold includes. apply existsb_exists. exists f. split; [exact Hin|].
        apply String.eqb_refl. }
      fold target. rewrite Hinc, (file_bytes_exists _ _ _ Hread).
      exact (readFileSync_bytes _ _ _ Hread).
    + now apply Hkeep.
Qed.

End UpdateFacts.

(** C1, the runs that refute the claim as stated.  An update of a project
    installed at 1.0.0 completes and [install-manifest.yaml], a local
    configuration file present before, does not hold its former contents.
    An update of a project whose [core-config.yaml] is Latin-1 completes
    and the file does not hold its former bytes: E9 has become
    EF BF BD. *)
Lemma update_changes_local_configs :
  (file_bytes Demo.manifest_path (Demo.installed_fs Demo.old_manifest "custom")
     = Some Demo.old_manifest /\
   exists fs',
     @Update.updateAction Demo.demo
       (Demo.update_pr "2024-05-01T10:00:00.000Z" "2024-05-01T10:00:00.001Z")
       Demo.no_force (Demo.installed_fs Demo.old_manifest "custom") = Done fs' /\
     file_bytes Demo.manifest_path fs'
       = Some (Demo.new_manifest "2024-05-01T10:00:00.000Z") /\
     Demo.new_manifest "2024-05-01T10:00:00.000Z" <> Demo.old_manifest) /\
  (file_bytes ["proj"; ".aios-core"; "core-config.yaml"]
     (Demo.project_with Demo.latin1 "custom") = Some Demo.latin1 /\
   exists fs',
     @Update.updateAction Demo.demo
       (Demo.update_pr "2024-05-01T10:00:00.000Z" "2024-05-01T10:00:00.001Z")
       Demo.no_force (Demo.project_with Demo.latin1 "custom") = Done fs' /\
     file_bytes ["proj"; ".aios-core"; "core-config.yaml"] fs'
       = Some Demo.latin1_decoded /\
     Demo.latin1_decoded <> Demo.latin1).
Proof.
  split.
  - split; [reflexivity|]. eexists. split; [vm_compute; reflexivity|].
    split; [reflexivity | discriminate].
  - split; [reflexivity|]. eexists. split; [vm_compute; reflexivity|].
    split; [reflexivity | discriminate].
Qed.

(** C1: a run on which the amended statement applies; the file is ASCII
    and keeps its bytes. *)
Lemma update_keeps_local_configs_witness :
  exists fs',
    @Update.updateAction Demo.demo
      (Demo.update_pr "2024-05-01T10:00:00.000Z" "2024-05-01T10:00:00.001Z")
      Demo.with_force (Demo.installed_fs Demo.old_manifest "custom") = Done fs' /\
    file_bytes ["proj"; ".aios-core"; "core-config.yaml"] fs'
      = Some "project: mine".
Proof.
  eexists. split; [vm_compute; reflexivity|].
  refine (proj2 (proj1 (@update_keeps_local_configs Demo.demo
            (Demo.update_pr "2024-05-01T10:00:00.000Z" "2024-05-01T10:00:00.001Z")
            Demo.with_force (Demo.installed_fs Demo.old_manifest "custom") _ _)
          "core-config.yaml" "project: mine" _ _) _).
  - vm_compute. reflexivity.
  - simpl. tauto.
  - reflexivity.
  - reflexivity.
Defined.



(** ** The update command: what each step writes *)

Section UpdateSteps.
Context {E : Externals}.

Lemma replace_catalog_frame csrc tgt name fs fs' q :
  Update.replace_catalog csrc tgt name fs = Some fs' ->
  Path.diverge (Path.join tgt name) q = true ->
  get q (Some fs') = get q (Some fs).
Proof.
  unfold Update.replace_catalog.
  destruct (existsSync (Path.join csrc name) fs); [|now intros [= <-]].
  intros H Hq. bind_inv H as fs1 Hr.
  rewrite (copy_frame _ _ _ _ _ _ H Hq). exact (remove_frame _ _ _ _ Hr Hq).
Qed.

(** A catalog of the package is, after its step, the catalog of the
    project. *)
Lemma replace_catalog_same csrc tgt name fs fs' s :
  Update.replace_catalog csrc tgt name fs = Some fs' ->
  get (Path.join csrc name) (Some fs) = Some s ->
  wf s = true ->
  Path.diverge (Path.join tgt name) (Path.join csrc name) = true ->
  get (Path.join tgt name) (Some fs') = Some s.
Proof.
  unfold Update.replace_catalog. intros H Hs Hwf Hd.
  assert (He : existsSync (Path.join csrc name) fs = true)
    by (apply existsSync_get; eauto).
  rewrite He in H. bind_inv H as fs1 Hr.
  apply copy_same in H as (s' & Hs' & Hc); [|reflexivity].
  rewrite (remove_frame _ _ _ _ Hr Hd), Hs in Hs'. injection Hs' as <-.
  rewrite (remove_same _ _ _ Hr), (copy_node_fresh s Hwf) in Hc.
  now symmetry.
Qed.

Lemma update_settings_frame csrc tgt fs fs' q :
  Update.update_settings csrc tgt fs = Some fs' ->
  Path.diverge (Path.join tgt "settings.json") q = true ->
  get q (Some fs') = get q (Some fs).
Proof.
  unfold Update.update_settings.
  destruct (existsSync (Path.join csrc "settings.json") fs);
    [apply copy_frame | now intros [= <-]].
Qed.

Lemma update_claudeMd_frame opts csrc mdp backup fs fs' q :
  Update.update_claudeMd opts csrc mdp backup fs = Some fs' ->
  Path.diverge mdp q = true ->
  get q (Some fs') = get q (Some fs).
Proof.
  unfold Update.update_claudeMd.
  destruct (existsSync (Path.join csrc "CLAUDE.md") fs); [|now intros [= <-]].
  intros H Hq. bind_inv H as t Ht.
  destruct (negb (truthy_text backup) || text_eq backup t || force opts).
  - exact (copy_frame _ _ _ _ _ _ H Hq).
  - now injection H as <-.
Qed.

(** What [update_claudeMd] leaves in [CLAUDE.md] when the package has a
    template of bytes [t]: the template if the snapshot is falsy ([null] or
    the empty string), equal to the decoded template, or with [--force];
    what was there otherwise. *)
Lemma update_claudeMd_same opts csrc mdp backup fs fs' t :
  Update.update_claudeMd opts csrc mdp backup fs = Some fs' ->
  file_bytes (Path.join csrc "CLAUDE.md") fs = Some t ->
  is_dir (get mdp (Some fs)) = false ->
  file_bytes mdp fs' =
    if negb (truthy_text backup) || text_eq backup (Utf8.decode t)
       || force opts
    then Some t else file_bytes mdp fs.
Proof.
  unfold Update.update_claudeMd. intros H Ht Hnd.
  rewrite (file_bytes_exists _ _ _ Ht), (readFileSync_bytes _ _ _ Ht) in H.
  cbn [bind] in H.
  destruct (negb (truthy_text backup) || text_eq backup (Utf8.decode t)
            || force opts).
  - apply copy_same in H as (s & Hs & Hc); [|reflexivity].
    apply file_bytes_get in Ht. rewrite Ht in Hs. injection Hs as <-.
    apply file_bytes_get. rewrite <- Hc.
    destruct (get mdp (Some fs)) as [[c|es]|]; try reflexivity.
    discriminate Hnd.
  - now injection H as <-.
Qed.

(** Step 5 writes below [.claude] only. *)
Lemma update_claude_frame opts root cwd backup fs fs' q :
  Update.update_claude opts root cwd backup fs = Some fs' ->
  Path.diverge (Path.join cwd ".claude") q = true ->
  get q (Some fs') = get q (Some fs).
Proof.
  unfold Update.update_claude.
  destruct (existsSync (Path.join root "claude-config") fs);
    [|now intros [= <-]].
  intros H Hq.
  bind_inv H as fs1 H1. bind_inv H as fs2 H2. bind_inv H as fs3 H3.
  bind_inv H as fs4 H4.
  rewrite (update_claudeMd_frame _ _ _ _ _ _ _ H)
    by (now apply diverge_app_l).
  rewrite (update_settings_frame _ _ _ _ _ H4)
    by (now apply diverge_app_l).
  rewrite (replace_catalog_frame _ _ _ _ _ _ H3)
    by (now apply diverge_app_l).
  rewrite (replace_catalog_frame _ _ _ _ _ _ H2)
    by (now apply diverge_app_l).
  apply (replace_catalog_frame _ _ _ _ _ _ H1). now apply diverge_app_l.
Qed.

Lemma restore_configs_frame_below t b fs fs' q :
  Update.restore_configs t b fs = Some fs' ->
  Path.diverge t q = true ->
  get q (Some fs') = get q (Some fs).
Proof.
  intros H Hq. apply (restore_configs_frame _ _ _ _ _ H).
  intros f _. now apply diverge_app_l.
Qed.

(** [update] writes below [.aios-core] and [.claude] of the project
    only. *)
Lemma updateAction_frame pr opts fs fs' q :
  Update.updateAction pr opts fs = Done fs' ->
  Path.diverge (Path.join (cwd pr) ".aios-core") q = true ->
  Path.diverge (Path.join (cwd pr) ".claude") q = true ->
  get q (Some fs') = get q (Some fs).
Proof.
  intros H Ha Hc.
  apply updateAction_Done in H as (_ & b & fs6 & Hsr & Hw).
  apply write_manifest_inv in Hw as (manifest & text & _ & _ & Hw).
  rewrite (writeFileSync_frame _ _ _ _ _ Hw) by (now apply diverge_app_l).
  unfold Update.sync_and_restore in Hsr.
  bind_inv Hsr as backups Hb.
  bind_inv Hsr as claudeMdBackup Hmd.
  bind_inv Hsr as settingsLocalBackup Hs.
  bind_inv Hsr as fs4 H4.
  bind_inv Hsr as fs5 H5.
  bind_inv Hsr as fs6a H6.
  bind_inv Hsr as fs6b H6'.
  injection Hsr as _ <-.
  rewrite (restore_settingsLocal_frame _ _ _ _ _ H6')
    by (now apply diverge_app_l).
  rewrite (restore_configs_frame_below _ _ _ _ _ H6 Ha).
  rewrite (update_claude_frame _ _ _ _ _ _ _ H5 Hc).
  exact (copy_frame _ _ _ _ _ _ H4 Ha).
Qed.

End UpdateSteps.

(** ** The update command: catalogs and [CLAUDE.md] *)

Section UpdateClaude.
Context {E : Externals}.

Lemma backup_optional_inv p fs b :
  Update.backup_optional p fs = Some b ->
  b = readFileSync p fs /\ is_dir (get p (Some fs)) = false.
Proof.
  unfold Update.backup_optional. destruct (existsSync p fs) eqn:He.
  - intros H. bind_inv H as c Hc. injection H as <-. split; [now symmetry|].
    apply readFileSync_inv in Hc as (c0 & Hc & _).
    apply file_bytes_get in Hc. now rewrite Hc.
  - intros [= <-]. apply existsSync_false in He.
    unfold readFileSync, file_bytes. now rewrite He.
Qed.

(** Step 5 leaves, for each catalog the package has, that catalog in
    [.claude]. *)
Lemma update_claude_catalog opts root cwd backup fs fs' name s :
  Update.update_claude opts root cwd backup fs = Some fs' ->
  In name ["commands"; "rules"; "hooks"] ->
  get (Path.join (Path.join root "claude-config") name) (Some fs) = Some s ->
  wf s = true ->
  Path.diverge (Path.join cwd ".claude") root = true ->
  get (Path.join (Path.join cwd ".claude") name) (Some fs') = Some s.
Proof.
  unfold Update.update_claude. intros H Hin Hs Hwf Hd.
  assert (He : existsSync (Path.join root "claude-config") fs = true).
  { apply (existsSync_parent _ name). apply existsSync_get. eauto. }
  rewrite He in H.
  bind_inv H as fs1 H1. bind_inv H as fs2 H2. bind_inv H as fs3 H3.
  bind_inv H as fs4 H4.
  rewrite (update_claudeMd_frame _ _ _ _ _ _ _ H)
    by (simpl in Hin; destruct Hin as [<- | [<- | [<- | []]]]; paths).
  rewrite (update_settings_frame _ _ _ _ _ H4)
    by (simpl in Hin; destruct Hin as [<- | [<- | [<- | []]]]; paths).
  simpl in Hin. destruct Hin as [<- | [<- | [<- | []]]].
  - rewrite (replace_catalog_frame _ _ _ _ _ _ H3) by paths.
    rewrite (replace_catalog_frame _ _ _ _ _ _ H2) by paths.
    apply (replace_catalog_same _ _ _ _ _ _ H1 Hs Hwf). paths.
  - rewrite (replace_catalog_frame _ _ _ _ _ _ H3) by paths.
    apply (replace_catalog_same _ _ _ _ _ _ H2); [|exact Hwf | paths].
    rewrite (replace_catalog_frame _ _ _ _ _ _ H1) by paths. exact Hs.
  - apply (replace_catalog_same _ _ _ _ _ _ H3); [|exact Hwf | paths].
    rewrite (replace_catalog_frame _ _ _ _ _ _ H2) by paths.
    rewrite (replace_catalog_frame _ _ _ _ _ _ H1) by paths. exact Hs.
Qed.

(** What step 5 leaves in [CLAUDE.md]. *)
Lemma update_claude_claudeMd opts root cwd backup fs fs' t :
  Update.update_claude opts root cwd backup fs = Some fs' ->
  file_bytes (Path.join (Path.join root "claude-config") "CLAUDE.md") fs
    = Some t ->
  is_dir (get (Path.join (Path.join cwd ".claude") "CLAUDE.md") (Some fs))
    = false ->
  Path.diverge (Path.join cwd ".claude") root = true ->
  file_bytes (Path.join (Path.join cwd ".claude") "CLAUDE.md") fs' =
    if negb (truthy_text backup) || text_eq backup (Utf8.decode t)
       || force opts
    then Some t
    else file_bytes (Path.join (Path.join cwd ".claude") "CLAUDE.md") fs.
Proof.
  unfold Update.update_claude. intros H Ht Hnd Hd.
  assert (He : existsSync (Path.join root "claude-config") fs = true).
  { apply (existsSync_parent _ "CLAUDE.md").
    exact (file_bytes_exists _ _ _ Ht). }
  rewrite He in H.
  bind_inv H as fs1 H1. bind_inv H as fs2 H2. bind_inv H as fs3 H3.
  bind_inv H as fs4 H4.
  assert (Hsame : forall q,
    Path.diverge (Path.join (Path.join cwd ".claude") "commands") q = true ->
    Path.diverge (Path.join (Path.join cwd ".claude") "rules") q = true ->
    Path.diverge (Path.join (Path.join cwd ".claude") "hooks") q = true ->
    Path.diverge (Path.join (Path.join cwd ".claude") "settings.json") q
      = true ->
    get q (Some fs4) = get q (Some fs)).
  { intros q Q1 Q2 Q3 Q4.
    rewrite (update_settings_frame _ _ _ _ _ H4 Q4).
    rewrite (replace_catalog_frame _ _ _ _ _ _ H3 Q3).
    rewrite (replace_catalog_frame _ _ _ _ _ _ H2 Q2).
    exact (replace_catalog_frame _ _ _ _ _ _ H1 Q1). }
  rewrite (update_claudeMd_same _ _ _ _ _ _ t H).
  - destruct (negb (truthy_text backup) || text_eq backup (Utf8.decode t)
              || force opts); [reflexivity|].
    unfold file_bytes. rewrite Hsame by paths. reflexivity.
  - apply file_bytes_get. rewrite Hsame by paths.
    now apply file_bytes_get.
  - rewrite Hsame by paths. exact Hnd.
Qed.

(** The decomposition of a completed [update] into its steps. *)
Lemma updateAction_steps pr opts fs fs' :
  Update.updateAction pr opts fs = Done fs' ->
  exists backups claudeMdBackup fs4 fs5 fs6,
    Update.backup_configs (Path.join (cwd pr) ".aios-core")
      Update.LOCAL_CONFIGS fs [] = Some backups /\
    Update.backup_optional
      (Path.join (Path.join (cwd pr) ".claude") "CLAUDE.md") fs
      = Some claudeMdBackup /\
    copy {| filter := Update.copy_filter (force opts) (Update.getPackageRoot pr);
            overwrite := true; errorOnExist := false |}
         (Update.getPackageRoot pr) (Path.join (cwd pr) ".aios-core") fs
      = Some fs4 /\
    Update.update_claude opts (Update.getPackageRoot pr) (cwd pr)
      claudeMdBackup fs4 = Some fs5 /\
    Update.sync_and_restore pr opts fs = Some (backups, fs6) /\
    (forall q, Path.diverge (Path.join (cwd pr) ".aios-core") q = true ->
       Path.diverge
         (Path.join (Path.join (cwd pr) ".claude") "settings.local.json") q
         = true ->
       get q (Some fs') = get q (Some fs5)).
Proof.
  intros H.
  apply updateAction_Done in H as (_ & b & fs6 & Hsr & Hw).
  apply write_manifest_inv in Hw as (manifest & text & _ & _ & Hw).
  pose proof Hsr as Hsr'.
  unfold Update.sync_and_restore in Hsr.
  bind_inv Hsr as backups Hb.
  bind_inv Hsr as claudeMdBackup Hmd.
  bind_inv Hsr as settingsLocalBackup Hs.
  bind_inv Hsr as fs4 H4.
  bind_inv Hsr as fs5 H5.
  bind_inv Hsr as fs6a H6.
  bind_inv Hsr as fs6b H6'.
  injection Hsr as <- <-.
  exists backups, claudeMdBackup, fs4, fs5, fs6b.
  repeat split; try assumption.
  intros q Qa Qs.
  rewrite (writeFileSync_frame _ _ _ _ _ Hw) by (now apply diverge_app_l).
  rewrite (restore_settingsLocal_frame _ _ _ _ _ H6' Qs).
  exact (restore_configs_frame_below _ _ _ _ _ H6 Qa).
Qed.

(** C3.  Whenever [update] completes, each catalog ([commands], [rules],
    [hooks]) that the package has under [claude-config] is, under
    [.claude], what the package has: at every relative path the destination
    holds exactly what the source holds, so no file of a previous version
    survives.  The package directory is assumed to lie outside the
    project's [.aios-core] and [.claude]. *)
Theorem update_replaces_catalogs pr opts fs fs' name s :
  Update.updateAction pr opts fs = Done fs' ->
  In name ["commands"; "rules"; "hooks"] ->
  let packageRoot := Update.getPackageRoot pr in
  let src := Path.join (Path.join packageRoot "claude-config") name in
  let dest := Path.join (Path.join (cwd pr) ".claude") name in
  Path.diverge (Path.join (cwd pr) ".aios-core") packageRoot = true ->
  Path.diverge (Path.join (cwd pr) ".claude") packageRoot = true ->
  get src (Some fs) = Some s ->
  wf s = true ->
  forall r, get (dest ++ r) (Some fs') = get (src ++ r) (Some fs).
Proof.
  intros H Hin packageRoot src dest Da Dc Hs Hwf r.
  apply updateAction_steps in H
    as (backups & mdb & fs4 & fs5 & fs6 & _ & _ & H4 & H5 & _ & Hrest).
  rewrite !get_app. f_equal. rewrite Hs.
  rewrite Hrest by
    (subst dest; simpl in Hin; destruct Hin as [<- | [<- | [<- | []]]]; paths).
  apply (update_claude_catalog _ _ _ _ _ _ _ _ H5 Hin); [|exact Hwf | exact Dc].
  fold packageRoot. fold src.
  rewrite (copy_frame _ _ _ _ _ _ H4); [exact Hs|].
  subst src. paths.
Qed.

(** The policy of [update] for [CLAUDE.md] when the package has a template
    of bytes [t]: the file ends up holding the template if it was missing
    or empty, if it read as the template reads, or with [--force]; it keeps
    its bytes otherwise. *)
Lemma update_claudeMd_policy pr opts fs fs' t :
  Update.updateAction pr opts fs = Done fs' ->
  let packageRoot := Update.getPackageRoot pr in
  let claudeMdPath := Path.join (Path.join (cwd pr) ".claude") "CLAUDE.md" in
  Path.diverge (Path.join (cwd pr) ".aios-core") packageRoot = true ->
  Path.diverge (Path.join (cwd pr) ".claude") packageRoot = true ->
  file_bytes (Path.join (Path.join packageRoot "claude-config") "CLAUDE.md")
    fs = Some t ->
  file_bytes claudeMdPath fs' =
    if negb (truthy_text (readFileSync claudeMdPath fs))
       || text_eq (readFileSync claudeMdPath fs) (Utf8.decode t)
       || force opts
    then Some t
    else file_bytes claudeMdPath fs.
Proof.
  intros H packageRoot claudeMdPath. subst packageRoot claudeMdPath.
  intros Da Dc Ht.
  apply updateAction_steps in H
    as (backups & mdb & fs4 & fs5 & fs6 & _ & Hmd & H4 & H5 & _ & Hrest).
  apply backup_optional_inv in Hmd as [-> Hnd].
  set (claudeMdPath := Path.join (Path.join (cwd pr) ".claude") "CLAUDE.md")
    in *.
  assert (Hmd4 : get claudeMdPath (Some fs4) = get claudeMdPath (Some fs)).
  { apply (copy_frame _ _ _ _ _ _ H4). subst claudeMdPath. paths. }
  assert (Hmd5 : file_bytes claudeMdPath fs' = file_bytes claudeMdPath fs5).
  { unfold file_bytes. rewrite Hrest by (subst claudeMdPath; paths).
    reflexivity. }
  assert (Hr4 : file_bytes claudeMdPath fs4 = file_bytes claudeMdPath fs).
  { unfold file_bytes. now rewrite Hmd4. }
  rewrite Hmd5. subst claudeMdPath.
  rewrite (update_claude_claudeMd _ _ _ _ _ _ t H5).
  - now rewrite Hr4.
  - apply file_bytes_get.
    rewrite (copy_frame _ _ _ _ _ _ H4) by paths.
    now apply file_bytes_get.
  - now rewrite Hmd4.
  - exact Dc.
Qed.

End UpdateClaude.

(** ** The update command: the manifest *)

Section UpdateManifest.
Context {E : Externals}.

Lemma getPackageVersion_truthy pr fs :
  truthy (Update.getPackageVersion pr fs) = true.
Proof.
  unfold Update.getPackageVersion, js_or.
  destruct (readFileSync _ fs) as [text|]; [|reflexivity].
  destruct (json_parse text) as [pkg|]; [|reflexivity].
  destruct (js_get pkg "version") as [v|]; [|reflexivity].
  destruct (truthy v) eqn:Hv; [exact Hv | reflexivity].
Qed.

Lemma getPackageVersion_ext pr pr' fs fs' :
  dirname pr' = dirname pr ->
  readFileSync (Path.join (Update.getPackageRoot pr) "package.json") fs' =
  readFileSync (Path.join (Update.getPackageRoot pr) "package.json") fs ->
  Update.getPackageVersion pr' fs' = Update.getPackageVersion pr fs.
Proof.
  unfold Update.getPackageVersion, Update.getPackageRoot.
  now intros -> ->.
Qed.

(** Step 2 on a manifest that loads with a truthy [version]. *)
Lemma read_currentVersion_loaded mp fs text o v :
  readFileSync mp fs = Some text ->
  yaml_load text = Some o ->
  js_get o "version" = Some v ->
  truthy v = true ->
  Update.read_currentVersion mp fs = v.
Proof.
  unfold Update.read_currentVersion, js_or. intros Hr Hl Hg Hv.
  now rewrite (readFileSync_exists _ _ _ Hr), Hr, Hl, Hg, Hv.
Qed.

(** Step 2 without a manifest, or with one that cannot be read or
    loaded. *)
Lemma read_currentVersion_unknown mp fs :
  existsSync mp fs = false \/
  readFileSync mp fs = None \/
  (exists text, readFileSync mp fs = Some text /\ yaml_load text = None) ->
  Update.read_currentVersion mp fs = JStr "unknown".
Proof.
  unfold Update.read_currentVersion.
  intros [-> | [-> | (text & -> & ->)]]; [reflexivity | |];
    now destruct (existsSync mp fs).
Qed.

(** The two shapes of the manifest object. *)
Lemma build_manifest_inv pr b v cv root m :
  Update.build_manifest pr b v cv root = Some m ->
  (exists text old i,
     Alist.lookup "install-manifest.yaml" b = Some text /\ text <> "" /\
     yaml_load text = Some old /\ js_get old "installed_at" = Some i /\
     m = Update.manifest_of i (JStr (clock pr 0)) v cv (Path.abs_string root))
  \/
  (truthy_text (Alist.lookup "install-manifest.yaml" b) = false /\
   m = Update.manifest_of (JStr (clock pr 0)) (JStr (clock pr 1)) v cv
         (Path.abs_string root)).
Proof.
  unfold Update.build_manifest.
  destruct (truthy_text (Alist.lookup "install-manifest.yaml" b)) eqn:Ht.
  - intros H. left.
    bind_inv H as text Hb. bind_inv H as old Hl. bind_inv H as i Hi.
    injection H as <-. exists text, old, i. repeat split; try assumption.
    intros ->. rewrite Hb in Ht. discriminate Ht.
  - intros [= <-]. right. now split.
Qed.

(** The snapshot of a manifest that exists is its text. *)
Lemma backup_of_manifest t fs b text :
  Update.backup_configs t Update.LOCAL_CONFIGS fs [] = Some b ->
  readFileSync (Path.join t "install-manifest.yaml") fs = Some text ->
  Alist.lookup "install-manifest.yaml" b = Some text.
Proof.
  intros Hb Hr. rewrite (backup_configs_lookup _ _ _ _ _ Hb).
  rewrite (readFileSync_exists _ _ _ Hr). exact Hr.
Qed.

(** A completed [update] has written the text of [new_manifest]. *)
Lemma updateAction_manifest pr opts fs fs' :
  Update.updateAction pr opts fs = Done fs' ->
  exists m text,
    Update.new_manifest pr fs = Some m /\
    yaml_dump m = Some text /\
    file_bytes
      (Path.join (Path.join (cwd pr) ".aios-core") "install-manifest.yaml") fs'
      = Some text.
Proof.
  intros H. apply updateAction_Done in H as (_ & b & fs6 & Hsr & Hw).
  apply write_manifest_inv in Hw as (m & text & Hm & Hd & Hw).
  exists m, text. split; [|split; [exact Hd|]].
  - unfold Update.new_manifest.
    now rewrite (proj1 (sync_and_restore_keeps _ _ _ _ _ Hsr)).
  - exact (writeFileSync_same _ _ _ _ Hw).
Qed.

(** The fields of the manifest of a completed [update]: the package
    version, the version step 2 read, a reading of the clock; [installed_at]
    is that of the old manifest when its snapshot is not empty and the clock
    otherwise. *)
Lemma update_manifest_fields pr opts fs fs' :
  Update.updateAction pr opts fs = Done fs' ->
  exists i u,
    Update.new_manifest pr fs =
      Some (Update.manifest_of i (JStr u) (Update.getPackageVersion pr fs)
              (Update.read_currentVersion
                 (Path.join (Path.join (cwd pr) ".aios-core")
                    "install-manifest.yaml") fs)
              (Path.abs_string (Update.getPackageRoot pr))) /\
    (u = clock pr 0 \/ u = clock pr 1) /\
    (forall text,
       readFileSync (Path.join (Path.join (cwd pr) ".aios-core")
                       "install-manifest.yaml") fs = Some text ->
       text <> "" ->
       exists old, yaml_load text = Some old /\
                   js_get old "installed_at" = Some i) /\
    (existsSync (Path.join (Path.join (cwd pr) ".aios-core")
                   "install-manifest.yaml") fs = false ->
     i = JStr (clock pr 0)).
Proof.
  intros H. apply updateAction_manifest in H as (m & text & Hm & _ & _).
  unfold Update.new_manifest in Hm |- *. bind_inv Hm as b Hb. rewrite Hb.
  simpl. rewrite Hm.
  pose proof (backup_configs_lookup _ _ _ _ _ Hb "install-manifest.yaml")
    as Hlk.
  change (includes Update.LOCAL_CONFIGS "install-manifest.yaml") with true
    in Hlk. simpl in Hlk.
  apply build_manifest_inv in Hm
    as [(t & old & i & Ht & Hne & Hl & Hi & ->) | [Hf ->]].
  - exists i, (clock pr 0). split; [reflexivity|]. split; [now left|]. split.
    + intros text' Hr _. rewrite (readFileSync_exists _ _ _ Hr), Hr in Hlk.
      rewrite Ht in Hlk. injection Hlk as ->. eauto.
    + intros He. rewrite He, Ht in Hlk. discriminate Hlk.
  - exists (JStr (clock pr 0)), (clock pr 1).
    split; [reflexivity|]. split; [now right|]. split; [|reflexivity].
    intros text' Hr Hne. rewrite (readFileSync_exists _ _ _ Hr), Hr in Hlk.
    rewrite Hlk in Hf. simpl in Hf. apply negb_false_iff in Hf.
    apply String.eqb_eq in Hf. contradiction.
Qed.

(** C2.  When the manifest on disk is not empty and [yaml.load] rejects it,
    [update] does not complete: step 2 catches the exception and falls back
    to ['unknown'], but step 7 loads the snapshot of the same file without a
    [try], so the run throws before any manifest is written. *)
Theorem update_throws_on_unloadable_manifest pr opts fs text :
  readFileSync
    (Path.join (Path.join (cwd pr) ".aios-core") "install-manifest.yaml") fs
    = Some text ->
  text <> "" ->
  yaml_load text = None ->
  Update.read_currentVersion
    (Path.join (Path.join (cwd pr) ".aios-core") "install-manifest.yaml") fs
    = JStr "unknown" /\
  Update.updateAction pr opts fs = Throw.
Proof.
  intros Hr Hne Hl. split.
  - apply read_currentVersion_unknown. right. right. eauto.
  - destruct (Update.updateAction pr opts fs) as [fs'|c fs'|] eqn:Hu;
      [| |reflexivity].
    + exfalso. apply updateAction_manifest in Hu as (m & t & Hm & _ & _).
      unfold Update.new_manifest in Hm. bind_inv Hm as b Hb.
      apply build_manifest_inv in Hm
        as [(t' & old & i & Ht & _ & Hl' & _) | [Hf _]].
      * rewrite (backup_of_manifest _ _ _ _ Hb Hr) in Ht. injection Ht as <-.
        congruence.
      * rewrite (backup_of_manifest _ _ _ _ Hb Hr) in Hf. simpl in Hf.
        apply negb_false_iff, String.eqb_eq in Hf. contradiction.
    + exfalso. unfold Update.updateAction in Hu.
      rewrite (existsSync_parent _ _ _ (readFileSync_exists _ _ _ Hr)) in Hu.
      simpl in Hu. unfold finish in Hu.
      destruct (bind _ _) in Hu; discriminate Hu.
Qed.

(** C4, as amended.  When [update] runs twice with the same package, and
    the text of the first run's manifest loads back with its [version] and
    [installed_at], the second manifest has the [installed_at], [version]
    and [source] of the first; its [updated_at] is the new reading of the
    clock and its [previous_version] is the package version.  The package
    directory is assumed to lie outside the project's [.aios-core] and
    [.claude]. *)
Theorem update_twice_manifests pr opts1 opts2 clock2 fs fs1 fs2 :
  let pr2 := {| cwd := cwd pr; dirname := dirname pr; clock := clock2 |} in
  let manifestPath :=
    Path.join (Path.join (cwd pr) ".aios-core") "install-manifest.yaml" in
  Update.updateAction pr opts1 fs = Done fs1 ->
  Update.updateAction pr2 opts2 fs1 = Done fs2 ->
  Path.diverge (Path.join (cwd pr) ".aios-core") (Update.getPackageRoot pr)
    = true ->
  Path.diverge (Path.join (cwd pr) ".claude") (Update.getPackageRoot pr)
    = true ->
  (forall m1, Update.new_manifest pr fs = Some m1 -> loads_back m1) ->
  exists i u1 v p1 s text2,
    Update.new_manifest pr fs = Some (Update.manifest_of i u1 v p1 s) /\
    Update.new_manifest pr2 fs1 =
      Some (Update.manifest_of i (JStr (clock2 0)) v v s) /\
    yaml_dump (Update.manifest_of i (JStr (clock2 0)) v v s) = Some text2 /\
    file_bytes manifestPath fs2 = Some text2.
Proof.
  intros pr2 manifestPath H1 H2 Da Dc Hround.
  pose proof (updateAction_frame _ _ _ _
    (Path.join (Update.getPackageRoot pr) "package.json") H1) as Hpkg.
  destruct (update_manifest_fields _ _ _ _ H1) as (i & u1 & Hm1 & _).
  apply updateAction_manifest in H1 as (m1 & text1 & Hm1' & Hd1 & Hr1).
  rewrite Hm1 in Hm1'. injection Hm1' as <-.
  destruct (Hround _ Hm1 _ Hd1) as (Hne & o & Hl & Hv & Hi).
  simpl in Hv, Hi.
  assert (Hver : Update.getPackageVersion pr2 fs1 = Update.getPackageVersion pr fs).
  { apply getPackageVersion_ext; [reflexivity|].
    apply readFileSync_ext. apply Hpkg; paths. }
  apply readFileSync_bytes in Hr1.
  assert (Hcur : Update.read_currentVersion manifestPath fs1
                 = Update.getPackageVersion pr fs).
  { apply (read_currentVersion_loaded _ _ _ _ _ Hr1 Hl Hv).
    apply getPackageVersion_truthy. }
  apply updateAction_manifest in H2 as (m2 & text2 & Hm2 & Hd2 & Hr2).
  exists i, (JStr u1), (Update.getPackageVersion pr fs),
    (Update.read_currentVersion manifestPath fs),
    (Path.abs_string (Update.getPackageRoot pr)), text2.
  split; [exact Hm1|].
  assert (Hm2' : m2 = Update.manifest_of i (JStr (clock2 0))
                        (Update.getPackageVersion pr fs)
                        (Update.getPackageVersion pr fs)
                        (Path.abs_string (Update.getPackageRoot pr))).
  { unfold Update.new_manifest in Hm2. bind_inv Hm2 as b2 Hb2.
    change (cwd pr2) with (cwd pr) in Hb2, Hm2.
    fold manifestPath in Hm2. rewrite Hver, Hcur in Hm2.
    apply build_manifest_inv in Hm2
      as [(t & old & i' & Ht & _ & Hl' & Hi' & ->) | [Hf _]].
    - rewrite (backup_of_manifest _ _ _ _ Hb2 Hr1) in Ht. injection Ht as <-.
      rewrite Hl in Hl'. injection Hl' as <-. rewrite Hi in Hi'.
      now injection Hi' as <-.
    - rewrite (backup_of_manifest _ _ _ _ Hb2 Hr1) in Hf. simpl in Hf.
      apply negb_false_iff, String.eqb_eq in Hf. contradiction. }
  subst m2. split; [exact Hm2|]. split; [exact Hd2 | exact Hr2].
Qed.

(** C7.  A local [CLAUDE.md] that is empty is overwritten by the template
    without [--force], although a local copy exists and differs from the
    template: the test [!claudeMdBackup] takes the empty snapshot for a
    missing file. *)
Theorem update_overwrites_empty_claudeMd pr opts fs fs' t :
  Update.updateAction pr opts fs = Done fs' ->
  force opts = false ->
  Path.diverge (Path.join (cwd pr) ".aios-core") (Update.getPackageRoot pr)
    = true ->
  Path.diverge (Path.join (cwd pr) ".claude") (Update.getPackageRoot pr)
    = true ->
  file_bytes
    (Path.join (Path.join (Update.getPackageRoot pr) "claude-config")
       "CLAUDE.md") fs = Some t ->
  file_bytes (Path.join (Path.join (cwd pr) ".claude") "CLAUDE.md") fs
    = Some "" ->
  file_bytes (Path.join (Path.join (cwd pr) ".claude") "CLAUDE.md") fs'
    = Some t.
Proof.
  intros H Hf Da Dc Ht Hlocal.
  rewrite (update_claudeMd_policy _ _ _ _ t H Da Dc Ht).
  now rewrite (readFileSync_bytes _ _ _ Hlocal).
Qed.

End UpdateManifest.

(** ** Runs of the update command *)

(** C2: the failing input, a project whose manifest is not YAML. *)
Lemma update_throws_on_unloadable_manifest_witness :
  file_bytes Demo.manifest_path
    (Demo.installed_fs Demo.broken_manifest "custom")
    = Some Demo.broken_manifest /\
  @Update.read_currentVersion Demo.demo Demo.manifest_path
    (Demo.installed_fs Demo.broken_manifest "custom") = JStr "unknown" /\
  @Update.updateAction Demo.demo
    (Demo.update_pr "2024-05-01T10:00:00.000Z" "2024-05-01T10:00:00.001Z")
    Demo.no_force (Demo.installed_fs Demo.broken_manifest "custom") = Throw.
Proof.
  split; [reflexivity|].
  apply (@update_throws_on_unloadable_manifest Demo.demo
           (Demo.update_pr "2024-05-01T10:00:00.000Z" "2024-05-01T10:00:00.001Z")
           Demo.no_force (Demo.installed_fs Demo.broken_manifest "custom")
           Demo.broken_manifest).
  - reflexivity.
  - discriminate.
  - reflexivity.
Defined.

(** C3: a run on which the statement applies; [retired.md], a command of
    the previous version, is gone and [build.md] is the package's. *)
Lemma update_replaces_catalogs_witness :
  exists fs',
    @Update.updateAction Demo.demo
      (Demo.update_pr "2024-05-01T10:00:00.000Z" "2024-05-01T10:00:00.001Z")
      Demo.no_force (Demo.installed_fs Demo.old_manifest "custom") = Done fs' /\
    get ["proj"; ".claude"; "commands"; "retired.md"] (Some fs') = None /\
    get ["proj"; ".claude"; "commands"; "build.md"] (Some fs')
      = Some (File "build v2").
Proof.
  eexists. split; [vm_compute; reflexivity|].
  pose proof (fun r => @update_replaces_catalogs Demo.demo
    (Demo.update_pr "2024-05-01T10:00:00.000Z" "2024-05-01T10:00:00.001Z")
    Demo.no_force (Demo.installed_fs Demo.old_manifest "custom") _ "commands"
    (Dir [("build.md", File "build v2")])
    ltac:(vm_compute; reflexivity) ltac:(simpl; tauto)
    eq_refl eq_refl eq_refl eq_refl r) as H.
  split; [exact (H ["retired.md"]) | exact (H ["build.md"])].
Defined.

(** C4, the runs that refute the claim as stated: two updates in a row from
    the same package; the second manifest differs from the first in
    [previous_version] as well as in [updated_at]. *)
Lemma update_twice_changes_previous_version :
  exists fs1 fs2,
    @Update.updateAction Demo.demo
      (Demo.update_pr "2024-05-01T10:00:00.000Z" "2024-05-01T10:00:00.001Z")
      Demo.no_force (Demo.installed_fs Demo.old_manifest "custom") = Done fs1 /\
    @Update.updateAction Demo.demo
      (Demo.update_pr "2024-05-02T10:00:00.000Z" "2024-05-02T10:00:00.001Z")
      Demo.no_force fs1 = Done fs2 /\
    file_bytes Demo.manifest_path fs1
      = Some (Demo.new_manifest "2024-05-01T10:00:00.000Z") /\
    file_bytes Demo.manifest_path fs2
      = Some (Demo.second_manifest "2024-05-02T10:00:00.000Z") /\
    bind (Demo.demo_yaml_load (Demo.new_manifest "2024-05-01T10:00:00.000Z"))
         (fun o => js_get o "previous_version") = Some (JStr "1.0.0") /\
    bind (Demo.demo_yaml_load (Demo.second_manifest "2024-05-02T10:00:00.000Z"))
         (fun o => js_get o "previous_version") = Some (JStr "1.2.0").
Proof.
  eexists. eexists. split; [vm_compute; reflexivity|].
  split; [vm_compute; reflexivity|]. repeat split; vm_compute; reflexivity.
Qed.

(** C4: two runs on which the amended statement applies. *)
Lemma update_twice_manifests_witness :
  exists fs1 fs2 text2,
    @Update.updateAction Demo.demo
      (Demo.update_pr "2024-05-01T10:00:00.000Z" "2024-05-01T10:00:00.001Z")
      Demo.no_force (Demo.installed_fs Demo.old_manifest "custom") = Done fs1 /\
    @Update.updateAction Demo.demo
      (Demo.update_pr "2024-05-02T10:00:00.000Z" "2024-05-02T10:00:00.001Z")
      Demo.no_force fs1 = Done fs2 /\
    file_bytes Demo.manifest_path fs2 = Some text2.
Proof.
  eexists. eexists.
  pose proof (@update_twice_manifests Demo.demo
    (Demo.update_pr "2024-05-01T10:00:00.000Z" "2024-05-01T10:00:00.001Z")
    Demo.no_force Demo.no_force
    (clock (Demo.update_pr "2024-05-02T10:00:00.000Z" "2024-05-02T10:00:00.001Z"))
    (Demo.installed_fs Demo.old_manifest "custom") _ _
    ltac:(vm_compute; reflexivity) ltac:(vm_compute; reflexivity)
    eq_refl eq_refl) as H.
  destruct H as (i & u1 & v & p1 & s & text2 & _ & _ & _ & Hr).
  - intros m1 Hm1. vm_compute in Hm1. injection Hm1 as <-.
    intros text Hd. vm_compute in Hd. injection Hd as <-.
    split; [discriminate|]. eexists. split; [vm_compute; reflexivity|].
    split; reflexivity.
  - exists text2. split; [reflexivity|]. split; [reflexivity | exact Hr].
Defined.

(** C7: the failing input, a project whose [CLAUDE.md] is empty. *)
Lemma update_overwrites_empty_claudeMd_witness :
  file_bytes ["proj"; ".claude"; "CLAUDE.md"]
    (Demo.installed_fs Demo.old_manifest "") = Some "" /\
  exists fs',
    @Update.updateAction Demo.demo
      (Demo.update_pr "2024-05-01T10:00:00.000Z" "2024-05-01T10:00:00.001Z")
      Demo.no_force (Demo.installed_fs Demo.old_manifest "") = Done fs' /\
    file_bytes ["proj"; ".claude"; "CLAUDE.md"] fs' = Some "template".
Proof.
  split; [reflexivity|]. eexists. split; [vm_compute; reflexivity|].
  apply (@update_overwrites_empty_claudeMd Demo.demo
    (Demo.update_pr "2024-05-01T10:00:00.000Z" "2024-05-01T10:00:00.001Z")
    Demo.no_force (Demo.installed_fs Demo.old_manifest "") _ "template");
    reflexivity.
Defined.

(** ** The sync command *)

(** The names the directory copy of [sync] rejects. *)
Lemma sync_filter_rejects p :
  Sync.sync_filter p = true ->
  (fun k => k =? "settings.local.json") (Path.basename p) = false.
Proof.
  unfold Sync.sync_filter, Sync.NEVER_SYNC, includes. simpl.
  destruct (Path.basename p =? "settings.local.json"); [discriminate|].
  reflexivity.
Qed.

Lemma sync_item_frame cd ccd item fs fs' q :
  Sync.sync_item cd ccd item fs = Some fs' ->
  Path.diverge (Path.join ccd item) q = true ->
  get q (Some fs') = get q (Some fs).
Proof.
  unfold Sync.sync_item.
  destruct (negb (existsSync (Path.join cd item) fs)); [now intros [= <-]|].
  destruct (is_dir (get (Path.join cd item) (Some fs))).
  - intros H Hq. bind_inv H as fs1 Hr.
    rewrite (copy_frame _ _ _ _ _ _ H Hq). exact (remove_frame _ _ _ _ Hr Hq).
  - apply copy_frame.
Qed.

(** A directory item is, after its turn, free of [settings.local.json] at
    every depth. *)
Lemma sync_item_clean cd ccd item fs fs' :
  Sync.sync_item cd ccd item fs = Some fs' ->
  is_dir (get (Path.join cd item) (Some fs)) = true ->
  forall n, get (Path.join ccd item) (Some fs') = Some n ->
  clean (fun k => k =? "settings.local.json") n = true.
Proof.
  unfold Sync.sync_item. intros H Hd n Hn.
  assert (He : existsSync (Path.join cd item) fs = true).
  { unfold existsSync. now destruct (get (Path.join cd item) (Some fs)). }
  rewrite He, Hd in H. simpl in H. bind_inv H as fs1 Hr.
  destruct (Sync.sync_filter (Path.join cd item)) eqn:Hf.
  - apply copy_same in H as (s & _ & Hc); [|exact Hf].
    rewrite (remove_same _ _ _ Hr), Hn in Hc.
    apply (copy_node_clean (fun k => k =? "settings.local.json")
             {| filter := Sync.sync_filter; overwrite := true;
                errorOnExist := false |} s sync_filter_rejects
             (Path.join cd item) None n);
      [discriminate | exact Hc].
  - unfold copy in H.
    destruct (get (Path.join cd item) (Some fs1)) as [s|]; [|discriminate].
    destruct (Path.eqb _ _); [discriminate|].
    destruct (is_dir (Some s) && is_file _); [discriminate|].
    destruct (is_file (Some s) && is_dir _); [discriminate|].
    destruct (is_dir (Some s) && Path.prefixb _ _); [discriminate|].
    simpl in H. rewrite Hf in H. simpl in H. injection H as <-.
    rewrite (remove_same _ _ _ Hr) in Hn. discriminate Hn.
Qed.

Lemma sync_items_frame cd ccd items fs fs' q :
  Sync.sync_items cd ccd items fs = Some fs' ->
  (forall item, In item items -> Path.diverge (Path.join ccd item) q = true) ->
  get q (Some fs') = get q (Some fs).
Proof.
  revert fs. induction items as [|item items IH]; intros fs; simpl.
  - now intros [= <-].
  - intros H Hq. bind_inv H as fs1 H1. rewrite (IH _ H) by auto.
    apply (sync_item_frame _ _ _ _ _ _ H1). auto.
Qed.

Lemma sync_items_clean cd ccd items fs fs' :
  Sync.sync_items cd ccd items fs = Some fs' ->
  NoDup items ->
  (forall a b, Path.diverge (Path.join ccd a) (Path.join cd b) = true) ->
  forall item, In item items ->
  is_dir (get (Path.join cd item) (Some fs)) = true ->
  forall n, get (Path.join ccd item) (Some fs') = Some n ->
  clean (fun k => k =? "settings.local.json") n = true.
Proof.
  revert fs. induction items as [|i0 items IH]; intros fs; simpl;
    [intros _ _ _ item []|].
  intros H Hnd Hsep item Hin Hd n Hn. bind_inv H as fs1 H1.
  inversion Hnd as [|? ? Hnot Hnd']; subst.
  destruct Hin as [-> | Hin].
  - apply (sync_item_clean _ _ _ _ _ H1 Hd).
    rewrite <- Hn. symmetry. apply (sync_items_frame _ _ _ _ _ _ H).
    intros it Hit. apply diverge_join. intros ->. contradiction.
  - apply (IH _ H Hnd' Hsep item Hin); [|exact Hn].
    now rewrite (sync_item_frame _ _ _ _ _ _ H1 (Hsep _ _)).
Qed.

Lemma remove_forbidden_frame ccd items fs fs' q :
  Sync.remove_forbidden ccd items fs = Some fs' ->
  (forall item, In item items -> Path.diverge (Path.join ccd item) q = true) ->
  get q (Some fs') = get q (Some fs).
Proof.
  revert fs. induction items as [|item items IH]; intros fs; simpl.
  - now intros [= <-].
  - destruct (existsSync (Path.join ccd item) fs).
    + intros H Hq. bind_inv H as fs1 H1. rewrite (IH _ H) by auto.
      apply (remove_frame _ _ _ _ H1). auto.
    + intros H Hq. apply (IH _ H). auto.
Qed.

Lemma syncAction_Done pr fs fs' :
  Sync.syncAction pr fs = Done fs' ->
  exists fs3 fs4,
    ensureDir (Path.join (Path.join (cwd pr) ".aios-core") "claude-config") fs
      = Some fs3 /\
    Sync.sync_items (Path.join (cwd pr) ".claude")
      (Path.join (Path.join (cwd pr) ".aios-core") "claude-config")
      Sync.SYNC_ITEMS fs3 = Some fs4 /\
    Sync.remove_forbidden
      (Path.join (Path.join (cwd pr) ".aios-core") "claude-config")
      Sync.NEVER_SYNC fs4 = Some fs'.
Proof.
  unfold Sync.syncAction.
  destruct (negb (existsSync (Path.join (cwd pr) ".claude") fs));
    [discriminate|].
  destruct (negb (existsSync (Path.join (cwd pr) ".aios-core") fs));
    [discriminate|].
  intros H. apply finish_Done in H.
  bind_inv H as fs3 H3. bind_inv H as fs4 H4. eauto.
Qed.

(** ** The sync command: when the action completes *)





(** ** The entry point: from the command line to the action *)

Section EntryPoint.
Context {E : Externals}.





(** The package root of a command module is the parent of the entry
    point's directory, where [package.json] is read. *)
Lemma command_root pr name :
  Install.getPackageRoot (Cli.command_process pr name)
  = Path.parent (dirname pr).
Proof.
  unfold Install.getPackageRoot, Cli.command_process, Path.join, Path.parent.
  cbn [dirname]. now rewrite !removelast_last.
Qed.


End EntryPoint.



(** C8, as amended.  Whenever [sync] completes, [claude-config] has no
    [settings.local.json] at its top level, and none at any depth below an
    item of [SYNC_ITEMS] that is a directory in [.claude]; and whatever
    [claude-config] held below an entry that is neither an item of
    [SYNC_ITEMS] nor the top-level [settings.local.json] is left in place,
    a [settings.local.json] included. *)
Theorem sync_keeps_settings_local_out pr fs fs' :
  Sync.syncAction pr fs = Done fs' ->
  let claudeDir := Path.join (cwd pr) ".claude" in
  let claudeConfigDir :=
    Path.join (Path.join (cwd pr) ".aios-core") "claude-config" in
  get (Path.join claudeConfigDir "settings.local.json") (Some fs') = None /\
  (forall item r,
     In item Sync.SYNC_ITEMS ->
     is_dir (get (Path.join claudeDir item) (Some fs)) = true ->
     In "settings.local.json" r ->
     get (Path.join claudeConfigDir item ++ r) (Some fs') = None) /\
  (forall name r,
     ~ In name Sync.SYNC_ITEMS ->
     name <> "settings.local.json" ->
     get (Path.join claudeConfigDir name ++ r) (Some fs') =
     get (Path.join claudeConfigDir name ++ r) (Some fs)).
Proof.
  intros H claudeDir claudeConfigDir.
  apply syncAction_Done in H as (fs3 & fs4 & H3 & H4 & H5).
  fold claudeDir claudeConfigDir in H3, H4, H5. split; [|split].
  - simpl in H5.
    destruct (existsSync (Path.join claudeConfigDir "settings.local.json") fs4)
      eqn:He.
    + bind_inv H5 as fs5 Hr. injection H5 as <-. exact (remove_same _ _ _ Hr).
    + injection H5 as <-. now apply existsSync_false.
  - intros item r Hin Hd Hr.
    rewrite (remove_forbidden_frame _ _ _ _ _ H5).
    + rewrite get_app.
      apply (clean_get (fun k => k =? "settings.local.json") r _
               "settings.local.json"); [|exact Hr | reflexivity].
      apply (sync_items_clean _ _ _ _ _ H4); [| |exact Hin|].
      * unfold Sync.SYNC_ITEMS.
        repeat (constructor; [simpl; intuition discriminate|]). constructor.
      * intros a b. subst claudeDir claudeConfigDir. paths.
      * unfold ensureDir in H3.
        rewrite (get_mkdirs _ _ _ _ H3); [exact Hd|].
        subst claudeDir claudeConfigDir. unfold Path.join.
        repeat rewrite <- app_assoc. simpl app.
        rewrite prefixb_app_common. reflexivity.
    + intros it [<- | []]. apply diverge_app_r. apply diverge_join.
      intros <-. simpl in Hin. intuition discriminate.
  - intros name r Hnot Hne.
    rewrite (remove_forbidden_frame _ _ _ _ _ H5)
      by (intros it [<- | []]; apply diverge_app_r, diverge_join;
          congruence).
    rewrite (sync_items_frame _ _ _ _ _ _ H4)
      by (intros it Hit; apply diverge_app_r, diverge_join;
          intros ->; contradiction).
    unfold ensureDir in H3. apply (get_mkdirs _ _ _ _ H3).
    unfold Path.join at 1. rewrite <- (app_assoc claudeConfigDir [name] r).
    apply prefixb_longer.
Qed.

(** C8, the run that refutes the claim as stated: [sync] completes and a
    [settings.local.json] that was below [claude-config/agents] is still
    there. *)
Lemma sync_leaves_stray_settings_local :
  exists fs',
    Sync.syncAction Demo.sync_pr Demo.hub_with_stray_settings = Done fs' /\
    file_bytes
      ["hub"; ".aios-core"; "claude-config"; "agents"; "settings.local.json"]
      fs' = Some "{}".
Proof. eexists. split; vm_compute; reflexivity. Qed.

(** C8: a run on which the amended statement applies; the copy of
    [commands] has not taken its [settings.local.json] along, and the one
    below [agents] is where it was. *)
Lemma sync_keeps_settings_local_out_witness :
  exists fs',
    Sync.syncAction Demo.sync_pr Demo.hub_with_stray_settings = Done fs' /\
    get ["hub"; ".aios-core"; "claude-config"; "settings.local.json"]
      (Some fs') = None /\
    get ["hub"; ".aios-core"; "claude-config"; "commands";
         "settings.local.json"] (Some fs') = None /\
    get ["hub"; ".aios-core"; "claude-config"; "agents";
         "settings.local.json"] (Some fs') = Some (File "{}").
Proof.
  eexists. split; [vm_compute; reflexivity|].
  pose proof (sync_keeps_settings_local_out Demo.sync_pr
                Demo.hub_with_stray_settings _ ltac:(vm_compute; reflexivity))
    as (Htop & Hdeep & Hrest).
  split; [exact Htop|]. split.
  - apply (Hdeep "commands" ["settings.local.json"]).
    + simpl. tauto.
    + reflexivity.
    + simpl. tauto.
  - refine (eq_trans (Hrest "agents" ["settings.local.json"] _ _) _).
    + simpl. intuition discriminate.
    + discriminate.
    + reflexivity.
Defined.

(** ** The install command: when the action completes *)

Lemma relative_self root : Path.relative root root = [].
Proof.
  rewrite <- (app_nil_r root) at 2. apply relative_app.
Qed.

Lemma wf_entries_lookup seen es x c :
  wf_entries seen es = true -> Alist.lookup x es = Some c -> wf c = true.
Proof.
  revert seen. induction es as [|[k v] es IH]; intros seen; simpl;
    [discriminate|].
  intros H. apply andb_true_iff in H as [H Hes].
  apply andb_true_iff in H as [_ Hv].
  destruct (x =? k); [now intros [= <-] | now apply (IH (k :: seen))].
Qed.


Section InstallCompletes.
Context {E : Externals}.


End InstallCompletes.

(** ** The install command *)

Section InstallFacts.
Context {E : Externals}.




End InstallFacts.



(** ** The version readers *)

Section Versions.
Context {E : Externals}.

(** [getPackageVersion] never throws and falls back to ['0.0.0'] when the
    file cannot be read, is not JSON, or has no truthy [version]. *)
Lemma update_getPackageVersion_fallback pr fs :
  let pkgPath := Path.join (Update.getPackageRoot pr) "package.json" in
  readFileSync pkgPath fs = None \/
  (exists text, readFileSync pkgPath fs = Some text /\
     (json_parse text = None \/
      exists pkg, json_parse text = Some pkg /\
        (js_get pkg "version" = None \/
         exists v, js_get pkg "version" = Some v /\ truthy v = false))) ->
  Update.getPackageVersion pr fs = JStr "0.0.0".
Proof.
  intros pkgPath H. subst pkgPath. unfold Update.getPackageVersion, js_or.
  destruct H as [-> | (text & -> & [-> | (pkg & -> & [-> | (v & -> & ->)])])];
    reflexivity.
Qed.

Lemma update_getPackageVersion_declared pr fs text pkg v :
  readFileSync (Path.join (Update.getPackageRoot pr) "package.json") fs
    = Some text ->
  json_parse text = Some pkg ->
  js_get pkg "version" = Some v -> truthy v = true ->
  Update.getPackageVersion pr fs = v.
Proof.
  unfold Update.getPackageVersion, js_or. now intros -> -> -> ->.
Qed.

(** The reader of the install command is the same function. *)
Lemma install_getPackageVersion_eq pr fs :
  Install.getPackageVersion pr fs = Update.getPackageVersion pr fs.
Proof. reflexivity. Qed.

(** The entry point keeps ['0.0.0'] when reading or parsing throws. *)
Lemma cli_packageVersion_fallback pr fs :
  let packageJsonPath := Path.join (Path.parent (dirname pr)) "package.json" in
  readFileSync packageJsonPath fs = None \/
  (exists text, readFileSync packageJsonPath fs = Some text /\
     (json_parse text = None \/
      exists pkg, json_parse text = Some pkg /\ js_get pkg "version" = None)) ->
  Cli.packageVersion pr fs = JStr "0.0.0".
Proof.
  intros p H. subst p. unfold Cli.packageVersion.
  destruct H as [-> | (text & -> & [-> | (pkg & -> & ->)])]; reflexivity.
Qed.

(** C9.  At the CLI entry point a [package.json] that parses to an object
    without a [version] leaves [packageVersion] undefined, not ['0.0.0']:
    the assignment has no [|| '0.0.0'], which [getPackageVersion] of the
    install and update commands has (they return ['0.0.0'] on the same
    file). *)
Theorem cli_packageVersion_undefined pr pr' fs text props :
  readFileSync (Path.join (Path.parent (dirname pr)) "package.json") fs
    = Some text ->
  readFileSync (Path.join (Update.getPackageRoot pr') "package.json") fs
    = Some text ->
  json_parse text = Some (JObj props) ->
  Alist.lookup "version" props = None ->
  Cli.packageVersion pr fs = JUndefined /\
  Update.getPackageVersion pr' fs = JStr "0.0.0" /\
  Install.getPackageVersion pr' fs = JStr "0.0.0".
Proof.
  intros Hcli Hpkg Hparse Hp.
  unfold Cli.packageVersion, Install.getPackageVersion,
    Update.getPackageVersion, Install.getPackageRoot, Update.getPackageRoot
    in *.
  rewrite Hcli, Hpkg, Hparse. unfold js_get, js_or. rewrite Hp.
  repeat split; reflexivity.
Qed.

End Versions.

(** C9: the failing input, a [package.json] that holds an empty object. *)
Lemma cli_packageVersion_undefined_witness :
  @Cli.packageVersion Demo.demo Demo.cli_pr
     (Dir [("pkg", Demo.pkg_tree "{}")]) = JUndefined /\
  @Update.getPackageVersion Demo.demo (Demo.update_pr "" "")
     (Dir [("pkg", Demo.pkg_tree "{}")]) = JStr "0.0.0" /\
  @Install.getPackageVersion Demo.demo (Demo.update_pr "" "")
     (Dir [("pkg", Demo.pkg_tree "{}")]) = JStr "0.0.0".
Proof.
  apply (@cli_packageVersion_undefined Demo.demo Demo.cli_pr
           (Demo.update_pr "" "") (Dir [("pkg", Demo.pkg_tree "{}")]) "{}" []);
    reflexivity.
Defined.

(** * Further properties of the commands *)

(** ** What a copy takes, leaves and keeps *)

Lemma lookup_None_notin {A : Type} k (l : list (string * A)) :
  Alist.lookup k l = None -> ~ In k (map fst l).
Proof.
  induction l as [|[k0 v0] l IH]; simpl; [tauto|].
  destruct (k =? k0) eqn:Hk; [discriminate|].
  apply String.eqb_neq in Hk. intros H [Heq | Hin]; [congruence | now apply IH].
Qed.

Lemma wf_entries_fresh seen es x :
  wf_entries seen es = true -> In x seen -> ~ In x (map fst es).
Proof.
  revert seen. induction es as [|[k v] es IH]; intros seen; simpl; [tauto|].
  intros H Hx. apply andb_true_iff in H as [H Hes].
  apply andb_true_iff in H as [Hk _].
  apply negb_true_iff, existsb_eqb_false in Hk.
  intros [-> | Hin]; [contradiction|].
  apply (IH (k :: seen) Hes); [now right | exact Hin].
Qed.

(** The items loop leaves alone a name that the filter rejects or that the
    source does not have. *)
Lemma copy_items_untouched o sp es x :
  filter o (sp ++ [x]) = false \/ ~ In x (map fst es) ->
  forall des res,
    copy_items o sp es des = Some res ->
    Alist.lookup x res = Alist.lookup x des.
Proof.
  intros Hx. induction es as [|[k c] es IH]; intros des res; simpl.
  - now intros [= <-].
  - assert (Hx' : filter o (sp ++ [x]) = false \/ ~ In x (map fst es)).
    { destruct Hx as [Hx | Hx]; [now left | right]. simpl in Hx. tauto. }
    destruct (filter o (sp ++ [k])) eqn:Hf; [|exact (IH Hx' des res)].
    destruct (copy_node o (sp ++ [k]) c (Alist.lookup k des)) as [c'|];
      [|discriminate].
    intros H. rewrite (IH Hx' _ _ H). apply lookup_put_other.
    intros ->. destruct Hx as [Hx | Hx]; [congruence|]. apply Hx. now left.
Qed.

(** What the items loop leaves under a name the source has and the filter
    accepts is the copy of that item. *)
Lemma copy_items_lookup o sp es x c0 :
  filter o (sp ++ [x]) = true ->
  forall seen des res,
    wf_entries seen es = true ->
    copy_items o sp es des = Some res ->
    Alist.lookup x es = Some c0 ->
    exists c', copy_node o (sp ++ [x]) c0 (Alist.lookup x des) = Some c' /\
               Alist.lookup x res = Some c'.
Proof.
  intros Hf. induction es as [|[k c] es IH]; intros seen des res; simpl;
    [discriminate|].
  intros Hwf. apply andb_true_iff in Hwf as [Hwf Hes].
  destruct (String.eqb_spec x k) as [-> | Hne].
  - rewrite Hf.
    destruct (copy_node o (sp ++ [k]) c (Alist.lookup k des)) as [c'|] eqn:Hc;
      [|discriminate].
    intros H [= <-]. exists c'. split; [exact Hc|].
    rewrite (copy_items_untouched o sp es k) with (des := Alist.put k c' des)
                                                    (res := res).
    + apply lookup_put_same.
    + right. apply (wf_entries_fresh _ _ _ Hes). now left.
    + exact H.
  - destruct (filter o (sp ++ [k])).
    + destruct (copy_node o (sp ++ [k]) c (Alist.lookup k des)) as [c'|];
        [|discriminate].
      intros H Hl. destruct (IH _ _ _ Hes H Hl) as (c'' & Hc & Hr).
      rewrite lookup_put_other in Hc by exact Hne. eauto.
    + intros H Hl. exact (IH _ _ _ Hes H Hl).
Qed.

(** A regular file of the source whose path the filter accepts is in the
    copy, when the copy overwrites or nothing is in its way. *)
Lemma copy_node_file o s :
  forall sp d n r c,
    wf s = true ->
    copy_node o sp s d = Some n ->
    get r (Some s) = Some (File c) ->
    accepted o sp r = true ->
    overwrite o = true \/ get r d = None ->
    get r (Some n) = Some (File c).
Proof.
  induction s as [c0 | es IH] using node_induction;
    intros sp d n r c Hwf Hc Hr Ha Ho.
  - destruct r as [|x r]; [|discriminate Hr]. simpl in Hr. injection Hr as ->.
    simpl in Hc. destruct d as [[c'|des]|]; try discriminate.
    + destruct Ho as [Ho | Ho]; [|discriminate Ho]. rewrite Ho in Hc.
      now injection Hc as <-.
    + now injection Hc as <-.
  - destruct r as [|x r]; [discriminate Hr|].
    simpl in Hr. destruct (Alist.lookup x es) as [c0|] eqn:Hl;
      [|now rewrite get_None in Hr].
    simpl in Ha. apply andb_true_iff in Ha as [Hf Ha].
    rewrite wf_Dir in Hwf. rewrite copy_node_Dir in Hc.
    assert (Hin : In (x, c0) es) by (now apply lookup_In).
    pose proof (proj1 (Forall_forall _ _) IH _ Hin) as IHc. simpl in IHc.
    assert (Hstep : forall des res,
              copy_items o sp es des = Some res ->
              overwrite o = true \/ get r (Alist.lookup x des) = None ->
              get (x :: r) (Some (Dir res)) = Some (File c)).
    { intros des res Hres Ho'.
      destruct (copy_items_lookup o sp es x c0 Hf _ _ _ Hwf Hres Hl)
        as (c' & Hc' & Hlr).
      simpl. rewrite Hlr.
      exact (IHc _ _ _ _ _ (wf_entries_lookup _ _ _ _ Hwf Hl) Hc' Hr Ha Ho'). }
    destruct d as [[c'|des]|]; try discriminate.
    + destruct (copy_items o sp es des) as [res|] eqn:Hres; [|discriminate].
      injection Hc as <-. apply (Hstep des res Hres).
      destruct Ho as [Ho | Ho]; [now left | right; exact Ho].
    + destruct (copy_items o sp es []) as [res|] eqn:Hres; [|discriminate].
      injection Hc as <-. apply (Hstep [] res Hres). right. apply get_None.
Qed.

(** Every regular file of a copy made where nothing was comes from the
    source, along a path the filter accepts. *)
Lemma copy_node_origin o s :
  forall sp n r c,
    wf s = true ->
    copy_node o sp s None = Some n ->
    get r (Some n) = Some (File c) ->
    get r (Some s) = Some (File c) /\ accepted o sp r = true.
Proof.
  induction s as [c0 | es IH] using node_induction; intros sp n r c Hwf Hc Hr.
  - simpl in Hc. injection Hc as <-.
    destruct r as [|x r]; [|discriminate Hr]. now split.
  - rewrite copy_node_Dir in Hc. rewrite wf_Dir in Hwf.
    destruct (copy_items o sp es []) as [res|] eqn:Hres; [|discriminate].
    injection Hc as <-.
    destruct r as [|x r]; [discriminate Hr|]. simpl in Hr.
    destruct (Alist.lookup x res) as [c'|] eqn:Hlr;
      [|now rewrite get_None in Hr].
    destruct (Alist.lookup x es) as [c0|] eqn:Hl.
    + destruct (filter o (sp ++ [x])) eqn:Hf.
      * destruct (copy_items_lookup o sp es x c0 Hf _ _ _ Hwf Hres Hl)
          as (c'' & Hc'' & Hlr'').
        rewrite Hlr in Hlr''. injection Hlr'' as <-. simpl in Hc''.
        assert (Hin : In (x, c0) es) by (now apply lookup_In).
        pose proof (proj1 (Forall_forall _ _) IH _ Hin) as IHc. simpl in IHc.
        destruct (IHc _ _ _ _ (wf_entries_lookup _ _ _ _ Hwf Hl) Hc'' Hr)
          as [Hs Ha].
        simpl. now rewrite Hl, Hf, Ha.
      * rewrite (copy_items_untouched o sp es x (or_introl Hf) _ _ Hres)
          in Hlr. discriminate Hlr.
    + rewrite (copy_items_untouched o sp es x
                 (or_intror (lookup_None_notin _ _ Hl)) _ _ Hres) in Hlr.
      discriminate Hlr.
Qed.

(** A copy changes nothing below a name of the source directory that the
    filter rejects. *)
Lemma copy_node_rejected o sp s d n x r :
  copy_node o sp s d = Some n ->
  filter o (sp ++ [x]) = false ->
  get (x :: r) (Some n) = get (x :: r) d.
Proof.
  intros Hc Hf. destruct s as [c|es].
  - simpl in Hc. destruct d as [[c'|des]|]; try discriminate.
    + destruct (overwrite o); [now injection Hc as <-|].
      destruct (errorOnExist o); [discriminate | now injection Hc as <-].
    + now injection Hc as <-.
  - rewrite copy_node_Dir in Hc. destruct d as [[c'|des]|]; try discriminate.
    + destruct (copy_items o sp es des) as [res|] eqn:Hres; [|discriminate].
      injection Hc as <-. simpl.
      now rewrite (copy_items_untouched o sp es x (or_introl Hf) _ _ Hres).
    + destruct (copy_items o sp es []) as [res|] eqn:Hres; [|discriminate].
      injection Hc as <-. simpl.
      rewrite (copy_items_untouched o sp es x (or_introl Hf) _ _ Hres).
      simpl. apply get_None.
Qed.

Lemma copy_items_keeps o sp es x r c :
  overwrite o = false ->
  Forall (fun e => forall sp' d n r' c',
            copy_node o sp' (snd e) d = Some n ->
            get r' d = Some (File c') -> get r' (Some n) = Some (File c')) es ->
  forall des res,
    copy_items o sp es des = Some res ->
    get r (Alist.lookup x des) = Some (File c) ->
    get r (Alist.lookup x res) = Some (File c).
Proof.
  intros Ho. induction 1 as [|[k v] es Hv _ IH]; intros des res; simpl.
  - now intros [= <-].
  - destruct (filter o (sp ++ [k])); [|apply IH].
    destruct (copy_node o (sp ++ [k]) v (Alist.lookup k des)) as [c'|] eqn:Hc;
      [|discriminate].
    intros H Hg. apply (IH _ _ H).
    destruct (String.eqb_spec x k) as [-> | Hne].
    + rewrite lookup_put_same. exact (Hv _ _ _ _ _ Hc Hg).
    + now rewrite lookup_put_other.
Qed.

(** Without [overwrite], a copy keeps every regular file that was at the
    destination. *)
Lemma copy_node_keeps o s :
  overwrite o = false ->
  forall sp d n r c,
    copy_node o sp s d = Some n ->
    get r d = Some (File c) ->
    get r (Some n) = Some (File c).
Proof.
  intros Ho. induction s as [c0 | es IH] using node_induction;
    intros sp d n r c Hc Hg.
  - simpl in Hc. destruct d as [[c'|des]|]; try discriminate.
    + rewrite Ho in Hc. destruct (errorOnExist o); [discriminate|].
      now injection Hc as <-.
    + now rewrite get_None in Hg.
  - rewrite copy_node_Dir in Hc. destruct d as [[c'|des]|]; try discriminate.
    + destruct (copy_items o sp es des) as [res|] eqn:Hres; [|discriminate].
      injection Hc as <-.
      destruct r as [|x r]; [discriminate Hg|]. simpl in Hg |- *.
      exact (copy_items_keeps o sp es x r c Ho IH _ _ Hres Hg).
    + now rewrite get_None in Hg.
Qed.

(** The node at the destination of a copy, whether or not the filter takes
    the source. *)
Lemma copy_dest o src dest fs fs' :
  copy o src dest fs = Some fs' ->
  exists s, get src (Some fs) = Some s /\
    (if filter o src
     then copy_node o src s (get dest (Some fs)) = get dest (Some fs')
     else fs' = fs).
Proof.
  intros H. destruct (filter o src) eqn:Hf.
  - exact (copy_same _ _ _ _ _ H Hf).
  - unfold copy in H. destruct (get src (Some fs)) as [s|]; [|discriminate].
    exists s. split; [reflexivity|].
    destruct (Path.eqb src dest); [discriminate|].
    destruct (is_dir (Some s) && is_file _); [discriminate|].
    destruct (is_file (Some s) && is_dir _); [discriminate|].
    destruct (is_dir (Some s) && Path.prefixb _ _); [discriminate|].
    rewrite Hf in H. simpl in H. now injection H as <-.
Qed.

(** ** The update command: the run, step by step *)

Section UpdateRun.
Context {E : Externals}.

(** A completed [update], as the sequence of its writes. *)
Lemma updateAction_run pr opts fs fs' :
  Update.updateAction pr opts fs = Done fs' ->
  let packageRoot := Update.getPackageRoot pr in
  let target := Path.join (cwd pr) ".aios-core" in
  let claudeMdPath := Path.join (Path.join (cwd pr) ".claude") "CLAUDE.md" in
  let settingsLocalPath :=
    Path.join (Path.join (cwd pr) ".claude") "settings.local.json" in
  exists backups claudeMdBackup settingsLocalBackup fs4 fs5 fs6 fs7 text,
    Update.backup_configs target Update.LOCAL_CONFIGS fs [] = Some backups /\
    Update.backup_optional claudeMdPath fs = Some claudeMdBackup /\
    Update.backup_optional settingsLocalPath fs = Some settingsLocalBackup /\
    copy {| filter := Update.copy_filter (force opts) packageRoot;
            overwrite := true; errorOnExist := false |}
         packageRoot target fs = Some fs4 /\
    Update.update_claude opts packageRoot (cwd pr) claudeMdBackup fs4
      = Some fs5 /\
    Update.restore_configs target backups fs5 = Some fs6 /\
    Update.restore_settingsLocal settingsLocalPath settingsLocalBackup fs6
      = Some fs7 /\
    writeFileSync (Path.join target "install-manifest.yaml") text fs7
      = Some fs'.
Proof.
  intros H packageRoot target claudeMdPath settingsLocalPath.
  apply updateAction_Done in H as (_ & b & fs6 & Hsr & Hw).
  apply write_manifest_inv in Hw as (manifest & text & _ & _ & Hw).
  unfold Update.sync_and_restore in Hsr.
  bind_inv Hsr as backups Hb.
  bind_inv Hsr as claudeMdBackup Hmd.
  bind_inv Hsr as settingsLocalBackup Hs.
  bind_inv Hsr as fs4 H4.
  bind_inv Hsr as fs5 H5.
  bind_inv Hsr as fs6a H6.
  bind_inv Hsr as fs6b H6'.
  injection Hsr as <- <-.
  exists backups, claudeMdBackup, settingsLocalBackup, fs4, fs5, fs6a, fs6b,
    text.
  repeat split; assumption.
Qed.

(** The names of the snapshot are names of the list. *)
Lemma backup_configs_names t cs fs acc b :
  Update.backup_configs t cs fs acc = Some b ->
  forall f, In f (map fst b) -> In f cs \/ In f (map fst acc).
Proof.
  revert acc. induction cs as [|c cs IH]; intros acc; simpl.
  - intros [= <-] f. tauto.
  - destruct (existsSync (Path.join t c) fs).
    + intros H f Hin. bind_inv H as content Hc.
      destruct (IH _ H f Hin) as [Hcs | Hcs]; [tauto|].
      apply put_keys in Hcs. destruct Hcs as [-> | Hcs]; tauto.
    + intros H f Hin. destruct (IH _ H f Hin); tauto.
Qed.

(** Step 5 writes at five places of [.claude] only. *)
Lemma update_claude_writes opts root cwd backup fs fs' q :
  Update.update_claude opts root cwd backup fs = Some fs' ->
  (forall name, In name ["commands"; "rules"; "hooks"; "settings.json";
                         "CLAUDE.md"] ->
     Path.diverge (Path.join (Path.join cwd ".claude") name) q = true) ->
  get q (Some fs') = get q (Some fs).
Proof.
  unfold Update.update_claude.
  destruct (existsSync (Path.join root "claude-config") fs);
    [|now intros [= <-]].
  intros H Hq.
  bind_inv H as fs1 H1. bind_inv H as fs2 H2. bind_inv H as fs3 H3.
  bind_inv H as fs4 H4.
  rewrite (update_claudeMd_frame _ _ _ _ _ _ _ H) by (apply Hq; simpl; tauto).
  rewrite (update_settings_frame _ _ _ _ _ H4) by (apply Hq; simpl; tauto).
  rewrite (replace_catalog_frame _ _ _ _ _ _ H3) by (apply Hq; simpl; tauto).
  rewrite (replace_catalog_frame _ _ _ _ _ _ H2) by (apply Hq; simpl; tauto).
  apply (replace_catalog_frame _ _ _ _ _ _ H1). apply Hq. simpl. tauto.
Qed.

(** X1.  A completed [update] has changed nothing outside the project's
    [.aios-core] and [.claude]: every path that leaves both is as it was; in
    particular the package directory, when it lies outside them. *)
Theorem update_changes_only_project_dirs pr opts fs fs' q :
  Update.updateAction pr opts fs = Done fs' ->
  Path.diverge (Path.join (cwd pr) ".aios-core") q = true ->
  Path.diverge (Path.join (cwd pr) ".claude") q = true ->
  get q (Some fs') = get q (Some fs).
Proof.
  intros H Ha Hc.
  apply updateAction_run in H
    as (b & mdb & slb & fs4 & fs5 & fs6 & fs7 & text
        & _ & _ & _ & H4 & H5 & H6 & H7 & H8).
  rewrite (writeFileSync_frame _ _ _ _ _ H8) by (now apply diverge_app_l).
  rewrite (restore_settingsLocal_frame _ _ _ _ _ H7)
    by (now apply diverge_app_l).
  rewrite (restore_configs_frame_below _ _ _ _ _ H6 Ha).
  rewrite (update_claude_writes _ _ _ _ _ _ _ H5)
    by (intros name _; now apply diverge_app_l).
  exact (copy_frame _ _ _ _ _ _ H4 Ha).
Qed.

(** X2.  A completed [update] leaves [.claude/settings.local.json] absent
    when it was absent and, when it was a regular file, with the contents
    of its snapshot: its bytes decoded as UTF-8 and encoded again, which
    are the same bytes when the file is well-formed UTF-8; this whatever
    the package holds and with or without [--force]. *)
Theorem update_keeps_settings_local pr opts fs fs' :
  Update.updateAction pr opts fs = Done fs' ->
  get (Path.join (Path.join (cwd pr) ".claude") "settings.local.json")
    (Some fs') =
  match
    get (Path.join (Path.join (cwd pr) ".claude") "settings.local.json")
      (Some fs)
  with
  | Some (File c) => Some (File (Utf8.decode c))
  | other => other
  end.
Proof.
  intros H.
  apply updateAction_run in H
    as (b & mdb & slb & fs4 & fs5 & fs6 & fs7 & text
        & _ & _ & Hsl & H4 & H5 & H6 & H7 & H8).
  set (q := Path.join (Path.join (cwd pr) ".claude") "settings.local.json")
    in *.
  assert (H56 : get q (Some fs6) = get q (Some fs)).
  { rewrite (restore_configs_frame_below _ _ _ _ _ H6) by (subst q; paths).
    rewrite (update_claude_writes _ _ _ _ _ _ _ H5).
    - apply (copy_frame _ _ _ _ _ _ H4). subst q. paths.
    - intros name Hin. subst q. apply diverge_join. simpl in Hin.
      intuition (subst; discriminate). }
  rewrite (writeFileSync_frame _ _ _ _ _ H8) by (subst q; paths).
  apply backup_optional_inv in Hsl as [-> Hnd].
  unfold Update.restore_settingsLocal in H7.
  destruct (get q (Some fs)) as [[c|es]|] eqn:Hg; [| discriminate Hnd |].
  - apply file_bytes_get in Hg.
    rewrite (readFileSync_bytes _ _ _ Hg) in H7. cbn [truthy_text] in H7.
    destruct (Utf8.decode c =? "") eqn:He; cbn [negb] in H7.
    + injection H7 as <-. apply String.eqb_eq in He.
      rewrite He, H56. now rewrite (decode_nonempty _ He).
    + apply writeFileSync_same in H7. now apply file_bytes_get.
  - assert (Hr : readFileSync q fs = None)
      by (unfold readFileSync, file_bytes; now rewrite Hg).
    rewrite Hr in H7. injection H7 as <-. now rewrite H56.
Qed.

End UpdateRun.

(** The node a copy leaves at its destination, when the filter takes the
    source. *)
Lemma copy_result o src dest fs fs' :
  copy o src dest fs = Some fs' -> filter o src = true ->
  exists s n, get src (Some fs) = Some s /\
    copy_node o src s (get dest (Some fs)) = Some n /\
    get dest (Some fs') = Some n.
Proof.
  intros H Hf. destruct (copy_same _ _ _ _ _ H Hf) as (s & Hs & Hc).
  exists s. unfold copy in H. rewrite Hs in H.
  destruct (Path.eqb src dest); [discriminate|].
  destruct (is_dir (Some s) && is_file _); [discriminate|].
  destruct (is_file (Some s) && is_dir _); [discriminate|].
  destruct (is_dir (Some s) && Path.prefixb _ _); [discriminate|].
  rewrite Hf in H. simpl in H.
  destruct (copy_node o src s (get dest (Some fs))) as [n|] eqn:Hn.
  - exists n. repeat split; [exact Hs | now symmetry].
  - exfalso.
    destruct (existsSync (Path.parent dest) fs) eqn:He.
    + apply alter_fs_same in H. rewrite Hn in H. discriminate H.
    + destruct (mkdirs_node _ _) as [fs1|] eqn:Hm; [|discriminate].
      assert (Hd : get dest (Some fs1) = get dest (Some fs)).
      { apply (get_mkdirs _ _ _ _ Hm). apply prefixb_self_removelast.
        intros ->. discriminate He. }
      apply alter_fs_same in H. rewrite Hd, Hn in H. discriminate H.
Qed.

(** ** The update command: [.claude] *)

Section UpdateClaudeMore.
Context {E : Externals}.

(** Step 5 reads the package as it was before the step. *)
Lemma update_claude_settings opts root cwd backup fs fs' t :
  Update.update_claude opts root cwd backup fs = Some fs' ->
  file_bytes (Path.join (Path.join root "claude-config") "settings.json") fs
    = Some t ->
  Path.diverge (Path.join cwd ".claude") root = true ->
  file_bytes (Path.join (Path.join cwd ".claude") "settings.json") fs'
    = Some t.
Proof.
  unfold Update.update_claude. intros H Ht Hd.
  assert (He : existsSync (Path.join root "claude-config") fs = true).
  { apply (existsSync_parent _ "settings.json").
    exact (file_bytes_exists _ _ _ Ht). }
  rewrite He in H.
  bind_inv H as fs1 H1. bind_inv H as fs2 H2. bind_inv H as fs3 H3.
  bind_inv H as fs4 H4.
  apply file_bytes_get.
  rewrite (update_claudeMd_frame _ _ _ _ _ _ _ H) by paths.
  assert (Hsrc : get (Path.join (Path.join root "claude-config")
                        "settings.json") (Some fs3) = Some (File t)).
  { rewrite (replace_catalog_frame _ _ _ _ _ _ H3) by paths.
    rewrite (replace_catalog_frame _ _ _ _ _ _ H2) by paths.
    rewrite (replace_catalog_frame _ _ _ _ _ _ H1) by paths.
    now apply file_bytes_get. }
  unfold Update.update_settings in H4.
  assert (He3 : existsSync (Path.join (Path.join root "claude-config")
                              "settings.json") fs3 = true)
    by (apply existsSync_get; eauto).
  rewrite He3 in H4.
  apply copy_result in H4 as (s & n & Hs & Hn & Hg); [|reflexivity].
  rewrite Hsrc in Hs. injection Hs as <-. rewrite Hg. f_equal.
  simpl in Hn.
  destruct (get (Path.join (Path.join cwd ".claude") "settings.json")
              (Some fs3)) as [[c|des]|]; simpl in Hn; congruence.
Qed.

(** Step 5 leaves alone a place of [.claude] whose source the package does
    not have. *)
Lemma update_claude_missing_source opts root cwd backup fs fs' name q :
  Update.update_claude opts root cwd backup fs = Some fs' ->
  In name ["commands"; "rules"; "hooks"; "settings.json"; "CLAUDE.md"] ->
  existsSync (Path.join (Path.join root "claude-config") name) fs = false ->
  Path.diverge (Path.join cwd ".claude") root = true ->
  (forall other, In other ["commands"; "rules"; "hooks"; "settings.json";
                           "CLAUDE.md"] ->
     other <> name ->
     Path.diverge (Path.join (Path.join cwd ".claude") other) q = true) ->
  get q (Some fs') = get q (Some fs).
Proof.
  unfold Update.update_claude. intros H Hin Hsrc Hd Hq.
  destruct (existsSync (Path.join root "claude-config") fs);
    [|now injection H as <-].
  bind_inv H as fs1 H1. bind_inv H as fs2 H2. bind_inv H as fs3 H3.
  bind_inv H as fs4 H4.
  assert (S1 : existsSync (Path.join (Path.join root "claude-config") name) fs1
               = false).
  { unfold existsSync in *.
    rewrite (replace_catalog_frame _ _ _ _ _ _ H1) by paths. exact Hsrc. }
  assert (S2 : existsSync (Path.join (Path.join root "claude-config") name) fs2
               = false).
  { unfold existsSync in *.
    rewrite (replace_catalog_frame _ _ _ _ _ _ H2) by paths. exact S1. }
  assert (S3 : existsSync (Path.join (Path.join root "claude-config") name) fs3
               = false).
  { unfold existsSync in *.
    rewrite (replace_catalog_frame _ _ _ _ _ _ H3) by paths. exact S2. }
  assert (S4 : existsSync (Path.join (Path.join root "claude-config") name) fs4
               = false).
  { unfold existsSync in *.
    rewrite (update_settings_frame _ _ _ _ _ H4) by paths. exact S3. }
  assert (F1 : get q (Some fs1) = get q (Some fs)).
  { destruct (String.eqb_spec name "commands") as [-> | Hn].
    - unfold Update.replace_catalog in H1. rewrite Hsrc in H1.
      now injection H1 as <-.
    - apply (replace_catalog_frame _ _ _ _ _ _ H1).
      apply Hq; [simpl; tauto | congruence]. }
  assert (F2 : get q (Some fs2) = get q (Some fs1)).
  { destruct (String.eqb_spec name "rules") as [-> | Hn].
    - unfold Update.replace_catalog in H2. rewrite S1 in H2.
      now injection H2 as <-.
    - apply (replace_catalog_frame _ _ _ _ _ _ H2).
      apply Hq; [simpl; tauto | congruence]. }
  assert (F3 : get q (Some fs3) = get q (Some fs2)).
  { destruct (String.eqb_spec name "hooks") as [-> | Hn].
    - unfold Update.replace_catalog in H3. rewrite S2 in H3.
      now injection H3 as <-.
    - apply (replace_catalog_frame _ _ _ _ _ _ H3).
      apply Hq; [simpl; tauto | congruence]. }
  assert (F4 : get q (Some fs4) = get q (Some fs3)).
  { destruct (String.eqb_spec name "settings.json") as [-> | Hn].
    - unfold Update.update_settings in H4. rewrite S3 in H4.
      now injection H4 as <-.
    - apply (update_settings_frame _ _ _ _ _ H4).
      apply Hq; [simpl; tauto | congruence]. }
  assert (F5 : get q (Some fs') = get q (Some fs4)).
  { destruct (String.eqb_spec name "CLAUDE.md") as [-> | Hn].
    - unfold Update.update_claudeMd in H. rewrite S4 in H.
      now injection H as <-.
    - apply (update_claudeMd_frame _ _ _ _ _ _ _ H).
      apply Hq; [simpl; tauto | congruence]. }
  congruence.
Qed.

(** X3.  When the package has [claude-config/settings.json], a completed
    [update] leaves its text in [.claude/settings.json], whatever was there
    and with or without [--force].  The package directory is assumed to lie
    outside the project's [.aios-core] and [.claude]. *)
Theorem update_installs_settings_json pr opts fs fs' t :
  Update.updateAction pr opts fs = Done fs' ->
  Path.diverge (Path.join (cwd pr) ".aios-core") (Update.getPackageRoot pr)
    = true ->
  Path.diverge (Path.join (cwd pr) ".claude") (Update.getPackageRoot pr)
    = true ->
  file_bytes
    (Path.join (Path.join (Update.getPackageRoot pr) "claude-config")
       "settings.json") fs = Some t ->
  file_bytes (Path.join (Path.join (cwd pr) ".claude") "settings.json") fs'
    = Some t.
Proof.
  intros H Da Dc Ht.
  apply updateAction_run in H
    as (b & mdb & slb & fs4 & fs5 & fs6 & fs7 & text
        & _ & _ & _ & H4 & H5 & H6 & H7 & H8).
  apply file_bytes_get.
  rewrite (writeFileSync_frame _ _ _ _ _ H8) by paths.
  rewrite (restore_settingsLocal_frame _ _ _ _ _ H7) by paths.
  rewrite (restore_configs_frame_below _ _ _ _ _ H6) by paths.
  apply file_bytes_get.
  apply (update_claude_settings _ _ _ _ _ _ t H5); [|exact Dc].
  apply file_bytes_get.
  rewrite (copy_frame _ _ _ _ _ _ H4) by paths.
  now apply file_bytes_get.
Qed.


(** X5.  When the package has a template for [CLAUDE.md], a completed
    [update] leaves the template in [.claude/CLAUDE.md] if there was no
    local copy, or with [--force] whatever the local copy held.  The package
    directory is assumed to lie outside the project's [.aios-core] and
    [.claude]. *)
Theorem update_installs_claudeMd pr opts fs fs' t :
  Update.updateAction pr opts fs = Done fs' ->
  Path.diverge (Path.join (cwd pr) ".aios-core") (Update.getPackageRoot pr)
    = true ->
  Path.diverge (Path.join (cwd pr) ".claude") (Update.getPackageRoot pr)
    = true ->
  file_bytes
    (Path.join (Path.join (Update.getPackageRoot pr) "claude-config")
       "CLAUDE.md") fs = Some t ->
  existsSync (Path.join (Path.join (cwd pr) ".claude") "CLAUDE.md") fs = false
  \/ force opts = true ->
  file_bytes (Path.join (Path.join (cwd pr) ".claude") "CLAUDE.md") fs'
    = Some t.
Proof.
  intros H Da Dc Ht Hcase.
  rewrite (update_claudeMd_policy _ _ _ _ t H Da Dc Ht).
  destruct Hcase as [Hno | Hf].
  - apply existsSync_false in Hno. unfold readFileSync, file_bytes.
    now rewrite Hno.
  - rewrite Hf. now rewrite !orb_true_r.
Qed.

(** X6.  A catalog, [settings.json] or [CLAUDE.md] that the package does not
    have under [claude-config] is left as it was under [.claude] by a
    completed [update]: nothing is deleted for want of a source.  The
    package directory is assumed to lie outside the project's [.aios-core]
    and [.claude]. *)
Theorem update_keeps_what_package_lacks pr opts fs fs' name r :
  Update.updateAction pr opts fs = Done fs' ->
  In name ["commands"; "rules"; "hooks"; "settings.json"; "CLAUDE.md"] ->
  Path.diverge (Path.join (cwd pr) ".aios-core") (Update.getPackageRoot pr)
    = true ->
  Path.diverge (Path.join (cwd pr) ".claude") (Update.getPackageRoot pr)
    = true ->
  existsSync
    (Path.join (Path.join (Update.getPackageRoot pr) "claude-config") name) fs
    = false ->
  get (Path.join (Path.join (cwd pr) ".claude") name ++ r) (Some fs') =
  get (Path.join (Path.join (cwd pr) ".claude") name ++ r) (Some fs).
Proof.
  intros H Hin Da Dc Hno.
  apply updateAction_run in H
    as (b & mdb & slb & fs4 & fs5 & fs6 & fs7 & text
        & _ & _ & _ & H4 & H5 & H6 & H7 & H8).
  assert (Hq : forall other, other <> name ->
            Path.diverge (Path.join (Path.join (cwd pr) ".claude") other)
              (Path.join (Path.join (cwd pr) ".claude") name ++ r) = true).
  { intros other Hne. apply diverge_app_r. now apply diverge_join. }
  assert (Hn : name <> "settings.local.json")
    by (simpl in Hin; intuition (subst; discriminate)).
  rewrite (writeFileSync_frame _ _ _ _ _ H8)
    by (apply diverge_app_r; paths).
  rewrite (restore_settingsLocal_frame _ _ _ _ _ H7)
    by (apply Hq; congruence).
  rewrite (restore_configs_frame_below _ _ _ _ _ H6)
    by (apply diverge_app_r; paths).
  rewrite (update_claude_missing_source _ _ _ _ _ _ name _ H5 Hin).
  - apply (copy_frame _ _ _ _ _ _ H4). apply diverge_app_r. paths.
  - unfold existsSync in *. rewrite (copy_frame _ _ _ _ _ _ H4) by paths.
    exact Hno.
  - exact Dc.
  - intros other _ Hne. now apply Hq.
Qed.

End UpdateClaudeMore.

(** ** The filter of the framework copy *)

Lemma has_slash_app x t : has_slash (x ++ String "/" t) = true.
Proof.
  induction x as [|a x IH]; simpl; [reflexivity|].
  rewrite IH. apply orb_true_r.
Qed.

Lemma has_slash_concat x y r :
  has_slash (String.concat "/" (x :: y :: r)) = true.
Proof.
  change (String.concat "/" (x :: y :: r))
    with (x ++ String "/" (String.concat "/" (y :: r)))%string.
  apply has_slash_app.
Qed.

Lemma includes_no_slash names s :
  forallb (fun n => negb (has_slash n)) names = true ->
  has_slash s = true -> includes names s = false.
Proof.
  intros Hn Hs. unfold includes.
  destruct (existsb (String.eqb s) names) eqn:He; [|reflexivity].
  apply existsb_exists in He as (n & Hin & Heq). apply String.eqb_eq in Heq.
  subst n. rewrite forallb_forall in Hn. specialize (Hn s Hin).
  now rewrite Hs in Hn.
Qed.

(** X7.  The filter of the framework copy of [update], on a path below the
    package root: it rejects the path exactly when its first segment is in
    [COPY_EXCLUDE] or, without [--force], when the path is one of the three
    [LOCAL_CONFIGS] names directly below the root.  A file of such a name
    deeper in the tree is not protected. *)
Theorem update_copy_filter_spec force root x r :
  Update.copy_filter force root (root ++ x :: r) =
  negb (includes Update.COPY_EXCLUDE x)
  && (force || negb (match r with
                     | [] => includes Update.LOCAL_CONFIGS x
                     | _ :: _ => false
                     end)).
Proof.
  unfold Update.copy_filter. rewrite relative_app.
  destruct (includes Update.COPY_EXCLUDE x); [reflexivity|].
  destruct force; [reflexivity|].
  destruct r as [|y r].
  - unfold Path.to_string.
    change (String.concat "/" [x]) with x.
    now destruct (includes Update.LOCAL_CONFIGS x).
  - rewrite (includes_no_slash Update.LOCAL_CONFIGS); [reflexivity | reflexivity |].
    apply has_slash_concat.
Qed.

Lemma accepted_below o root x :
  (forall r1, filter o (root ++ x :: r1) = true) ->
  forall r pre, accepted o (root ++ x :: pre) r = true.
Proof.
  intros Hf. induction r as [|y r IH]; intros pre; simpl; [reflexivity|].
  replace ((root ++ x :: pre) ++ [y]) with (root ++ x :: (pre ++ [y]))
    by (now rewrite <- app_assoc).
  now rewrite Hf, IH.
Qed.

Lemma accepted_top o root x r :
  (forall r1, filter o (root ++ x :: r1) = true) ->
  accepted o root (x :: r) = true.
Proof.
  intros Hf. simpl.
  replace (root ++ [x]) with (root ++ x :: []) by reflexivity.
  now rewrite Hf, (accepted_below o root x Hf r []).
Qed.

Lemma update_filter_accepts force root x r :
  includes Update.COPY_EXCLUDE x = false ->
  includes Update.LOCAL_CONFIGS x = false ->
  Update.copy_filter force root (root ++ x :: r) = true.
Proof.
  unfold Update.copy_filter. rewrite relative_app. intros -> Hl.
  destruct force; [reflexivity|].
  destruct r as [|y r].
  - unfold Path.to_string.
    change (String.concat "/" [x]) with x. now rewrite Hl.
  - rewrite (includes_no_slash Update.LOCAL_CONFIGS); [reflexivity | reflexivity |].
    apply has_slash_concat.
Qed.

Lemma join_below t x r : Path.join t x ++ r = t ++ x :: r.
Proof. unfold Path.join. now rewrite <- app_assoc. Qed.

Lemma diverge_join_below t a b r :
  a <> b -> Path.diverge (Path.join t a) (Path.join t b ++ r) = true.
Proof.
  intros H. apply diverge_app_r. now apply diverge_join.
Qed.

Lemma includes_In names x : includes names x = true <-> In x names.
Proof.
  unfold includes. rewrite existsb_exists. split.
  - intros (n & Hin & Heq). apply String.eqb_eq in Heq. now subst.
  - intros Hin. exists x. split; [exact Hin | apply String.eqb_refl].
Qed.

Lemma includes_false names x : includes names x = false -> ~ In x names.
Proof.
  intros H Hin. apply includes_In in Hin. congruence.
Qed.

(** ** The update command: the framework directory *)

Section UpdateFramework.
Context {E : Externals}.

(** A listed file that exists is read into the snapshot, or the run
    throws. *)
Lemma backup_configs_reads t cs fs acc b f :
  Update.backup_configs t cs fs acc = Some b ->
  In f cs -> existsSync (Path.join t f) fs = true ->
  exists c, file_bytes (Path.join t f) fs = Some c.
Proof.
  revert acc. induction cs as [|c0 cs IH]; intros acc; simpl; [tauto|].
  destruct (existsSync (Path.join t c0) fs) eqn:He.
  - intros H Hin Hex. bind_inv H as content Hc.
    destruct Hin as [-> | Hin]; [|exact (IH _ H Hin Hex)].
    apply readFileSync_inv in Hc as (c & Hc & _). eauto.
  - intros H [-> | Hin] Hex; [congruence | exact (IH _ H Hin Hex)].
Qed.

(** What steps 5 to 7 change below [.aios-core]: the files of the snapshot
    and the manifest. *)
Lemma update_after_copy pr opts fs fs' q :
  Update.updateAction pr opts fs = Done fs' ->
  let target := Path.join (cwd pr) ".aios-core" in
  (forall f, In f Update.LOCAL_CONFIGS ->
     existsSync (Path.join target f) fs = true \/ f = "install-manifest.yaml" ->
     Path.diverge (Path.join target f) q = true) ->
  Path.diverge (Path.join (cwd pr) ".claude") q = true ->
  exists s n,
    get (Update.getPackageRoot pr) (Some fs) = Some s /\
    copy_node {| filter := Update.copy_filter (force opts)
                             (Update.getPackageRoot pr);
                 overwrite := true; errorOnExist := false |}
      (Update.getPackageRoot pr) s (get target (Some fs)) = Some n /\
    forall r, q = target ++ r -> get q (Some fs') = get r (Some n).
Proof.
  intros H target Hq Hc.
  apply updateAction_run in H
    as (b & mdb & slb & fs4 & fs5 & fs6 & fs7 & text
        & Hb & _ & _ & H4 & H5 & H6 & H7 & H8).
  fold target in Hb, H4, H6, H8.
  apply copy_result in H4 as (s & n & Hs & Hn & Hg).
  2:{ simpl. unfold Update.copy_filter. now rewrite relative_self. }
  exists s, n. split; [exact Hs|]. split; [exact Hn|].
  intros r ->.
  rewrite (writeFileSync_frame _ _ _ _ _ H8)
    by (apply Hq; [simpl; tauto | now right]).
  rewrite (restore_settingsLocal_frame _ _ _ _ _ H7)
    by (now apply diverge_app_l).
  rewrite (restore_configs_frame _ _ _ _ _ H6).
  - rewrite (update_claude_writes _ _ _ _ _ _ _ H5)
      by (intros name _; now apply diverge_app_l).
    now rewrite get_app, Hg.
  - intros f Hf.
    destruct (backup_configs_names _ _ _ _ _ Hb f Hf) as [Hin | []].
    apply Hq; [exact Hin|].
    destruct (existsSync (Path.join target f) fs) eqn:He; [now left|].
    exfalso. apply (lookup_None_notin f b); [|exact Hf].
    rewrite (backup_configs_lookup _ _ _ _ _ Hb), He.
    now rewrite andb_false_r.
Qed.

(** X8.  Without [--force], a completed [update] leaves [core-config.yaml]
    and [local-config.yaml] of the framework directory to the project,
    whatever the package holds under these names: still missing when they
    were missing and, when they were regular files, with the contents of
    their snapshot, that is their bytes decoded as UTF-8 and encoded again
    (the same bytes when the file is well-formed UTF-8). *)
Theorem update_leaves_local_configs_alone pr opts fs fs' f :
  Update.updateAction pr opts fs = Done fs' ->
  force opts = false ->
  In f ["core-config.yaml"; "local-config.yaml"] ->
  get (Path.join (Path.join (cwd pr) ".aios-core") f) (Some fs') =
  match get (Path.join (Path.join (cwd pr) ".aios-core") f) (Some fs) with
  | Some (File c) => Some (File (Utf8.decode c))
  | other => other
  end.
Proof.
  intros H Hforce Hin.
  set (target := Path.join (cwd pr) ".aios-core").
  assert (Hl : In f Update.LOCAL_CONFIGS) by (simpl in *; tauto).
  destruct (existsSync (Path.join target f) fs) eqn:He.
  - pose proof H as Hrun.
    apply updateAction_run in Hrun
      as (b & _ & _ & _ & _ & _ & _ & _ & Hb & _).
    destruct (backup_configs_reads _ _ _ _ _ f Hb Hl He) as (c & Hc).
    apply updateAction_Done in H as (_ & b' & fs6 & Hsr & Hw).
    apply write_manifest_inv in Hw as (m & text & _ & _ & Hw).
    rewrite (writeFileSync_frame _ _ _ _ _ Hw)
      by (apply diverge_join; simpl in Hin;
          intuition (subst; discriminate)).
    pose proof (proj2 (sync_and_restore_keeps _ _ _ _ _ Hsr) f c Hl Hc) as Hk.
    apply file_bytes_get in Hk, Hc. subst target. now rewrite Hk, Hc.
  - transitivity (get (Path.join target f) (Some fs));
      [|now rewrite (proj1 (existsSync_false _ _) He)].
    destruct (update_after_copy pr opts fs fs' (Path.join target f) H)
      as (s & n & Hs & Hn & Hget).
    + intros f' Hf' [Hex | ->]; apply diverge_join.
      * intros ->. fold target in Hex. congruence.
      * simpl in Hin. intuition (subst; discriminate).
    + subst target. paths.
    + rewrite (Hget [f] eq_refl).
      rewrite (copy_node_rejected _ _ _ _ _ f [] Hn).
      * subst target. unfold Path.join at 2.
        now rewrite (get_app (Path.join (cwd pr) ".aios-core") [f]).
      * simpl. rewrite Hforce.
        exact (proj1 (copy_filter_local_config _ f Hl)).
Qed.

(** X9.  With [--force], a [core-config.yaml] or [local-config.yaml] that
    the project did not have is, after a completed [update], the file of the
    package.  The package root is assumed to list no name twice. *)
Theorem update_force_installs_missing_config pr opts fs fs' f s c :
  Update.updateAction pr opts fs = Done fs' ->
  force opts = true ->
  In f ["core-config.yaml"; "local-config.yaml"] ->
  existsSync (Path.join (Path.join (cwd pr) ".aios-core") f) fs = false ->
  get (Update.getPackageRoot pr) (Some fs) = Some s ->
  wf s = true ->
  file_bytes (Path.join (Update.getPackageRoot pr) f) fs = Some c ->
  file_bytes (Path.join (Path.join (cwd pr) ".aios-core") f) fs' = Some c.
Proof.
  intros H Hforce Hin Hno Hs Hwf Hc.
  set (target := Path.join (cwd pr) ".aios-core") in *.
  assert (Hl : In f Update.LOCAL_CONFIGS) by (simpl in *; tauto).
  destruct (update_after_copy pr opts fs fs' (Path.join target f) H)
    as (s' & n & Hs' & Hn & Hget).
  - intros f' Hf' [Hex | ->]; apply diverge_join.
    + intros ->. fold target in Hex. congruence.
    + simpl in Hin. intuition (subst; discriminate).
  - subst target. paths.
  - rewrite Hs in Hs'. injection Hs' as <-.
    apply file_bytes_get. rewrite (Hget [f] eq_refl).
    apply (copy_node_file _ _ _ _ _ _ _ Hwf Hn).
    + apply file_bytes_get in Hc. unfold Path.join in Hc.
      now rewrite get_app, Hs in Hc.
    + simpl. rewrite Hforce, andb_true_r.
      exact (proj2 (copy_filter_local_config _ f Hl)).
    + now left.
Qed.

(** X10.  A completed [update] has written nothing below the entries of the
    framework directory named in [COPY_EXCLUDE] ([node_modules],
    [.DS_Store], [claude-config], [package-lock.json]): what the project had
    there is as it was, and what the package has there was not copied. *)
Theorem update_skips_excluded pr opts fs fs' x r :
  Update.updateAction pr opts fs = Done fs' ->
  In x Update.COPY_EXCLUDE ->
  get (Path.join (Path.join (cwd pr) ".aios-core") x ++ r) (Some fs') =
  get (Path.join (Path.join (cwd pr) ".aios-core") x ++ r) (Some fs).
Proof.
  intros H Hin.
  destruct (update_after_copy pr opts fs fs'
              (Path.join (Path.join (cwd pr) ".aios-core") x ++ r) H)
    as (s & n & Hs & Hn & Hget).
  - intros f Hf _. apply diverge_join_below. intros ->.
    simpl in Hin, Hf. intuition congruence.
  - apply diverge_app_r. paths.
  - rewrite (Hget (x :: r) (join_below _ x r)).
    rewrite (copy_node_rejected _ _ _ _ _ x r Hn).
    + now rewrite join_below,
        (get_app (Path.join (cwd pr) ".aios-core") (x :: r)).
    + simpl. exact (copy_filter_excluded _ _ x [] Hin).
Qed.

(** X11.  A completed [update] has brought in every regular file of the
    package whose first segment below the package root is neither in
    [COPY_EXCLUDE] nor a [LOCAL_CONFIGS] name: the framework directory holds
    it, at the same relative path, with the package's contents.  The package
    root is assumed to list no name twice at any depth. *)
Theorem update_copies_framework_files pr opts fs fs' s x r c :
  Update.updateAction pr opts fs = Done fs' ->
  get (Update.getPackageRoot pr) (Some fs) = Some s ->
  wf s = true ->
  includes Update.COPY_EXCLUDE x = false ->
  includes Update.LOCAL_CONFIGS x = false ->
  file_bytes (Update.getPackageRoot pr ++ x :: r) fs = Some c ->
  file_bytes (Path.join (cwd pr) ".aios-core" ++ x :: r) fs' = Some c.
Proof.
  intros H Hs Hwf Hx Hl Hc.
  destruct (update_after_copy pr opts fs fs'
              (Path.join (cwd pr) ".aios-core" ++ x :: r) H)
    as (s' & n & Hs' & Hn & Hget).
  - intros f Hf _. rewrite <- (join_below _ x r).
    apply diverge_join_below. intros ->.
    apply includes_false in Hl. contradiction.
  - apply diverge_app_r. paths.
  - rewrite Hs in Hs'. injection Hs' as <-.
    apply file_bytes_get. rewrite (Hget (x :: r) eq_refl).
    apply (copy_node_file _ _ _ _ _ _ _ Hwf Hn).
    + apply file_bytes_get in Hc.
      now rewrite (get_app (Update.getPackageRoot pr)), Hs in Hc.
    + apply accepted_top. intros r1. simpl.
      now apply update_filter_accepts.
    + now left.
Qed.

End UpdateFramework.

(** ** The update command: the fields of the manifest *)

Section UpdateManifestMore.
Context {E : Externals}.

(** X12.  When the manifest on disk loads, a completed [update] writes the
    manifest that keeps its [installed_at], stamps [updated_at] with the
    clock, records the package version as [version] and the version that was
    installed as [previous_version]. *)
Theorem update_manifest_of_loaded pr opts fs fs' text old v i :
  Update.updateAction pr opts fs = Done fs' ->
  readFileSync
    (Path.join (Path.join (cwd pr) ".aios-core") "install-manifest.yaml") fs
    = Some text ->
  text <> "" ->
  yaml_load text = Some old ->
  js_get old "version" = Some v -> truthy v = true ->
  js_get old "installed_at" = Some i ->
  exists text',
    yaml_dump (Update.manifest_of i (JStr (clock pr 0))
                 (Update.getPackageVersion pr fs) v
                 (Path.abs_string (Update.getPackageRoot pr))) = Some text' /\
    file_bytes
      (Path.join (Path.join (cwd pr) ".aios-core") "install-manifest.yaml") fs'
      = Some text'.
Proof.
  intros H Hr Hne Hl Hv Htv Hi.
  apply updateAction_manifest in H as (m & text' & Hm & Hd & Hw).
  exists text'. split; [|exact Hw]. rewrite <- Hd. f_equal.
  unfold Update.new_manifest in Hm. bind_inv Hm as b Hb.
  rewrite (read_currentVersion_loaded _ _ _ _ _ Hr Hl Hv Htv) in Hm.
  apply build_manifest_inv in Hm
    as [(t & old' & i' & Ht & _ & Hl' & Hi' & ->) | [Hf _]].
  - rewrite (backup_of_manifest _ _ _ _ Hb Hr) in Ht. injection Ht as <-.
    congruence.
  - rewrite (backup_of_manifest _ _ _ _ Hb Hr) in Hf. simpl in Hf.
    apply negb_false_iff, String.eqb_eq in Hf. contradiction.
Qed.

(** X13.  When the framework directory has no manifest, a completed
    [update] writes one whose [installed_at] and [updated_at] are two
    readings of the clock and whose [previous_version] is ['unknown']. *)
Theorem update_manifest_without_old pr opts fs fs' :
  Update.updateAction pr opts fs = Done fs' ->
  existsSync
    (Path.join (Path.join (cwd pr) ".aios-core") "install-manifest.yaml") fs
    = false ->
  exists text',
    yaml_dump (Update.manifest_of (JStr (clock pr 0)) (JStr (clock pr 1))
                 (Update.getPackageVersion pr fs) (JStr "unknown")
                 (Path.abs_string (Update.getPackageRoot pr))) = Some text' /\
    file_bytes
      (Path.join (Path.join (cwd pr) ".aios-core") "install-manifest.yaml") fs'
      = Some text'.
Proof.
  intros H Hno.
  apply updateAction_manifest in H as (m & text' & Hm & Hd & Hw).
  exists text'. split; [|exact Hw]. rewrite <- Hd. f_equal.
  unfold Update.new_manifest in Hm. bind_inv Hm as b Hb.
  rewrite read_currentVersion_unknown in Hm by now left.
  apply build_manifest_inv in Hm
    as [(t & old' & i' & Ht & _) | [_ ->]]; [|reflexivity].
  rewrite (backup_configs_lookup _ _ _ _ _ Hb), Hno, andb_false_r in Ht.
  discriminate Ht.
Qed.

End UpdateManifestMore.

(** ** The sync command: what it copies *)

Lemma sync_accepted sp r :
  accepted {| filter := Sync.sync_filter; overwrite := true;
              errorOnExist := false |} sp r =
  forallb (fun x => negb (includes Sync.NEVER_SYNC x)
                    && negb (x =? ".DS_Store")) r.
Proof.
  revert sp. induction r as [|x r IH]; intros sp; [reflexivity|].
  cbn [accepted forallb filter]. rewrite IH.
  unfold Sync.sync_filter. now rewrite basename_join.
Qed.

Lemma sync_filter_item cd item :
  In item Sync.SYNC_ITEMS -> Sync.sync_filter (Path.join cd item) = true.
Proof.
  unfold Sync.sync_filter, Path.join. rewrite basename_join. simpl.
  intros [<- | [<- | [<- | [<- | [<- | []]]]]]; reflexivity.
Qed.

(** The turn of one item in the loop: what it reads is what the loop
    started from, and what it leaves at its destination is there at the
    end. *)
Lemma sync_items_at cd ccd items fs fs' item :
  Sync.sync_items cd ccd items fs = Some fs' ->
  NoDup items ->
  (forall a b, Path.diverge (Path.join ccd a) (Path.join cd b) = true) ->
  In item items ->
  exists fsa fsb,
    Sync.sync_item cd ccd item fsa = Some fsb /\
    get (Path.join cd item) (Some fsa) = get (Path.join cd item) (Some fs) /\
    get (Path.join ccd item) (Some fsa) = get (Path.join ccd item) (Some fs) /\
    get (Path.join ccd item) (Some fs') = get (Path.join ccd item) (Some fsb).
Proof.
  revert fs. induction items as [|i0 items IH]; intros fs; simpl;
    [intros _ _ _ []|].
  intros H Hnd Hsep Hin. bind_inv H as fs1 H1.
  inversion Hnd as [|? ? Hnot Hnd']; subst.
  destruct Hin as [-> | Hin].
  - exists fs, fs1. repeat split; [exact H1|].
    apply (sync_items_frame _ _ _ _ _ _ H).
    intros it Hit. apply diverge_join. intros ->. contradiction.
  - destruct (IH _ H Hnd' Hsep Hin) as (fsa & fsb & Hi & Ha & Hb & Hc).
    exists fsa, fsb. repeat split; [exact Hi | | | exact Hc].
    + rewrite Ha. apply (sync_item_frame _ _ _ _ _ _ H1). apply Hsep.
    + rewrite Hb. apply (sync_item_frame _ _ _ _ _ _ H1).
      apply diverge_join. intros ->. contradiction.
Qed.

Lemma sync_item_dir cd ccd item fs fs' s :
  Sync.sync_item cd ccd item fs = Some fs' ->
  get (Path.join cd item) (Some fs) = Some s ->
  is_dir (Some s) = true ->
  Path.diverge (Path.join ccd item) (Path.join cd item) = true ->
  Sync.sync_filter (Path.join cd item) = true ->
  exists n,
    copy_node {| filter := Sync.sync_filter; overwrite := true;
                 errorOnExist := false |} (Path.join cd item) s None = Some n /\
    get (Path.join ccd item) (Some fs') = Some n.
Proof.
  unfold Sync.sync_item. intros H Hs Hd Hsep Hf.
  assert (He : existsSync (Path.join cd item) fs = true)
    by (apply existsSync_get; eauto).
  rewrite He, Hs, Hd in H. simpl in H. bind_inv H as fs1 Hr.
  apply copy_result in H as (s' & n & Hs' & Hn & Hg); [|exact Hf].
  rewrite (remove_frame _ _ _ _ Hr Hsep), Hs in Hs'. injection Hs' as <-.
  rewrite (remove_same _ _ _ Hr) in Hn. eauto.
Qed.

Lemma sync_item_file cd ccd item fs fs' c :
  Sync.sync_item cd ccd item fs = Some fs' ->
  get (Path.join cd item) (Some fs) = Some (File c) ->
  get (Path.join ccd item) (Some fs') = Some (File c).
Proof.
  unfold Sync.sync_item. intros H Hs.
  assert (He : existsSync (Path.join cd item) fs = true)
    by (apply existsSync_get; eauto).
  rewrite He, Hs in H. simpl in H.
  apply copy_result in H as (s' & n & Hs' & Hn & Hg); [|reflexivity].
  rewrite Hs in Hs'. injection Hs' as <-. rewrite Hg. f_equal.
  simpl in Hn.
  destruct (get (Path.join ccd item) (Some fs)) as [[c'|des]|];
    congruence.
Qed.

Lemma sync_items_NoDup : NoDup Sync.SYNC_ITEMS.
Proof.
  unfold Sync.SYNC_ITEMS.
  repeat (constructor; [simpl; intuition discriminate|]). constructor.
Qed.

Lemma sync_dirs_apart c a b :
  Path.diverge
    (Path.join (Path.join (Path.join c ".aios-core") "claude-config") a)
    (Path.join (Path.join c ".claude") b) = true.
Proof. paths. Qed.

(** A completed [sync], at one item: the turn of the item in the loop. *)
Lemma syncAction_at pr fs fs' item :
  Sync.syncAction pr fs = Done fs' ->
  In item Sync.SYNC_ITEMS ->
  let cd := Path.join (cwd pr) ".claude" in
  let ccd := Path.join (Path.join (cwd pr) ".aios-core") "claude-config" in
  exists fsa fsb,
    Sync.sync_item cd ccd item fsa = Some fsb /\
    get (Path.join cd item) (Some fsa) = get (Path.join cd item) (Some fs) /\
    (forall r, get (Path.join ccd item ++ r) (Some fsa) =
               get (Path.join ccd item ++ r) (Some fs)) /\
    (forall r, get (Path.join ccd item ++ r) (Some fs') =
               get r (get (Path.join ccd item) (Some fsb))).
Proof.
  intros H Hin cd ccd.
  apply syncAction_Done in H as (fs3 & fs4 & H3 & H4 & H5).
  fold cd ccd in H3, H4, H5.
  destruct (sync_items_at _ _ _ _ _ item H4 sync_items_NoDup
              (sync_dirs_apart (cwd pr)) Hin)
    as (fsa & fsb & Hi & Ha & Hb & Hc).
  exists fsa, fsb. unfold ensureDir in H3. repeat split.
  - exact Hi.
  - rewrite Ha. apply (get_mkdirs _ _ _ _ H3).
    subst cd ccd. unfold Path.join. repeat rewrite <- app_assoc. simpl app.
    rewrite prefixb_app_common. reflexivity.
  - intros r. rewrite !(get_app (Path.join ccd item) r), Hb.
    rewrite <- !(get_app (Path.join ccd item) r).
    apply (get_mkdirs _ _ _ _ H3).
    unfold Path.join. rewrite <- app_assoc. apply prefixb_longer.
  - intros r. rewrite (remove_forbidden_frame _ _ _ _ _ H5).
    + now rewrite (get_app (Path.join ccd item) r), Hc.
    + intros it [<- | []]. apply diverge_app_r. apply diverge_join.
      intros <-. simpl in Hin. intuition discriminate.
Qed.

(** X14.  After a completed [sync], an item of [SYNC_ITEMS] that is a
    directory in [.claude] is mirrored in [claude-config]: a regular file is
    at a path below the item in [claude-config] exactly when it is at that
    path below the item in [.claude] and no segment of the path is
    [settings.local.json] or [.DS_Store]; the contents are the same.  What
    [claude-config] held below the item before is gone. *)
Theorem sync_mirrors_directories pr fs fs' item s r c :
  Sync.syncAction pr fs = Done fs' ->
  In item Sync.SYNC_ITEMS ->
  get (Path.join (Path.join (cwd pr) ".claude") item) (Some fs) = Some s ->
  is_dir (Some s) = true ->
  wf s = true ->
  file_bytes
    (Path.join (Path.join (Path.join (cwd pr) ".aios-core") "claude-config")
       item ++ r) fs' = Some c
  <->
  file_bytes (Path.join (Path.join (cwd pr) ".claude") item ++ r) fs = Some c
  /\ forallb (fun x => negb (includes Sync.NEVER_SYNC x)
                       && negb (x =? ".DS_Store")) r = true.
Proof.
  intros H Hin Hs Hd Hwf.
  destruct (syncAction_at _ _ _ item H Hin) as (fsa & fsb & Hi & Ha & _ & Hc).
  rewrite <- Ha in Hs.
  destruct (sync_item_dir _ _ _ _ _ s Hi Hs Hd (sync_dirs_apart _ _ _)
              (sync_filter_item _ _ Hin)) as (n & Hn & Hg).
  rewrite !file_bytes_get, Hc, Hg.
  rewrite (get_app (Path.join (Path.join (cwd pr) ".claude") item) r).
  rewrite <- Ha, Hs, <- (sync_accepted (Path.join (Path.join (cwd pr) ".claude") item) r).
  split.
  - exact (copy_node_origin _ _ _ _ _ _ Hwf Hn).
  - intros [Hr Hacc].
    apply (copy_node_file _ _ _ _ _ _ _ Hwf Hn Hr Hacc). now left.
Qed.

(** X15.  After a completed [sync], an item of [SYNC_ITEMS] that is a
    regular file in [.claude] ([CLAUDE.md], [settings.json]) is in
    [claude-config] with the same contents. *)
Theorem sync_copies_file_items pr fs fs' item c :
  Sync.syncAction pr fs = Done fs' ->
  In item Sync.SYNC_ITEMS ->
  file_bytes (Path.join (Path.join (cwd pr) ".claude") item) fs = Some c ->
  file_bytes
    (Path.join (Path.join (Path.join (cwd pr) ".aios-core") "claude-config")
       item) fs' = Some c.
Proof.
  intros H Hin Hr.
  destruct (syncAction_at _ _ _ item H Hin) as (fsa & fsb & Hi & Ha & _ & Hc).
  apply file_bytes_get in Hr. rewrite <- Ha in Hr.
  apply file_bytes_get. specialize (Hc []). rewrite app_nil_r in Hc.
  rewrite Hc. simpl. exact (sync_item_file _ _ _ _ _ _ Hi Hr).
Qed.

(** X16.  An item of [SYNC_ITEMS] that [.claude] does not have is skipped by
    [sync]: what [claude-config] holds under that name is left as it is, not
    removed. *)
Theorem sync_skips_missing_items pr fs fs' item r :
  Sync.syncAction pr fs = Done fs' ->
  In item Sync.SYNC_ITEMS ->
  existsSync (Path.join (Path.join (cwd pr) ".claude") item) fs = false ->
  get (Path.join (Path.join (Path.join (cwd pr) ".aios-core") "claude-config")
         item ++ r) (Some fs') =
  get (Path.join (Path.join (Path.join (cwd pr) ".aios-core") "claude-config")
         item ++ r) (Some fs).
Proof.
  intros H Hin Hno.
  destruct (syncAction_at _ _ _ item H Hin) as (fsa & fsb & Hi & Ha & Hb & Hc).
  rewrite Hc, <- Hb. unfold Sync.sync_item in Hi.
  apply existsSync_false in Hno. rewrite <- Ha in Hno.
  apply existsSync_false in Hno. rewrite Hno in Hi. simpl in Hi.
  injection Hi as <-. now rewrite get_app.
Qed.

(** X17.  A completed [sync] writes below [claude-config] only: every path
    that parts ways with [.aios-core/claude-config] holds what it held, so
    [.claude] itself and the rest of the framework directory are as they
    were. *)
Theorem sync_changes_only_claude_config pr fs fs' q :
  Sync.syncAction pr fs = Done fs' ->
  Path.diverge
    (Path.join (Path.join (cwd pr) ".aios-core") "claude-config") q = true ->
  get q (Some fs') = get q (Some fs).
Proof.
  intros H Hq. apply syncAction_Done in H as (fs3 & fs4 & H3 & H4 & H5).
  rewrite (remove_forbidden_frame _ _ _ _ _ H5)
    by (intros; now apply diverge_app_l).
  rewrite (sync_items_frame _ _ _ _ _ _ H4)
    by (intros; now apply diverge_app_l).
  apply (get_mkdirs _ _ _ _ H3). now apply diverge_not_prefix.
Qed.

(** ** The install command: what it copies *)

Lemma accepted_all o sp r :
  (forall p, filter o p = true) -> accepted o sp r = true.
Proof.
  intros Hf. revert sp. induction r as [|x r IH]; intros sp; simpl;
    [reflexivity|].
  now rewrite Hf, IH.
Qed.

Lemma install_filter_accepts root x r :
  includes Install.COPY_EXCLUDE x = false ->
  Install.copy_filter root (root ++ x :: r) = true.
Proof.
  intros Hx. unfold Install.copy_filter. rewrite relative_app. now rewrite Hx.
Qed.

Lemma install_filter_excluded root x :
  In x Install.COPY_EXCLUDE ->
  Install.copy_filter root (root ++ [x]) = false.
Proof.
  intros Hin. unfold Install.copy_filter. rewrite relative_app.
  apply includes_In in Hin. now rewrite Hin.
Qed.

Section InstallRun.
Context {E : Externals}.

(** A completed [install], as the sequence of its writes. *)
Lemma installAction_run pr opts fs fs' :
  Install.installAction pr opts fs = Done fs' ->
  let packageRoot := Install.getPackageRoot pr in
  let target := Path.join (cwd pr) ".aios-core" in
  (existsSync target fs = false \/ force opts = true) /\
  exists fs3 fs4 text,
    copy {| filter := Install.copy_filter packageRoot;
            overwrite := force opts; errorOnExist := false |}
         packageRoot target fs = Some fs3 /\
    Install.setup_claude opts packageRoot (cwd pr) fs3 = Some fs4 /\
    yaml_dump (Install.build_manifest pr opts (Install.getPackageVersion pr fs)
                 packageRoot) = Some text /\
    writeFileSync (Path.join target "install-manifest.yaml") text
      (Install.install_deps opts target fs4) = Some fs'.
Proof.
  intros H packageRoot target. unfold Install.installAction in H.
  fold packageRoot target in H.
  destruct (existsSync target fs && negb (force opts)) eqn:H1;
    [discriminate|].
  destruct (Path.eqb (cwd pr) packageRoot
            || Path.eqb (cwd pr) (Path.parent packageRoot)); [discriminate|].
  split.
  - destruct (existsSync target fs); [right | now left].
    destruct (force opts); [reflexivity | discriminate].
  - apply finish_Done in H. bind_inv H as fs3 H3. bind_inv H as fs4 H4.
    bind_inv H as text Hd. eauto 8.
Qed.

Lemma setup_claude_frame opts root c fs fs' q :
  Install.setup_claude opts root c fs = Some fs' ->
  Path.diverge (Path.join c ".claude") q = true ->
  get q (Some fs') = get q (Some fs).
Proof.
  unfold Install.setup_claude. intros H Hq.
  destruct (existsSync (Path.join root "claude-config") fs);
    [|now injection H as <-].
  destruct (negb (existsSync (Path.join c ".claude") fs));
    [exact (copy_frame _ _ _ _ _ _ H Hq)|].
  destruct (force opts); exact (copy_frame _ _ _ _ _ _ H Hq).
Qed.

(** Step 4 of [install], when the package has a [claude-config]: one copy
    that takes every path, with fs-extra's defaults on a fresh [.claude] and
    under [--force], and without overwriting otherwise. *)
Lemma setup_claude_copy opts root c fs fs' s :
  Install.setup_claude opts root c fs = Some fs' ->
  get (Path.join root "claude-config") (Some fs) = Some s ->
  exists o n,
    (forall p, filter o p = true) /\
    (o = default_opts /\
     (existsSync (Path.join c ".claude") fs = false \/ force opts = true)
     \/
     overwrite o = false /\ force opts = false /\
     existsSync (Path.join c ".claude") fs = true) /\
    copy_node o (Path.join root "claude-config") s
      (get (Path.join c ".claude") (Some fs)) = Some n /\
    get (Path.join c ".claude") (Some fs') = Some n.
Proof.
  unfold Install.setup_claude. intros H Hs.
  assert (He : existsSync (Path.join root "claude-config") fs = true)
    by (apply existsSync_get; eauto).
  rewrite He in H.
  destruct (existsSync (Path.join c ".claude") fs) eqn:Hc; cbn [negb] in H.
  - destruct (force opts) eqn:Hforce.
    + apply copy_result in H as (s' & n & Hs' & Hn & Hg); [|reflexivity].
      rewrite Hs in Hs'. injection Hs' as <-.
      exists default_opts, n. repeat split; auto.
    + apply copy_result in H as (s' & n & Hs' & Hn & Hg); [|reflexivity].
      rewrite Hs in Hs'. injection Hs' as <-.
      eexists _, n. split; [|split; [|split; [exact Hn | exact Hg]]].
      * reflexivity.
      * right. now repeat split.
  - apply copy_result in H as (s' & n & Hs' & Hn & Hg); [|reflexivity].
    rewrite Hs in Hs'. injection Hs' as <-.
    exists default_opts, n. repeat split; auto.
Qed.

(** What steps 4 to 6 leave alone. *)
Lemma install_after_copy pr opts fs3 fs4 text fs' q :
  Install.setup_claude opts (Install.getPackageRoot pr) (cwd pr) fs3
    = Some fs4 ->
  writeFileSync
    (Path.join (Path.join (cwd pr) ".aios-core") "install-manifest.yaml") text
    (Install.install_deps opts (Path.join (cwd pr) ".aios-core") fs4)
    = Some fs' ->
  Path.diverge (Path.join (cwd pr) ".claude") q = true ->
  Path.diverge
    (Path.join (Path.join (cwd pr) ".aios-core") "install-manifest.yaml") q
    = true ->
  (skipDeps opts = true \/
   forall fs0, get q (Some (npm_install (Path.join (cwd pr) ".aios-core") fs0))
               = get q (Some fs0)) ->
  get q (Some fs') = get q (Some fs3).
Proof.
  intros H4 H6 Hc Hm Hnpm.
  rewrite (writeFileSync_frame _ _ _ _ _ H6 Hm).
  rewrite <- (setup_claude_frame _ _ _ _ _ _ H4 Hc).
  unfold Install.install_deps.
  destruct Hnpm as [-> | Hnpm]; [reflexivity|].
  destruct (negb (skipDeps opts)); [apply Hnpm | reflexivity].
Qed.

(** X18.  A completed [install] leaves in [install-manifest.yaml] the YAML
    text of a manifest whose [installed_at] is the clock's reading, whose
    [version] is the package version and whose [force] and [skip_deps] are
    the two options; under [--force] an older manifest, or one the package
    carries, is replaced by it. *)
Theorem install_writes_manifest pr opts fs fs' :
  Install.installAction pr opts fs = Done fs' ->
  exists text,
    yaml_dump
      (JObj [("installed_at", JStr (clock pr 0));
             ("version", Install.getPackageVersion pr fs);
             ("source", JStr (Path.abs_string (Install.getPackageRoot pr)));
             ("force", JBool (force opts));
             ("skip_deps", JBool (skipDeps opts))]) = Some text /\
    file_bytes
      (Path.join (Path.join (cwd pr) ".aios-core") "install-manifest.yaml") fs'
      = Some text.
Proof.
  intros H.
  apply installAction_run in H as (_ & fs3 & fs4 & text & _ & _ & Hd & Hw).
  exists text. split; [exact Hd | exact (writeFileSync_same _ _ _ _ Hw)].
Qed.

(** X19.  A completed [install] has brought in every regular file of the
    package whose first segment below the package root is not in
    [COPY_EXCLUDE]: the framework directory holds it at the same relative
    path with the package's contents, [core-config.yaml] included, also
    under [--force] on a project that had its own.  The manifest is written
    afterwards; npm is skipped or leaves the path alone; the package root
    lists no name twice at any depth. *)
Theorem install_copies_framework_files pr opts fs fs' s x r c :
  Install.installAction pr opts fs = Done fs' ->
  get (Install.getPackageRoot pr) (Some fs) = Some s ->
  wf s = true ->
  includes Install.COPY_EXCLUDE x = false ->
  x <> "install-manifest.yaml" ->
  file_bytes (Install.getPackageRoot pr ++ x :: r) fs = Some c ->
  (skipDeps opts = true \/
   forall fs0,
     get (Path.join (cwd pr) ".aios-core" ++ x :: r)
       (Some (npm_install (Path.join (cwd pr) ".aios-core") fs0))
     = get (Path.join (cwd pr) ".aios-core" ++ x :: r) (Some fs0)) ->
  file_bytes (Path.join (cwd pr) ".aios-core" ++ x :: r) fs' = Some c.
Proof.
  intros H Hs Hwf Hx Hne Hc Hnpm.
  apply installAction_run in H
    as (Hpre & fs3 & fs4 & text & H3 & H4 & _ & H6).
  apply file_bytes_get.
  rewrite (install_after_copy _ _ _ _ _ _ _ H4 H6); [| | |exact Hnpm].
  - apply copy_result in H3 as (s' & n & Hs' & Hn & Hg).
    2:{ simpl. unfold Install.copy_filter. now rewrite relative_self. }
    rewrite Hs in Hs'. injection Hs' as <-.
    rewrite (get_app (Path.join (cwd pr) ".aios-core")), Hg.
    apply (copy_node_file _ _ _ _ _ _ _ Hwf Hn).
    + apply file_bytes_get in Hc.
      now rewrite (get_app (Install.getPackageRoot pr)), Hs in Hc.
    + apply accepted_top. intros r1. simpl.
      now apply install_filter_accepts.
    + destruct Hpre as [Hno | Hforce]; [right | now left].
      apply existsSync_false in Hno. rewrite Hno. apply get_None.
  - apply diverge_app_r. paths.
  - rewrite <- (join_below _ x r). apply diverge_join_below. congruence.
Qed.

(** X20.  A completed [install] has copied nothing of the package's
    [node_modules], [.DS_Store], [claude-config] and [package-lock.json]
    into the framework directory: below these names it holds what it held
    before (npm skipped, or leaving the path alone). *)
Theorem install_skips_excluded pr opts fs fs' x r :
  Install.installAction pr opts fs = Done fs' ->
  In x Install.COPY_EXCLUDE ->
  (skipDeps opts = true \/
   forall fs0,
     get (Path.join (Path.join (cwd pr) ".aios-core") x ++ r)
       (Some (npm_install (Path.join (cwd pr) ".aios-core") fs0))
     = get (Path.join (Path.join (cwd pr) ".aios-core") x ++ r) (Some fs0)) ->
  get (Path.join (Path.join (cwd pr) ".aios-core") x ++ r) (Some fs') =
  get (Path.join (Path.join (cwd pr) ".aios-core") x ++ r) (Some fs).
Proof.
  intros H Hin Hnpm.
  apply installAction_run in H
    as (_ & fs3 & fs4 & text & H3 & H4 & _ & H6).
  rewrite (install_after_copy _ _ _ _ _ _ _ H4 H6); [| | |exact Hnpm].
  - apply copy_result in H3 as (s & n & Hs & Hn & Hg).
    2:{ simpl. unfold Install.copy_filter. now rewrite relative_self. }
    rewrite (join_below (Path.join (cwd pr) ".aios-core") x r).
    rewrite !(get_app (Path.join (cwd pr) ".aios-core") (x :: r)), Hg.
    apply (copy_node_rejected _ _ _ _ _ x r Hn).
    simpl. now apply install_filter_excluded.
  - apply diverge_app_r. paths.
  - apply diverge_join_below. intros <-. simpl in Hin.
    intuition discriminate.
Qed.

(** X21.  A completed [install] has put every regular file of the package's
    [claude-config] into [.claude], at the same relative path and with the
    same contents, when [--force] is given or the project had nothing at
    that path.  The package is assumed to lie outside the project's
    framework directory and to list no name twice below [claude-config]. *)
Theorem install_fills_claude pr opts fs fs' s r c :
  Install.installAction pr opts fs = Done fs' ->
  Path.diverge (Path.join (cwd pr) ".aios-core") (Install.getPackageRoot pr)
    = true ->
  get (Path.join (Install.getPackageRoot pr) "claude-config") (Some fs)
    = Some s ->
  wf s = true ->
  get r (Some s) = Some (File c) ->
  force opts = true \/ get (Path.join (cwd pr) ".claude" ++ r) (Some fs) = None ->
  (skipDeps opts = true \/
   forall fs0,
     get (Path.join (cwd pr) ".claude" ++ r)
       (Some (npm_install (Path.join (cwd pr) ".aios-core") fs0))
     = get (Path.join (cwd pr) ".claude" ++ r) (Some fs0)) ->
  file_bytes (Path.join (cwd pr) ".claude" ++ r) fs' = Some c.
Proof.
  intros H Da Hs Hwf Hr Hpre Hnpm.
  apply installAction_run in H
    as (_ & fs3 & fs4 & text & H3 & H4 & _ & H6).
  assert (Hf3 : forall q, Path.diverge (Path.join (cwd pr) ".aios-core") q = true ->
                          get q (Some fs3) = get q (Some fs))
    by (intros q; apply (copy_frame _ _ _ _ _ _ H3)).
  rewrite <- (Hf3 (Path.join (Install.getPackageRoot pr) "claude-config")
                (diverge_app_r _ _ _ Da)) in Hs.
  destruct (setup_claude_copy _ _ _ _ _ _ H4 Hs)
    as (o & n & Hfo & Hov & Hn & Hg).
  apply file_bytes_get.
  rewrite (writeFileSync_frame _ _ _ _ _ H6) by (apply diverge_app_r; paths).
  assert (H5 : get (Path.join (cwd pr) ".claude" ++ r)
                 (Some (Install.install_deps opts
                          (Path.join (cwd pr) ".aios-core") fs4))
               = get (Path.join (cwd pr) ".claude" ++ r) (Some fs4)).
  { unfold Install.install_deps. destruct Hnpm as [-> | Hnpm]; [reflexivity|].
    destruct (negb (skipDeps opts)); [apply Hnpm | reflexivity]. }
  rewrite H5, (get_app (Path.join (cwd pr) ".claude")), Hg.
  apply (copy_node_file _ _ _ _ _ _ _ Hwf Hn Hr).
  - now apply accepted_all.
  - destruct Hov as [[-> _] | (_ & Hforce & _)]; [now left | right].
    destruct Hpre as [Hf | Hnone]; [congruence|].
    rewrite <- (get_app (Path.join (cwd pr) ".claude")).
    rewrite Hf3 by (apply diverge_app_r; paths). exact Hnone.
Qed.

(** X22.  Without [--force], a completed [install] keeps every regular file
    the project already had below [.claude]: the merge copies only what is
    missing (npm skipped, or leaving the path alone). *)
Theorem install_keeps_claude_files pr opts fs fs' r c :
  Install.installAction pr opts fs = Done fs' ->
  force opts = false ->
  file_bytes (Path.join (cwd pr) ".claude" ++ r) fs = Some c ->
  (skipDeps opts = true \/
   forall fs0,
     get (Path.join (cwd pr) ".claude" ++ r)
       (Some (npm_install (Path.join (cwd pr) ".aios-core") fs0))
     = get (Path.join (cwd pr) ".claude" ++ r) (Some fs0)) ->
  file_bytes (Path.join (cwd pr) ".claude" ++ r) fs' = Some c.
Proof.
  intros H Hforce Hr Hnpm.
  apply installAction_run in H
    as (_ & fs3 & fs4 & text & H3 & H4 & _ & H6).
  apply file_bytes_get in Hr. apply file_bytes_get.
  rewrite (writeFileSync_frame _ _ _ _ _ H6) by (apply diverge_app_r; paths).
  assert (H5 : get (Path.join (cwd pr) ".claude" ++ r)
                 (Some (Install.install_deps opts
                          (Path.join (cwd pr) ".aios-core") fs4))
               = get (Path.join (cwd pr) ".claude" ++ r) (Some fs4)).
  { unfold Install.install_deps. destruct Hnpm as [-> | Hnpm]; [reflexivity|].
    destruct (negb (skipDeps opts)); [apply Hnpm | reflexivity]. }
  rewrite H5.
  rewrite <- (copy_frame _ _ _ _ _ (Path.join (cwd pr) ".claude" ++ r) H3) in Hr
    by (apply diverge_app_r; paths).
  destruct (get (Path.join (Install.getPackageRoot pr) "claude-config")
              (Some fs3)) as [s|] eqn:Hs.
  - destruct (setup_claude_copy _ _ _ _ _ _ H4 Hs)
      as (o & n & _ & Hov & Hn & Hg).
    rewrite (get_app (Path.join (cwd pr) ".claude")) in Hr |- *.
    rewrite Hg.
    destruct Hov as [[_ [He | Hf]] | (Ho & _ & _)].
    + apply existsSync_false in He. rewrite He, get_None in Hr.
      discriminate Hr.
    + congruence.
    + exact (copy_node_keeps _ _ Ho _ _ _ _ _ Hn Hr).
  - unfold Install.setup_claude in H4.
    apply existsSync_false in Hs. rewrite Hs in H4. now injection H4 as <-.
Qed.

(** X23.  On a project without [.claude], a completed [install] makes
    [.claude] an exact copy of the package's [claude-config], which is
    assumed to lie outside the project's framework directory and to list no
    name twice (npm skipped, or leaving [.claude] alone). *)
Theorem install_fresh_claude_is_claude_config pr opts fs fs' s :
  Install.installAction pr opts fs = Done fs' ->
  Path.diverge (Path.join (cwd pr) ".aios-core") (Install.getPackageRoot pr)
    = true ->
  existsSync (Path.join (cwd pr) ".claude") fs = false ->
  get (Path.join (Install.getPackageRoot pr) "claude-config") (Some fs)
    = Some s ->
  wf s = true ->
  (skipDeps opts = true \/
   forall fs0,
     get (Path.join (cwd pr) ".claude")
       (Some (npm_install (Path.join (cwd pr) ".aios-core") fs0))
     = get (Path.join (cwd pr) ".claude") (Some fs0)) ->
  get (Path.join (cwd pr) ".claude") (Some fs') = Some s.
Proof.
  intros H Da Hno Hs Hwf Hnpm.
  apply installAction_run in H
    as (_ & fs3 & fs4 & text & H3 & H4 & _ & H6).
  assert (Hf3 : forall q, Path.diverge (Path.join (cwd pr) ".aios-core") q = true ->
                          get q (Some fs3) = get q (Some fs))
    by (intros q; apply (copy_frame _ _ _ _ _ _ H3)).
  rewrite <- (Hf3 (Path.join (Install.getPackageRoot pr) "claude-config")
                (diverge_app_r _ _ _ Da)) in Hs.
  apply existsSync_false in Hno.
  rewrite <- (Hf3 (Path.join (cwd pr) ".claude")) in Hno by paths.
  destruct (setup_claude_copy _ _ _ _ _ _ H4 Hs)
    as (o & n & _ & Hov & Hn & Hg).
  destruct Hov as [[-> _] | (_ & _ & He)];
    [|apply existsSync_get in He as (m & He); congruence].
  rewrite Hno in Hn.
  rewrite (copy_node_fresh s Hwf) in Hn. injection Hn as <-.
  rewrite (writeFileSync_frame _ _ _ _ _ H6) by paths.
  unfold Install.install_deps.
  destruct Hnpm as [-> | Hnpm]; [exact Hg|].
  destruct (negb (skipDeps opts)); [now rewrite Hnpm | exact Hg].
Qed.

End InstallRun.

(** ** An update after an install *)

Section InstallThenUpdate.
Context {E : Externals}.

(** X25.  An [update] run on what [install] left, from the same package:
    when the text of the install manifest, read back from the file, loads
    with its [version] and [installed_at], the manifest the update writes keeps the [installed_at]
    of the install, stamps [updated_at] with its own clock, and has the
    package version both as [version] and as [previous_version].  The
    package is assumed to lie outside the project's [.aios-core] and
    [.claude], and npm to be skipped or to leave [package.json] alone. *)
Theorem update_after_install_manifest pr pr2 opts opts2 fs fs1 fs2 text old :
  Install.installAction pr opts fs = Done fs1 ->
  Update.updateAction pr2 opts2 fs1 = Done fs2 ->
  cwd pr2 = cwd pr ->
  Update.getPackageRoot pr2 = Install.getPackageRoot pr ->
  Path.diverge (Path.join (cwd pr) ".aios-core") (Install.getPackageRoot pr)
    = true ->
  Path.diverge (Path.join (cwd pr) ".claude") (Install.getPackageRoot pr)
    = true ->
  (skipDeps opts = true \/
   forall fs0,
     get (Path.join (Install.getPackageRoot pr) "package.json")
       (Some (npm_install (Path.join (cwd pr) ".aios-core") fs0))
     = get (Path.join (Install.getPackageRoot pr) "package.json") (Some fs0)) ->
  yaml_dump (Install.build_manifest pr opts (Install.getPackageVersion pr fs)
               (Install.getPackageRoot pr)) = Some text ->
  Utf8.decode text <> "" ->
  yaml_load (Utf8.decode text) = Some old ->
  js_get old "version" = Some (Install.getPackageVersion pr fs) ->
  js_get old "installed_at" = Some (JStr (clock pr 0)) ->
  exists text2,
    yaml_dump (Update.manifest_of (JStr (clock pr 0)) (JStr (clock pr2 0))
                 (Install.getPackageVersion pr fs)
                 (Install.getPackageVersion pr fs)
                 (Path.abs_string (Install.getPackageRoot pr))) = Some text2 /\
    file_bytes
      (Path.join (Path.join (cwd pr) ".aios-core") "install-manifest.yaml") fs2
      = Some text2.
Proof.
  intros H1 H2 Hcwd Hroot Da Dc Hnpm Hd Hne Hl Hv Hi.
  apply installAction_run in H1
    as (_ & fs3 & fs4 & text' & H3 & H4 & Hd' & H6).
  rewrite Hd in Hd'. injection Hd' as <-.
  assert (Hpkg : get (Path.join (Install.getPackageRoot pr) "package.json")
                   (Some fs1)
                 = get (Path.join (Install.getPackageRoot pr) "package.json")
                     (Some fs)).
  { rewrite (install_after_copy _ _ _ _ _ _ _ H4 H6);
      [| now apply diverge_app_r
       | now apply diverge_app_l, diverge_app_r
       | exact Hnpm].
    apply (copy_frame _ _ _ _ _ _ H3). now apply diverge_app_r. }
  assert (Hver : Update.getPackageVersion pr2 fs1
                 = Install.getPackageVersion pr fs).
  { unfold Update.getPackageVersion, Install.getPackageVersion.
    rewrite Hroot. now rewrite (readFileSync_ext _ _ _ Hpkg). }
  apply writeFileSync_same, readFileSync_bytes in H6. rewrite <- Hcwd in H6.
  apply updateAction_manifest in H2 as (m & text2 & Hm & Hd2 & Hr2).
  exists text2. rewrite <- Hcwd. split; [|exact Hr2]. rewrite <- Hd2. f_equal.
  unfold Update.new_manifest in Hm. bind_inv Hm as b Hb.
  rewrite (read_currentVersion_loaded _ _ _ _ _ H6 Hl Hv
             (getPackageVersion_truthy pr fs)) in Hm.
  rewrite Hver, Hroot in Hm.
  apply build_manifest_inv in Hm
    as [(t & old' & i' & Ht & _ & Hl' & Hi' & ->) | [Hf _]].
  - rewrite (backup_of_manifest _ _ _ _ Hb H6) in Ht. injection Ht as <-.
    rewrite Hl in Hl'. injection Hl' as <-.
    rewrite Hi in Hi'. now injection Hi' as <-.
  - rewrite (backup_of_manifest _ _ _ _ Hb H6) in Hf. simpl in Hf.
    apply negb_false_iff, String.eqb_eq in Hf. contradiction.
Qed.

End InstallThenUpdate.

(** ** The version readers, compared *)

Section VersionsMore.
Context {E : Externals}.

(** X24.  On the same [package.json], [getPackageVersion] of the install and
    update commands returns what the entry point's [packageVersion] holds
    exactly when the latter is truthy: the readers differ on a version that
    is absent, empty, zero, [null] or [false], and on nothing else. *)
Theorem version_readers_agree pr pr' fs :
  Path.parent (dirname pr) = Update.getPackageRoot pr' ->
  Update.getPackageVersion pr' fs = Cli.packageVersion pr fs <->
  truthy (Cli.packageVersion pr fs) = true.
Proof.
  intros Hroot. split.
  - intros <-. apply getPackageVersion_truthy.
  - unfold Cli.packageVersion, Update.getPackageVersion. rewrite Hroot.
    destruct (readFileSync _ fs) as [text|]; [|reflexivity].
    destruct (json_parse text) as [pkg|]; [|reflexivity].
    destruct (js_get pkg "version") as [v|]; [|reflexivity].
    unfold js_or. now intros ->.
Qed.

End VersionsMore.

(** ** Runs of the commands *)

Ltac run := vm_compute; reflexivity.

Lemma update_changes_only_project_dirs_witness :
  exists fs',
    @Update.updateAction Demo.demo Demo.now_pr Demo.no_force Demo.project
      = Done fs' /\
    get ["pkg"; "claude-config"; "CLAUDE.md"] (Some fs') =
    get ["pkg"; "claude-config"; "CLAUDE.md"] (Some Demo.project).
Proof.
  eexists. split; [run|].
  apply (@update_changes_only_project_dirs Demo.demo Demo.now_pr
           Demo.no_force Demo.project); run.
Defined.

Lemma update_keeps_settings_local_witness :
  exists fs',
    @Update.updateAction Demo.demo Demo.now_pr Demo.with_force
      (Demo.project_with Demo.latin1 "custom") = Done fs' /\
    get ["proj"; ".claude"; "settings.local.json"]
      (Some (Demo.project_with Demo.latin1 "custom"))
    = Some (File Demo.latin1) /\
    get ["proj"; ".claude"; "settings.local.json"] (Some fs')
    = Some (File Demo.latin1_decoded).
Proof.
  eexists. split; [run|]. split; [reflexivity|].
  exact (@update_keeps_settings_local Demo.demo Demo.now_pr Demo.with_force
           (Demo.project_with Demo.latin1 "custom") _ ltac:(run)).
Defined.

Lemma update_installs_settings_json_witness :
  exists fs',
    @Update.updateAction Demo.demo Demo.now_pr Demo.no_force Demo.project
      = Done fs' /\
    file_bytes ["proj"; ".claude"; "settings.json"] fs' = Some "{}".
Proof.
  eexists. split; [run|].
  apply (@update_installs_settings_json Demo.demo Demo.now_pr Demo.no_force
           Demo.project); run.
Defined.


Lemma update_installs_claudeMd_witness :
  exists fs',
    @Update.updateAction Demo.demo Demo.now_pr Demo.with_force Demo.project
      = Done fs' /\
    file_bytes ["proj"; ".claude"; "CLAUDE.md"] fs' = Some "template".
Proof.
  eexists. split; [run|].
  apply (@update_installs_claudeMd Demo.demo Demo.now_pr Demo.with_force
           Demo.project); try run. right. reflexivity.
Defined.

Lemma update_keeps_what_package_lacks_witness :
  exists fs',
    @Update.updateAction Demo.demo Demo.now_pr Demo.no_force
      (Dir [("pkg", Dir [("claude-config", Dir [])]);
            ("proj", Dir [(".aios-core", Dir []);
                          (".claude",
                           Dir [("hooks", Dir [("pre.sh", File "mine")])])])])
      = Done fs' /\
    get ["proj"; ".claude"; "hooks"; "pre.sh"] (Some fs') =
    Some (File "mine").
Proof.
  eexists. split; [run|].
  apply (@update_keeps_what_package_lacks Demo.demo Demo.now_pr Demo.no_force
           (Dir [("pkg", Dir [("claude-config", Dir [])]);
                 ("proj", Dir [(".aios-core", Dir []);
                               (".claude",
                                Dir [("hooks", Dir [("pre.sh", File "mine")])])])])
           _ "hooks" ["pre.sh"]); try run.
  simpl. tauto.
Defined.

Lemma update_leaves_local_configs_alone_witness :
  exists fs',
    @Update.updateAction Demo.demo Demo.now_pr Demo.no_force
      (Demo.project_with Demo.latin1 "custom") = Done fs' /\
    get ["proj"; ".aios-core"; "core-config.yaml"] (Some fs') =
    Some (File Demo.latin1_decoded) /\
    get ["proj"; ".aios-core"; "local-config.yaml"] (Some fs') = None.
Proof.
  eexists. split; [run|]. split.
  - exact (@update_leaves_local_configs_alone Demo.demo Demo.now_pr
             Demo.no_force (Demo.project_with Demo.latin1 "custom") _
             "core-config.yaml" ltac:(run) eq_refl
             ltac:(simpl; tauto)).
  - exact (@update_leaves_local_configs_alone Demo.demo Demo.now_pr
             Demo.no_force (Demo.project_with Demo.latin1 "custom") _
             "local-config.yaml" ltac:(run) eq_refl
             ltac:(simpl; tauto)).
Defined.

Lemma update_force_installs_missing_config_witness :
  exists fs',
    @Update.updateAction Demo.demo Demo.now_pr Demo.with_force Demo.bare_fs
      = Done fs' /\
    file_bytes ["proj"; ".aios-core"; "core-config.yaml"] fs'
      = Some "project: default".
Proof.
  eexists. split; [run|].
  apply (@update_force_installs_missing_config Demo.demo Demo.now_pr
           Demo.with_force Demo.bare_fs _ "core-config.yaml"
           (Demo.pkg_tree (Demo.package_json "1.2.0"))); try run.
  simpl. tauto.
Defined.

Lemma update_skips_excluded_witness :
  exists fs',
    @Update.updateAction Demo.demo Demo.now_pr Demo.with_force Demo.bare_fs
      = Done fs' /\
    get ["proj"; ".aios-core"; "claude-config"; "CLAUDE.md"] (Some fs') = None.
Proof.
  eexists. split; [run|].
  apply (@update_skips_excluded Demo.demo Demo.now_pr Demo.with_force
           Demo.bare_fs _ "claude-config" ["CLAUDE.md"]); try run.
  simpl. tauto.
Defined.

Lemma update_copies_framework_files_witness :
  exists fs',
    @Update.updateAction Demo.demo Demo.now_pr Demo.no_force Demo.project
      = Done fs' /\
    file_bytes ["proj"; ".aios-core"; "cli"; "index.js"] fs' = Some "cli".
Proof.
  eexists. split; [run|].
  apply (@update_copies_framework_files Demo.demo Demo.now_pr Demo.no_force
           Demo.project _ (Demo.pkg_tree (Demo.package_json "1.2.0"))
           "cli" ["index.js"]); run.
Defined.

Lemma update_manifest_of_loaded_witness :
  exists fs',
    @Update.updateAction Demo.demo Demo.now_pr Demo.no_force Demo.project
      = Done fs' /\
    exists text',
      @yaml_dump Demo.demo
        (Update.manifest_of (JStr "2024-01-01T00:00:00.000Z")
           (JStr "2024-05-01T10:00:00.000Z")
           (@Update.getPackageVersion Demo.demo Demo.now_pr Demo.project)
           (JStr "1.0.0") "/pkg") = Some text' /\
      file_bytes Demo.manifest_path fs' = Some text'.
Proof.
  eexists. split; [run|].
  apply (@update_manifest_of_loaded Demo.demo Demo.now_pr Demo.no_force
           Demo.project _ Demo.old_manifest
           (JObj [("installed_at", JStr "2024-01-01T00:00:00.000Z");
                  ("version", JStr "1.0.0");
                  ("source", JStr "/pkg")])
           (JStr "1.0.0") (JStr "2024-01-01T00:00:00.000Z"));
    try run; discriminate.
Defined.

Lemma update_manifest_without_old_witness :
  exists fs',
    @Update.updateAction Demo.demo Demo.now_pr Demo.no_force Demo.bare_fs
      = Done fs' /\
    exists text',
      @yaml_dump Demo.demo
        (Update.manifest_of (JStr "2024-05-01T10:00:00.000Z")
           (JStr "2024-05-01T10:00:00.001Z")
           (@Update.getPackageVersion Demo.demo Demo.now_pr Demo.bare_fs)
           (JStr "unknown") "/pkg") = Some text' /\
      file_bytes Demo.manifest_path fs' = Some text'.
Proof.
  eexists. split; [run|].
  apply (@update_manifest_without_old Demo.demo Demo.now_pr Demo.no_force
           Demo.bare_fs); run.
Defined.

Lemma sync_mirrors_directories_witness :
  exists fs',
    Sync.syncAction Demo.sync_pr Demo.hub = Done fs' /\
    file_bytes ["hub"; ".aios-core"; "claude-config"; "commands"; "build.md"]
      fs' = Some "build" /\
    file_bytes ["hub"; ".aios-core"; "claude-config"; "commands"; "gone.md"]
      fs' = None.
Proof.
  eexists. split; [run|]. split; [|reflexivity].
  apply (proj2 (sync_mirrors_directories Demo.sync_pr Demo.hub _ "commands"
                  (Dir [("build.md", File "build"); (".DS_Store", File "")])
                  ["build.md"] "build"
                  ltac:(run) ltac:(simpl; tauto) eq_refl eq_refl eq_refl)).
  split; reflexivity.
Defined.

Lemma sync_copies_file_items_witness :
  exists fs',
    Sync.syncAction Demo.sync_pr Demo.hub = Done fs' /\
    file_bytes ["hub"; ".aios-core"; "claude-config"; "CLAUDE.md"] fs'
      = Some "instructions".
Proof.
  eexists. split; [run|].
  apply (sync_copies_file_items Demo.sync_pr Demo.hub _ "CLAUDE.md");
    try run. simpl. tauto.
Defined.

Lemma sync_skips_missing_items_witness :
  exists fs',
    Sync.syncAction Demo.sync_pr Demo.hub = Done fs' /\
    get ["hub"; ".aios-core"; "claude-config"; "rules"; "old.md"] (Some fs')
      = Some (File "old").
Proof.
  eexists. split; [run|].
  apply (sync_skips_missing_items Demo.sync_pr Demo.hub _ "rules" ["old.md"]);
    try run. simpl. tauto.
Defined.

Lemma sync_changes_only_claude_config_witness :
  exists fs',
    Sync.syncAction Demo.sync_pr Demo.hub = Done fs' /\
    get ["hub"; ".claude"] (Some fs') = get ["hub"; ".claude"] (Some Demo.hub).
Proof.
  eexists. split; [run|].
  apply (sync_changes_only_claude_config Demo.sync_pr Demo.hub); run.
Defined.

Lemma install_writes_manifest_witness :
  exists fs',
    @Install.installAction Demo.demo Demo.install_pr Demo.no_force
      (Demo.fresh_fs []) = Done fs' /\
    exists text,
      @yaml_dump Demo.demo
        (JObj [("installed_at", JStr "2024-05-01T10:00:00.000Z");
               ("version", JStr "1.2.0");
               ("source", JStr "/pkg");
               ("force", JBool false);
               ("skip_deps", JBool true)]) = Some text /\
      file_bytes Demo.manifest_path fs' = Some text.
Proof.
  eexists. split; [run|].
  apply (@install_writes_manifest Demo.demo Demo.install_pr Demo.no_force
           (Demo.fresh_fs [])). run.
Defined.

Lemma install_copies_framework_files_witness :
  exists fs',
    @Install.installAction Demo.demo Demo.install_pr Demo.with_force
      Demo.project = Done fs' /\
    file_bytes ["proj"; ".aios-core"; "core-config.yaml"] fs'
      = Some "project: default".
Proof.
  eexists. split; [run|].
  apply (@install_copies_framework_files Demo.demo Demo.install_pr
           Demo.with_force Demo.project _
           (Demo.pkg_tree (Demo.package_json "1.2.0")) "core-config.yaml" []);
    try run; [discriminate | now left].
Defined.

Lemma install_skips_excluded_witness :
  exists fs',
    @Install.installAction Demo.demo Demo.install_pr Demo.no_force
      (Demo.fresh_fs []) = Done fs' /\
    get ["proj"; ".aios-core"; "claude-config"; "CLAUDE.md"] (Some fs') = None.
Proof.
  eexists. split; [run|].
  apply (@install_skips_excluded Demo.demo Demo.install_pr Demo.no_force
           (Demo.fresh_fs []) _ "claude-config" ["CLAUDE.md"]);
    try run; [simpl; tauto | now left].
Defined.

Lemma install_fills_claude_witness :
  exists fs',
    @Install.installAction Demo.demo Demo.install_pr Demo.no_force
      (Demo.fresh_fs [(".claude", Dir [("CLAUDE.md", File "mine")])])
      = Done fs' /\
    file_bytes ["proj"; ".claude"; "commands"; "build.md"] fs'
      = Some "build v2".
Proof.
  eexists. split; [run|].
  apply (@install_fills_claude Demo.demo Demo.install_pr Demo.no_force
           (Demo.fresh_fs [(".claude", Dir [("CLAUDE.md", File "mine")])]) _
           (Dir [("commands", Dir [("build.md", File "build v2")]);
                 ("rules", Dir [("style.md", File "style v2")]);
                 ("CLAUDE.md", File "template");
                 ("settings.json", File "{}")])
           ["commands"; "build.md"]);
    try run; [now right | now left].
Defined.

Lemma install_keeps_claude_files_witness :
  exists fs',
    @Install.installAction Demo.demo Demo.install_pr Demo.no_force
      (Demo.fresh_fs [(".claude", Dir [("CLAUDE.md", File "mine")])])
      = Done fs' /\
    file_bytes ["proj"; ".claude"; "CLAUDE.md"] fs' = Some "mine".
Proof.
  eexists. split; [run|].
  apply (@install_keeps_claude_files Demo.demo Demo.install_pr Demo.no_force
           (Demo.fresh_fs [(".claude", Dir [("CLAUDE.md", File "mine")])]) _
           ["CLAUDE.md"]);
    try run. now left.
Defined.

Lemma install_fresh_claude_is_claude_config_witness :
  exists fs',
    @Install.installAction Demo.demo Demo.install_pr Demo.no_force
      (Demo.fresh_fs []) = Done fs' /\
    get ["proj"; ".claude"] (Some fs') =
    get ["pkg"; "claude-config"] (Some (Demo.fresh_fs [])).
Proof.
  eexists. split; [run|].
  apply (@install_fresh_claude_is_claude_config Demo.demo Demo.install_pr
           Demo.no_force (Demo.fresh_fs [])); try run. now left.
Defined.

Lemma version_readers_agree_witness :
  @Update.getPackageVersion Demo.demo Demo.now_pr Demo.project =
  @Cli.packageVersion Demo.demo Demo.cli_pr Demo.project.
Proof.
  apply (proj2 (@version_readers_agree Demo.demo Demo.cli_pr Demo.now_pr
                  Demo.project eq_refl)).
  reflexivity.
Defined.

Lemma update_after_install_manifest_witness :
  exists fs1 fs2,
    @Install.installAction Demo.demo Demo.install_pr Demo.no_force
      (Demo.fresh_fs []) = Done fs1 /\
    @Update.updateAction Demo.demo Demo.now_pr Demo.no_force fs1 = Done fs2 /\
    exists text2,
      @yaml_dump Demo.demo
        (Update.manifest_of (JStr "2024-05-01T10:00:00.000Z")
           (JStr "2024-05-01T10:00:00.000Z") (JStr "1.2.0") (JStr "1.2.0")
           "/pkg") = Some text2 /\
      file_bytes Demo.manifest_path fs2 = Some text2.
Proof.
  eexists. eexists. split; [run|]. split; [run|].
  eapply (@update_after_install_manifest Demo.demo Demo.install_pr
            Demo.now_pr Demo.no_force Demo.no_force (Demo.fresh_fs []));
    try run; [now left | discriminate].
Defined.
